(** * py-pinger: a shallow embedding of [py-pinger.py]

    The script pings a list of hosts through the platform's [ping] command,
    one worker thread per host (at most 50 at a time), parses the summary
    lines of each command's output into a [PingResult] and prints the
    results.  This file embeds

    - the Python string operations the parser relies on ([split], [strip],
      [startswith], [in], slices, [int], [bytes.decode]);
    - [PingResult], [Pinger] and its methods, over an explicit object store,
      since [Pinger.__init__] puts one [PingResult] object under every key;
    - [ThreadPoolExecutor.map] as a step relation over worker states;

    and states the properties of the probing engine over them. *)

From Stdlib Require Import ZArith String Ascii List Lia Bool.
From stdpp Require Import base list.

Local Open Scope Z_scope.

(** ** Python strings

    A [str] is a sequence of Unicode code points, a [bytes] value a sequence
    of bytes. *)

Definition str := list Z.
Definition bytes := list Byte.byte.

(** An ASCII literal as a [str]. *)
Definition lit (s : string) : str :=
  map (fun a => Z.of_N (N_of_ascii a)) (list_ascii_of_string s).
Arguments lit s%_string.

Definition blit (s : string) : bytes := list_byte_of_string s.
Arguments blit s%_string.

Definition byte_val (b : Byte.byte) : Z := Z.of_N (Byte.to_N b).

(** *** Exceptions *)

Inductive exn : Set :=
| IndexError
| ValueError
| OverflowError
| UnicodeDecodeError
| UnicodeEncodeError
| OSError.

Inductive result (A : Type) : Type :=
| Ok (a : A)
| Raise (e : exn).
Arguments Ok {A} a.
Arguments Raise {A} e.

#[global] Instance result_ret : MRet result := fun A a => Ok a.
#[global] Instance result_bind : MBind result := fun A B k r =>
  match r with
  | Ok a => k a
  | Raise e => Raise e
  end.

#[global] Instance result_fmap : FMap result := fun A B f r =>
  match r with
  | Ok a => Ok (f a)
  | Raise e => Raise e
  end.

(** *** [str.isspace], [strip], [lstrip]

    The code points CPython's [Py_UNICODE_ISSPACE] accepts. *)

Definition isspace (c : Z) : bool :=
  ((9 <=? c) && (c <=? 13)) || ((28 <=? c) && (c <=? 32))
  || (c =? 133) || (c =? 160) || (c =? 5760)
  || ((8192 <=? c) && (c <=? 8202))
  || (c =? 8232) || (c =? 8233) || (c =? 8239) || (c =? 8287) || (c =? 12288).

Fixpoint drop_while (p : Z -> bool) (s : str) : str :=
  match s with
  | [] => []
  | c :: s' => if p c then drop_while p s' else s
  end.

Definition lstrip (s : str) : str := drop_while isspace s.
Definition rstrip (s : str) : str := rev (drop_while isspace (rev s)).
Definition strip (s : str) : str := rstrip (lstrip s).

(** *** [str.split(sep)] for a separator of one character

    [''.split(' ')] is [['']]: the result is never empty, and empty fields
    are kept. *)

Fixpoint split (sep : Z) (s : str) : list str :=
  match s with
  | [] => [[]]
  | c :: s' =>
      if c =? sep then [] :: split sep s'
      else match split sep s' with
           | f :: fs => (c :: f) :: fs
           | [] => [[c]]
           end
  end.

(** *** [startswith] and [in] *)

Fixpoint startswith (p s : str) : bool :=
  match p, s with
  | [], _ => true
  | _ :: _, [] => false
  | a :: p', b :: s' => (a =? b) && startswith p' s'
  end.

(** [contains p s] is [p in s]. *)
Fixpoint contains (p s : str) : bool :=
  startswith p s ||
  match s with
  | [] => false
  | _ :: s' => contains p s'
  end.

(** *** Indexing and slices

    [l[i]] raises [IndexError] out of range; [s[:-k]] never raises. *)

Definition index {A} (l : list A) (i : nat) : result A :=
  match l !! i with
  | Some a => Ok a
  | None => Raise IndexError
  end.

(** [drop_last k s] is [s[:-k]] for [k > 0]. *)
Definition drop_last (k : nat) (s : str) : str := take (length s - k) s.

(** *** [int(s)] of a [str]

    Optional blanks around, an optional sign, then decimal digits, which
    single underscores may separate.  CPython refuses more than 4300 digits
    ([sys.int_info.default_max_str_digits]).  The blanks [int] skips are the
    ASCII ones of C's [isspace] and the Unicode blanks above 127; digits are
    the ASCII ones (the decimal digits of other scripts, which CPython also
    converts, are not in the model: [ping] prints ASCII digits). *)

Definition int_space (c : Z) : bool :=
  ((9 <=? c) && (c <=? 13)) || (c =? 32) || ((128 <=? c) && isspace c).

Definition is_digit (c : Z) : bool := (48 <=? c) && (c <=? 57).

Definition int_max_str_digits : nat := 4300.

(** [digits_from acc n s]: the digits of [s] after a digit was read, with the
    value [acc] and the number [n] of digits so far. *)
Fixpoint digits_from (acc : Z) (n : nat) (s : str) : option (Z * nat) :=
  match s with
  | [] => Some (acc, n)
  | c :: s' =>
      if is_digit c then digits_from (10 * acc + (c - 48)) (S n) s'
      else if c =? 95 then
        match s' with
        | d :: s'' =>
            if is_digit d then digits_from (10 * acc + (d - 48)) (S n) s''
            else None
        | [] => None
        end
      else None
  end.

Definition digits (s : str) : option (Z * nat) :=
  match s with
  | c :: s' => if is_digit c then digits_from (c - 48) 1 s' else None
  | [] => None
  end.

Definition int_strip (s : str) : str :=
  rev (drop_while int_space (rev (drop_while int_space s))).

Definition py_int (s : str) : result Z :=
  let t := int_strip s in
  let '(neg, body) :=
    match t with
    | 45 :: r => (true, r)
    | 43 :: r => (false, r)
    | _ => (false, t)
    end in
  match digits body with
  | Some (v, n) =>
      if (int_max_str_digits <? n)%nat then Raise ValueError
      else Ok (if neg then - v else v)
  | None => Raise ValueError
  end.

(** *** [str(n)] of an [int], as an f-string formats it *)

Fixpoint dec_digits (fuel : nat) (n : Z) (acc : str) : str :=
  match fuel with
  | O => acc
  | S fuel' =>
      let acc' := (48 + n mod 10) :: acc in
      if n <? 10 then acc' else dec_digits fuel' (n / 10) acc'
  end.

Definition str_of_nonneg (n : Z) : str :=
  dec_digits (S (Z.to_nat (Z.log2 n))) n [].

Definition str_of_int (n : Z) : str :=
  if n <? 0 then 45 :: str_of_nonneg (- n) else str_of_nonneg n.

(** *** [bytes.decode('utf-8')]

    The strict decoder: a malformed, overlong or truncated sequence, a
    surrogate or a code point above U+10FFFF raises [UnicodeDecodeError]. *)

Definition is_cont (b : Z) : bool := (128 <=? b) && (b <=? 191).

Definition cont_bits (b : Z) : Z := Z.land b 63.

Fixpoint utf8_points (bs : list Z) : option str :=
  match bs with
  | [] => Some []
  | b0 :: r0 =>
      if b0 <? 128 then option_map (cons b0) (utf8_points r0)
      else if (194 <=? b0) && (b0 <=? 223) then
        match r0 with
        | b1 :: r1 =>
            if is_cont b1 then
              option_map
                (cons (Z.lor (Z.shiftl (Z.land b0 31) 6) (cont_bits b1)))
                (utf8_points r1)
            else None
        | _ => None
        end
      else if (224 <=? b0) && (b0 <=? 239) then
        match r0 with
        | b1 :: b2 :: r2 =>
            if is_cont b1 && is_cont b2
               && (negb (b0 =? 224) || (160 <=? b1))
               && (negb (b0 =? 237) || (b1 <=? 159)) then
              option_map
                (cons (Z.lor (Z.shiftl (Z.land b0 15) 12)
                         (Z.lor (Z.shiftl (cont_bits b1) 6) (cont_bits b2))))
                (utf8_points r2)
            else None
        | _ => None
        end
      else if (240 <=? b0) && (b0 <=? 244) then
        match r0 with
        | b1 :: b2 :: b3 :: r3 =>
            if is_cont b1 && is_cont b2 && is_cont b3
               && (negb (b0 =? 240) || (144 <=? b1))
               && (negb (b0 =? 244) || (b1 <=? 143)) then
              option_map
                (cons (Z.lor (Z.shiftl (Z.land b0 7) 18)
                         (Z.lor (Z.shiftl (cont_bits b1) 12)
                            (Z.lor (Z.shiftl (cont_bits b2) 6) (cont_bits b3)))))
                (utf8_points r3)
            else None
        | _ => None
        end
      else None
  end.

Definition decode_utf8 (b : bytes) : result str :=
  match utf8_points (map byte_val b) with
  | Some s => Ok s
  | None => Raise UnicodeDecodeError
  end.

(** *** [float(s)] and [int(x)] of a [float]

    The parser of the POSIX summary line goes through [int(float(s))].  The
    two builtins are an interface here: a type of floats with its order, the
    parser [float] ([ValueError] on a malformed literal) and the truncation
    [int] ([OverflowError] on an infinity, [ValueError] on a nan). *)

Class PyFloat : Type := {
  pyfloat : Type;
  float_of_str : str -> result pyfloat;
  int_of_float : pyfloat -> result Z;
  float_le : pyfloat -> pyfloat -> Prop;
  float_zero : pyfloat
}.

(** What the properties below use of Python's floats: [int(0.0)] is [0], and
    [int] (truncation towards zero) is monotone. *)
Class PyFloatLaws (F : PyFloat) : Prop := {
  int_of_float_zero : int_of_float float_zero = Ok 0;
  int_of_float_mono : forall x y m n,
    float_le x y -> int_of_float x = Ok m -> int_of_float y = Ok n -> m <= n
}.

(** *** The floats of CPython

    A [float] is an IEEE 754 binary64 number: a finite one is kept as the
    rational [num / 2^k] it denotes (the sign of a zero is dropped: [int]
    and the order do not see it).  [float(s)] reads a decimal literal and
    rounds it to the nearest float, ties to the even mantissa. *)
Inductive binary64 : Type :=
| Finite (num : Z) (k : N)
| Infinity (neg : bool)
| NaN.

(** The nearest integer to [p / q], ties to even, for [0 <= p], [0 < q]. *)
Definition round_half_even (p q : Z) : Z :=
  let d := p / q in
  let r := p mod q in
  match 2 * r ?= q with
  | Lt => d
  | Gt => d + 1
  | Eq => if Z.even d then d else d + 1
  end.

(** [floor (log2 (p / q))] for [0 < p], [0 < q]. *)
Definition floor_log2 (p q : Z) : Z :=
  let c := Z.log2 p - Z.log2 q in
  if q * 2 ^ Z.max c 0 <=? p * 2 ^ Z.max (- c) 0 then c else c - 1.

(** The float nearest to [p / q], for [0 < p], [0 < q]: 53 bits of
    mantissa, exponents down to -1074, and infinity from [2^1024] on. *)
Definition nearest_binary64 (p q : Z) : binary64 :=
  let e := Z.max (floor_log2 p q - 52) (- 1074) in
  let m := round_half_even (p * 2 ^ Z.max (- e) 0) (q * 2 ^ Z.max e 0) in
  if 2 ^ 1024 <=? m * 2 ^ Z.max e 0 then Infinity false
  else Finite (m * 2 ^ Z.max e 0) (Z.to_N (- e)).

(** A run of digits: its value after [acc], and its length. *)
Fixpoint digit_run (acc : Z) (n : nat) (s : str) : Z * nat * str :=
  match s with
  | c :: s' =>
      if is_digit c then digit_run (10 * acc + (c - 48)) (S n) s'
      else (acc, n, s)
  | [] => (acc, n, [])
  end.

(** Underscores stand between two digits only; they are then dropped. *)
Fixpoint underscores_ok (prev_digit : bool) (s : str) : bool :=
  match s with
  | [] => true
  | c :: s' =>
      if c =? 95 then
        prev_digit
        && match s' with
           | d :: _ => is_digit d
           | [] => false
           end
        && underscores_ok false s'
      else underscores_ok (is_digit c) s'
  end.

Definition lower (c : Z) : Z :=
  if (65 <=? c) && (c <=? 90) then c + 32 else c.

(** The exponent part: [e], an optional sign, digits. *)
Definition exponent (s : str) : option Z :=
  match s with
  | [] => Some 0
  | c :: s' =>
      if lower c =? 101 then
        let '(neg, ds) :=
          match s' with
          | 45 :: r => (true, r)
          | 43 :: r => (false, r)
          | _ => (false, s')
          end in
        match digit_run 0 0 ds with
        | (v, S _, []) => Some (if neg then - v else v)
        | _ => None
        end
      else None
  end.

(** An unsigned decimal literal as [m * 10^t], with the number of its
    digits. *)
Definition decimal (s : str) : option (Z * Z * nat) :=
  let '(i, ni, rest) := digit_run 0 0 s in
  let '(m, nf, rest') :=
    match rest with
    | 46 :: r => digit_run i 0 r
    | _ => (i, 0%nat, rest)
    end in
  match (ni + nf)%nat with
  | O => None
  | S _ =>
      match exponent rest' with
      | Some e => Some (m, e - Z.of_nat nf, (ni + nf)%nat)
      | None => None
      end
  end.

(** The float of [m * 10^t], a literal of [n] digits.  Literals beyond the
    range are settled without the power of ten. *)
Definition binary64_of_decimal (m t : Z) (n : nat) : binary64 :=
  if m =? 0 then Finite 0 0
  else if 310 <? t then Infinity false
  else if t + Z.of_nat n <? - 330 then Finite 0 0
  else if 0 <=? t then nearest_binary64 (m * 10 ^ t) 1
  else nearest_binary64 m (10 ^ (- t)).

Definition binary64_neg (x : binary64) : binary64 :=
  match x with
  | Finite num k => Finite (- num) k
  | Infinity b => Infinity (negb b)
  | NaN => NaN
  end.

(** [float(s)]: blanks around, a sign, then [inf], [infinity], [nan] in
    any case, or a decimal literal (ASCII digits, as for [int]). *)
Definition binary64_of_str (s : str) : result binary64 :=
  let t := int_strip s in
  if negb (underscores_ok false t) then Raise ValueError
  else
    let t := filter (fun c => c <> 95) t in
    let '(neg, body) :=
      match t with
      | 45 :: r => (true, r)
      | 43 :: r => (false, r)
      | _ => (false, t)
      end in
    let word := map lower body in
    let v :=
      if bool_decide (word = lit "inf") || bool_decide (word = lit "infinity")
      then Some (Infinity false)
      else if bool_decide (word = lit "nan") then Some NaN
      else
        match decimal body with
        | Some (m, e, n) => Some (binary64_of_decimal m e n)
        | None => None
        end in
    match v with
    | Some x => Ok (if neg then binary64_neg x else x)
    | None => Raise ValueError
    end.

(** [int(x)]: the truncation towards zero. *)
Definition binary64_to_int (x : binary64) : result Z :=
  match x with
  | Finite num k => Ok (Z.quot num (2 ^ Z.of_N k))
  | Infinity _ => Raise OverflowError
  | NaN => Raise ValueError
  end.

(** [x <= y]: false when either is a nan. *)
Definition binary64_le (x y : binary64) : Prop :=
  match x, y with
  | Finite num k, Finite num' k' =>
      num * 2 ^ Z.of_N k' <= num' * 2 ^ Z.of_N k
  | NaN, _ | _, NaN => False
  | Infinity true, _ | _, Infinity false => True
  | _, _ => False
  end.

#[global] Instance Binary64 : PyFloat := {|
  pyfloat := binary64;
  float_of_str := binary64_of_str;
  int_of_float := binary64_to_int;
  float_le := binary64_le;
  float_zero := Finite 0 0
|}.

(** ** The data model *)

Module DEFAULTS.
Definition MAX_THREADS : Z := 50.
Definition NUM_REQUESTS : Z := 4.
Definition REQUEST_TIMEOUT_LINUX : Z := 2.
Definition REQUEST_TIMEOUT_WINDOWS : Z := 2000.
End DEFAULTS.

(** [PingResult]: [packets] is [[sent, received, lost]], [rtt] is
    [[min, max, avg]]. *)
Record PingResult : Type := {
  packets : list Z;
  rtt : list Z;
  error : str
}.

Definition with_packets (v : list Z) (o : PingResult) : PingResult :=
  {| packets := v; rtt := rtt o; error := error o |}.
Definition with_rtt (v : list Z) (o : PingResult) : PingResult :=
  {| packets := packets o; rtt := v; error := error o |}.
Definition with_error (v : str) (o : PingResult) : PingResult :=
  {| packets := packets o; rtt := rtt o; error := v |}.

(** The counters a renderer reads: [packets[0]], [packets[1]], ... *)
Definition packetsSent (o : PingResult) : Z := nth 0 (packets o) 0.
Definition packetsReceived (o : PingResult) : Z := nth 1 (packets o) 0.
Definition packetsLost (o : PingResult) : Z := nth 2 (packets o) 0.
Definition rttMin (o : PingResult) : Z := nth 0 (rtt o) 0.
Definition rttMax (o : PingResult) : Z := nth 1 (rtt o) 0.
Definition rttAvg (o : PingResult) : Z := nth 2 (rtt o) 0.

(** *** The object store

    [PingResult] objects are mutable and shared by reference: the store is
    the list of the objects allocated so far, a reference an index in it. *)

Abbreviation ref := nat (only parsing).
Abbreviation heap := (list PingResult) (only parsing).

(** Code that allocates, mutates and may raise. *)
Definition M (A : Type) : Type := heap -> heap * result A.

#[global] Instance M_ret : MRet M := fun A a h => (h, Ok a).
#[global] Instance M_bind : MBind M := fun A B k m h =>
  match m h with
  | (h', Ok a) => k a h'
  | (h', Raise e) => (h', Raise e)
  end.

Definition lift {A} (r : result A) : M A := fun h => (h, r).
Definition alloc (o : PingResult) : M ref := fun h => (h ++ [o], Ok (length h)).
(** An attribute assignment [r.f = v]. *)
Definition modify (r : ref) (f : PingResult -> PingResult) : M unit :=
  fun h => (alter f r h, Ok tt).

Fixpoint for_each {A} (l : list A) (body : A -> M unit) : M unit :=
  match l with
  | [] => mret tt
  | a :: l' => _ ← body a; for_each l' body
  end.

(** [PingResult()]: the generated [__init__] stores the defaults, then
    [__post_init__] assigns the two lists. *)
Definition PingResult_new : M ref :=
  self ← alloc {| packets := []; rtt := []; error := [] |};
  _ ← modify self (with_rtt [0; 0; 0]);
  _ ← modify self (with_packets [0; 0; 0]);
  mret self.

(** The value of a fresh [PingResult()]. *)
Definition PingResult_zero : PingResult :=
  {| packets := [0; 0; 0]; rtt := [0; 0; 0]; error := [] |}.

(** *** Dictionaries

    A Python [dict] keeps its keys in insertion order, and an assignment to
    a key it has keeps the key's place. *)

Abbreviation pydict := (list (str * ref)) (only parsing).

Fixpoint dict_set (k : str) (v : ref) (d : pydict) : pydict :=
  match d with
  | [] => [(k, v)]
  | (k', v') :: d' =>
      if bool_decide (k' = k) then (k', v) :: d' else (k', v') :: dict_set k v d'
  end.

Fixpoint dict_get (k : str) (d : pydict) : option ref :=
  match d with
  | [] => None
  | (k', v') :: d' => if bool_decide (k' = k) then Some v' else dict_get k d'
  end.

Definition dict_keys (d : pydict) : list str := map fst d.

(** [dict.fromkeys(keys, v)]: every key gets the one value [v]. *)
Definition dict_fromkeys (keys : list str) (v : ref) : pydict :=
  fold_left (fun d k => dict_set k v d) keys [].

(** *** The platform *)

Record CompletedProcess : Type := {
  returncode : Z;
  stdout : bytes;
  stderr : bytes
}.

(** What the script reads from its environment: [platform.system()],
    [socket.gethostname()], and what running a shell command gives
    ([Popen] with [communicate]; [OSError] when the shell cannot start). *)
Record Env : Type := {
  is_windows : bool;
  gethostname : str;
  popen : str -> result CompletedProcess
}.

(** ** [Pinger] *)

Record Pinger : Type := {
  _source_host : str;
  _target_dict : pydict;
  _num_requests : Z;
  _request_timeout : Z;
  _start_time : option Z;
  _end_time : option Z
}.

Definition with_target_dict (d : pydict) (p : Pinger) : Pinger :=
  {| _source_host := _source_host p; _target_dict := d;
     _num_requests := _num_requests p; _request_timeout := _request_timeout p;
     _start_time := _start_time p; _end_time := _end_time p |}.
Definition with_num_requests (n : Z) (p : Pinger) : Pinger :=
  {| _source_host := _source_host p; _target_dict := _target_dict p;
     _num_requests := n; _request_timeout := _request_timeout p;
     _start_time := _start_time p; _end_time := _end_time p |}.
Definition with_request_timeout (n : Z) (p : Pinger) : Pinger :=
  {| _source_host := _source_host p; _target_dict := _target_dict p;
     _num_requests := _num_requests p; _request_timeout := n;
     _start_time := _start_time p; _end_time := _end_time p |}.
Definition with_start_time (t : option Z) (p : Pinger) : Pinger :=
  {| _source_host := _source_host p; _target_dict := _target_dict p;
     _num_requests := _num_requests p; _request_timeout := _request_timeout p;
     _start_time := t; _end_time := _end_time p |}.
Definition with_end_time (t : option Z) (p : Pinger) : Pinger :=
  {| _source_host := _source_host p; _target_dict := _target_dict p;
     _num_requests := _num_requests p; _request_timeout := _request_timeout p;
     _start_time := _start_time p; _end_time := t |}.

(** The argument of the constructor: [Union[str, List]]. *)
Inductive target_arg : Type :=
| TargetStr (s : str)
| TargetList (l : list str).

Section Pinger.
Context (env : Env).

Definition default_timeout : Z :=
  if is_windows env then DEFAULTS.REQUEST_TIMEOUT_WINDOWS
  else DEFAULTS.REQUEST_TIMEOUT_LINUX.

(** [Pinger.__init__] *)
Definition Pinger_init (target : target_arg) : M Pinger :=
  let target :=
    match target with
    | TargetStr s => [s]
    | TargetList l => l
    end in
  shared ← PingResult_new;
  mret {| _source_host := gethostname env;
          _target_dict := dict_fromkeys target shared;
          _num_requests := DEFAULTS.NUM_REQUESTS;
          _request_timeout := default_timeout;
          _start_time := None;
          _end_time := None |}.

(** The properties [results], [num_requests] and [request_timeout], and the
    two setters. *)
Definition results (self : Pinger) : pydict := _target_dict self.
Definition num_requests (self : Pinger) : Z := _num_requests self.
Definition request_timeout (self : Pinger) : Z := _request_timeout self.

Definition set_num_requests (self : Pinger) (count : Z) : Pinger :=
  if (count <? 1) || (count >? 100)
  then with_num_requests DEFAULTS.NUM_REQUESTS self
  else with_num_requests count self.

Definition set_request_timeout (self : Pinger) (value : Z) : Pinger :=
  if value <? 0 then with_request_timeout default_timeout self
  else with_request_timeout value self.

(** [Pinger._ping_cmd], for a count and a timeout that [str] prints: the
    f-string raises [ValueError] for an [int] of more than 4300 digits,
    which no caller of the script can set ([argparse] refuses it). *)
Definition _ping_cmd (self : Pinger) : str :=
  if is_windows env then
    lit "ping -n " ++ str_of_int (num_requests self)
      ++ lit " -w " ++ str_of_int (request_timeout self)
  else
    lit "ping -c " ++ str_of_int (num_requests self)
      ++ lit " -W " ++ str_of_int (request_timeout self).

End Pinger.

(** ** Probing one host: [Pinger._ping_it] *)

Section Probe.
Context {F : PyFloat} (env : Env).

(** [[int(rtt_line[2][:-3]), int(rtt_line[5][:-3]), int(rtt_line[8][:-2])]],
    the elements evaluated from left to right. *)
Definition windows_rtt (rtt_line : list str) : result (list Z) :=
  f2 ← index rtt_line 2; vmin ← py_int (drop_last 3 f2);
  f5 ← index rtt_line 5; vmax ← py_int (drop_last 3 f5);
  f8 ← index rtt_line 8; vavg ← py_int (drop_last 2 f8);
  mret [vmin; vmax; vavg].

(** [[int(packet_line[3][:-1]), int(packet_line[6][:-1]), int(packet_line[9])]] *)
Definition windows_packets (packet_line : list str) : result (list Z) :=
  f3 ← index packet_line 3; sent ← py_int (drop_last 1 f3);
  f6 ← index packet_line 6; received ← py_int (drop_last 1 f6);
  f9 ← index packet_line 9; lost ← py_int f9;
  mret [sent; received; lost].

Definition int_float (s : str) : result Z :=
  x ← float_of_str s; int_of_float x.

(** [rtt_values = token.split(' ')[3].split('/')], then
    [[int(float(rtt_values[0])), int(float(rtt_values[2])),
      int(float(rtt_values[1]))]]. *)
Definition posix_rtt (token : str) : result (list Z) :=
  f3 ← index (split 32 token) 3;
  let rtt_values := split 47 f3 in
  v0 ← index rtt_values 0; vmin ← int_float v0;
  v2 ← index rtt_values 2; vmax ← int_float v2;
  v1 ← index rtt_values 1; vavg ← int_float v1;
  mret [vmin; vmax; vavg].

(** [[int(packet_line[0]), int(packet_line[3]), int(packet_line[5][:-1])]] *)
Definition posix_packets (packet_line : list str) : result (list Z) :=
  f0 ← index packet_line 0; sent ← py_int f0;
  f3 ← index packet_line 3; received ← py_int f3;
  f5 ← index packet_line 5; third ← py_int (drop_last 1 f5);
  mret [sent; received; third].

(** The body of [for line in lines]. *)
Definition scan_line (ping_result : ref) (line : str) : M unit :=
  let token := lstrip line in
  if is_windows env then
    if startswith (lit "Minimum") token then
      v ← lift (windows_rtt (split 32 (strip token)));
      modify ping_result (with_rtt v)
    else if startswith (lit "Packets:") token then
      v ← lift (windows_packets (split 32 (strip token)));
      modify ping_result (with_packets v)
    else mret tt
  else
    if contains (lit "rtt min") token then
      v ← lift (posix_rtt token);
      modify ping_result (with_rtt v)
    else if contains (lit "packets transmitted,") token then
      v ← lift (posix_packets (split 32 token));
      modify ping_result (with_packets v)
    else mret tt.

(** The branch [if p_rc != 0]: [error] is the stripped [stderr] when
    [stderr] has any character, and [(rc)], with [ offline?] after it when
    [rc] is 1, when it has none.  (The source stores [None] in the field in
    between; the object is not visible to any other code then.) *)
Definition record_failure (ping_result : ref) (p_rc : Z) (p_stderr : str)
  : M unit :=
  if (0 <? length p_stderr)%nat then
    modify ping_result (with_error (strip p_stderr))
  else
    _ ← modify ping_result
          (with_error (lit "(" ++ str_of_int p_rc ++ lit ")"));
    if p_rc =? 1 then
      modify ping_result (fun o => with_error (error o ++ lit " offline?") o)
    else mret tt.

Definition _ping_it (self : Pinger) (target_host : str) : M ref :=
  let cmd := _ping_cmd env self ++ lit " " ++ target_host in
  ping_result ← PingResult_new;
  process ← lift (popen env cmd);
  let p_rc := returncode process in
  p_stdout ← lift (decode_utf8 (stdout process));
  p_stderr ← lift (decode_utf8 (stderr process));
  _ ← (if negb (p_rc =? 0) then record_failure ping_result p_rc p_stderr
       else for_each (split 10 p_stdout) (scan_line ping_result));
  mret ping_result.

(** [Pinger._capture_target], as one thread runs it from start to end. *)
Definition _capture_target (self : Pinger) (target : str) : M Pinger :=
  res ← _ping_it self target;
  mret (with_target_dict (dict_set target res (_target_dict self)) self).

(** ** The worker pool: [Pinger.ping_targets]

    [executor.map(self._capture_target, self._target_dict.keys())] submits
    one call per key, in the order of the keys; each of the pool's threads
    takes the next call of the queue when it is free.  The iterator [map]
    returns is dropped, so an exception of a call stays in its future.
    Leaving the [with] block waits for every call.

    The threads share the store and the dictionary.  A call allocates and
    fills an object of its own in [_ping_it], then assigns it to its key:
    these two steps of different threads interleave in any order. *)

Inductive worker : Type :=
| Idle
| Running (target : str)
| Holding (target : str) (obj : ref).

Record pool : Type := {
  pinger : Pinger;
  store : heap;
  queue : list str;
  workers : list worker;
  futures : list (str * exn)
}.

(** Thread [i] takes its next step, when it has one. *)
Definition step (i : nat) (m : pool) : option pool :=
  match workers m !! i with
  | Some Idle =>
      match queue m with
      | t :: q =>
          Some {| pinger := pinger m; store := store m; queue := q;
                  workers := <[i := Running t]> (workers m);
                  futures := futures m |}
      | [] => None
      end
  | Some (Running t) =>
      match _ping_it (pinger m) t (store m) with
      | (h, Ok r) =>
          Some {| pinger := pinger m; store := h; queue := queue m;
                  workers := <[i := Holding t r]> (workers m);
                  futures := futures m |}
      | (h, Raise e) =>
          Some {| pinger := pinger m; store := h; queue := queue m;
                  workers := <[i := Idle]> (workers m);
                  futures := futures m ++ [(t, e)] |}
      end
  | Some (Holding t r) =>
      Some {| pinger :=
                with_target_dict (dict_set t r (_target_dict (pinger m)))
                  (pinger m);
              store := store m; queue := queue m;
              workers := <[i := Idle]> (workers m);
              futures := futures m |}
  | None => None
  end.

Definition pool_step (m m' : pool) : Prop := exists i, step i m = Some m'.

Inductive steps : pool -> pool -> Prop :=
| steps_refl m : steps m m
| steps_step m m' m'' : pool_step m m' -> steps m' m'' -> steps m m''.

Definition is_idle (w : worker) : bool :=
  match w with
  | Idle => true
  | _ => false
  end.

Definition terminal (m : pool) : Prop :=
  queue m = [] /\ forallb is_idle (workers m) = true.

(** The schedule [sched] names the thread that runs at each step. *)
Fixpoint exec (sched : list nat) (m : pool) : option pool :=
  match sched with
  | [] => Some m
  | i :: sched' =>
      match step i m with
      | Some m' => exec sched' m'
      | None => None
      end
  end.

Definition num_workers (self : Pinger) : Z :=
  Z.min DEFAULTS.MAX_THREADS (Z.of_nat (length (_target_dict self))).

(** The executor [ThreadPoolExecutor(max_workers=n)] after [map] submitted
    the calls. *)
Definition init_pool (max_workers : nat) (self : Pinger) (h : heap) : pool :=
  {| pinger := self; store := h;
     queue := dict_keys (_target_dict self);
     workers := replicate max_workers Idle;
     futures := [] |}.

(** [ping_targets] between the clock readings [t0] and [t1]:
    [ThreadPoolExecutor(max_workers=0)] raises [ValueError], after
    [_start_time] was set; otherwise the pool runs until every call is
    done. *)
Inductive ping_targets (self : Pinger) (h : heap) (t0 t1 : Z)
  : result unit -> Pinger -> heap -> Prop :=
| ping_targets_no_worker :
    num_workers self <= 0 ->
    ping_targets self h t0 t1 (Raise ValueError)
      (with_start_time (Some t0) self) h
| ping_targets_done m :
    0 < num_workers self ->
    steps (init_pool (Z.to_nat (num_workers self))
             (with_start_time (Some t0) self) h) m ->
    terminal m ->
    ping_targets self h t0 t1 (Ok tt)
      (with_end_time (Some t1) (pinger m)) (store m).

End Probe.

(** ** What the renderers read

    [output_csv] and [output_text] print one row per pair of
    [pinger.results.items()], in the order of the dictionary. *)

Definition items (self : Pinger) (h : heap) : list (str * PingResult) :=
  omap (fun '(k, r) => pair k <$> h !! r) (results self).

Definition ljust (n : nat) (s : str) : str := s ++ replicate (n - length s) 32.
Definition rjust (n : nat) (s : str) : str := replicate (n - length s) 32 ++ s.

Definition csv_row (timestamp source : str) (e : str * PingResult) : str :=
  let '(target_host, r_entry) := e in
  timestamp ++ lit "," ++ source ++ lit "," ++ target_host ++ lit ", "
  ++ str_of_int (packetsSent r_entry) ++ lit ","
  ++ str_of_int (packetsReceived r_entry) ++ lit ","
  ++ str_of_int (packetsLost r_entry) ++ lit ","
  ++ str_of_int (rttMin r_entry) ++ lit ","
  ++ str_of_int (rttMax r_entry) ++ lit ","
  ++ str_of_int (rttAvg r_entry) ++ lit ","
  ++ error r_entry.

(** The lines [output_csv] prints. *)
Definition output_csv (timestamp : str) (self : Pinger) (h : heap) : list str :=
  lit "timestamp,source,target,pkt_sent,pkt_recv,pkt_lost,rtt_min,rtt_max,rtt_avg,error"
  :: map (csv_row timestamp (_source_host self)) (items self h).

Definition text_row (source : str) (e : str * PingResult) : str :=
  let '(target_host, r_entry) := e in
  ljust 15 source ++ lit " " ++ ljust 20 target_host ++ lit "  "
  ++ rjust 4 (str_of_int (packetsSent r_entry)) ++ lit " "
  ++ rjust 4 (str_of_int (packetsReceived r_entry)) ++ lit " "
  ++ rjust 4 (str_of_int (packetsLost r_entry)) ++ lit "  "
  ++ rjust 4 (str_of_int (rttMin r_entry)) ++ lit " "
  ++ rjust 4 (str_of_int (rttMax r_entry)) ++ lit " "
  ++ rjust 4 (str_of_int (rttAvg r_entry)) ++ lit "  "
  ++ error r_entry.

(** The lines [output_text] prints. *)
Definition output_text (self : Pinger) (h : heap) : list str :=
  lit "                                          Packets           RTT"
  :: lit "Source          Target                Sent Recv Lost   Min  Max  Avg  Error Msg"
  :: lit "--------------- --------------------  ---- ---- ----  ---- ---- ----  --------------------------------------"
  :: map (text_row (_source_host self)) (items self h).

(** ** The value a probe computes

    [_ping_it] fills one object of its own; [probe] is the value that object
    ends with, as a function of what the command gave. *)

Section ProbeValue.
Context {F : PyFloat} (env : Env).

Definition scan_value (o : PingResult) (line : str) : result PingResult :=
  let token := lstrip line in
  if is_windows env then
    if startswith (lit "Minimum") token then
      v ← windows_rtt (split 32 (strip token)); mret (with_rtt v o)
    else if startswith (lit "Packets:") token then
      v ← windows_packets (split 32 (strip token)); mret (with_packets v o)
    else mret o
  else
    if contains (lit "rtt min") token then
      v ← posix_rtt token; mret (with_rtt v o)
    else if contains (lit "packets transmitted,") token then
      v ← posix_packets (split 32 token); mret (with_packets v o)
    else mret o.

Fixpoint scan_values (lines : list str) (o : PingResult) : result PingResult :=
  match lines with
  | [] => Ok o
  | line :: lines' => o' ← scan_value o line; scan_values lines' o'
  end.

Definition failure_value (p_rc : Z) (p_stderr : str) : PingResult :=
  if (0 <? length p_stderr)%nat then
    with_error (strip p_stderr) PingResult_zero
  else
    with_error
      (lit "(" ++ str_of_int p_rc ++ lit ")"
       ++ (if p_rc =? 1 then lit " offline?" else []))
      PingResult_zero.

Definition probe (self : Pinger) (target_host : str) : result PingResult :=
  process ← popen env (_ping_cmd env self ++ lit " " ++ target_host);
  p_stdout ← decode_utf8 (stdout process);
  p_stderr ← decode_utf8 (stderr process);
  if negb (returncode process =? 0)
  then Ok (failure_value (returncode process) p_stderr)
  else scan_values (split 10 p_stdout) PingResult_zero.

(** *** What a summary line reports

    The round-trip statistics of a summary line, as [int] and [float] read
    them from the fields where [ping] prints the minimum, the average and the
    maximum: [Minimum = 1ms, Maximum = 3ms, Average = 2ms] on Windows,
    [rtt min/avg/max/mdev = 0.045/0.058/0.070/0.009 ms] elsewhere.
    [line_reports nonneg line]: the line reports [min <= avg <= max], and
    [0 <= min] too when [nonneg] is set. *)

Definition line_reports (nonneg : bool) (line : str) : Prop :=
  let token := lstrip line in
  if is_windows env then
    if startswith (lit "Minimum") token then
      let rtt_line := split 32 (strip token) in
      match index rtt_line 2, index rtt_line 5, index rtt_line 8 with
      | Ok f2, Ok f5, Ok f8 =>
          match py_int (drop_last 3 f2), py_int (drop_last 3 f5),
                py_int (drop_last 2 f8) with
          | Ok vmin, Ok vmax, Ok vavg =>
              (if nonneg then 0 <= vmin else True)
              /\ vmin <= vavg /\ vavg <= vmax
          | _, _, _ => True
          end
      | _, _, _ => True
      end
    else True
  else
    if contains (lit "rtt min") token then
      match index (split 32 token) 3 with
      | Ok f3 =>
          let rtt_values := split 47 f3 in
          match index rtt_values 0, index rtt_values 1, index rtt_values 2 with
          | Ok v0, Ok v1, Ok v2 =>
              match float_of_str v0, float_of_str v1, float_of_str v2 with
              | Ok xmin, Ok xavg, Ok xmax =>
                  (if nonneg then float_le float_zero xmin else True)
                  /\ float_le xmin xavg /\ float_le xavg xmax
              | _, _, _ => True
              end
          | _, _, _ => True
          end
      | Raise _ => True
      end
    else True.

(** Every summary line of the output reports [min <= avg <= max]. *)
Definition reports_sorted (p_stdout : str) : Prop :=
  Forall (line_reports false) (split 10 p_stdout).

(** Every summary line of the output reports [0 <= min <= avg <= max]. *)
Definition reports_ordered (p_stdout : str) : Prop :=
  Forall (line_reports true) (split 10 p_stdout).

(** The statistics of a result are ordered. *)
Definition rtt_ordered (o : PingResult) : Prop :=
  0 <= rttMin o /\ rttMin o <= rttAvg o /\ rttAvg o <= rttMax o.

End ProbeValue.

(** ** The summary lines of [ping]

    [' '.join(fields)], and the lines that carry the packet counters: on
    Windows [Packets: Sent = 4, Received = 4, Lost = 0 (0% loss),], elsewhere
    [4 packets transmitted, 4 received, ...]. *)

Fixpoint join (sep : Z) (fields : list str) : str :=
  match fields with
  | [] => []
  | [f] => f
  | f :: fs => f ++ sep :: join sep fs
  end.

Definition windows_packets_line (sent received lost percent : Z) : str :=
  lit "Packets: Sent = " ++ str_of_int sent
  ++ lit ", Received = " ++ str_of_int received
  ++ lit ", Lost = " ++ str_of_int lost
  ++ lit " (" ++ str_of_int percent ++ lit "% loss),".

Definition posix_packets_line (sent received : Z) (rest : str) : str :=
  str_of_int sent ++ lit " packets transmitted, "
  ++ str_of_int received ++ lit " received, " ++ rest.

(** A string of blanks. *)
Definition blank (s : str) : Prop := forallb isspace s = true.

(** [line] reads [body] when it is [body] between blanks. *)
Definition reads (line body : str) : Prop :=
  exists indent trail, blank indent /\ blank trail /\ line = indent ++ body ++ trail.

Section SummaryLines.
Context (env : Env).

(** The lines in which [_ping_it] assigns [packets]. *)
Definition is_packets_line (line : str) : bool :=
  let token := lstrip line in
  if is_windows env then
    negb (startswith (lit "Minimum") token) && startswith (lit "Packets:") token
  else
    negb (contains (lit "rtt min") token)
    && contains (lit "packets transmitted,") token.

(** [line] is the last such line of the output [p_stdout]. *)
Definition last_packets_line (p_stdout line : str) : Prop :=
  exists before after,
    split 10 p_stdout = before ++ line :: after
    /\ is_packets_line line = true
    /\ Forall (fun l => is_packets_line l = false) after.

End SummaryLines.

(** ** Sample platforms and outputs *)

(** The bytes of the given lines, each ended by [end_of_line]. *)
Definition text (end_of_line : bytes) (lines : list string) : bytes :=
  concat (map (fun s => blit s ++ end_of_line) lines).

Definition lf : bytes := [Byte.x0a].
Definition crlf : bytes := [Byte.x0d; Byte.x0a].

Definition completed (rc : Z) (out err : bytes) : result CompletedProcess :=
  Ok {| returncode := rc; stdout := out; stderr := err |}.

(** A platform on which every command gives [r]. *)
Definition posix (r : result CompletedProcess) : Env :=
  {| is_windows := false; gethostname := lit "probe01"; popen := fun _ => r |}.
Definition windows (r : result CompletedProcess) : Env :=
  {| is_windows := true; gethostname := lit "PROBE01"; popen := fun _ => r |}.

Local Open Scope string_scope.

(** iputils [ping -c 4 -W 2] of a host that does not answer: exit code 1. *)
Definition linux_no_reply : result CompletedProcess :=
  completed 1
    (text lf ["PING 10.0.0.9 (10.0.0.9) 56(84) bytes of data.";
              "";
              "--- 10.0.0.9 ping statistics ---";
              "4 packets transmitted, 0 received, 100% packet loss, time 3052ms";
              ""])
    [].

(** Windows [ping -n 4 -w 2000] of a host that answers: exit code 0. *)
Definition windows_reply : result CompletedProcess :=
  completed 0
    (text crlf ["";
                "Pinging 192.168.1.1 with 32 bytes of data:";
                "Reply from 192.168.1.1: bytes=32 time=1ms TTL=64";
                "Reply from 192.168.1.1: bytes=32 time=3ms TTL=64";
                "Reply from 192.168.1.1: bytes=32 time=2ms TTL=64";
                "Reply from 192.168.1.1: bytes=32 time=2ms TTL=64";
                "";
                "Ping statistics for 192.168.1.1:";
                "    Packets: Sent = 4, Received = 4, Lost = 0 (0% loss),";
                "Approximate round trip times in milli-seconds:";
                "    Minimum = 1ms, Maximum = 3ms, Average = 2ms"])
    [].

(** iputils [ping -c 4 -W 2] of a host that answers two requests of four:
    exit code 0. *)
Definition linux_half : result CompletedProcess :=
  completed 0
    (text lf ["PING 192.168.1.7 (192.168.1.7) 56(84) bytes of data.";
              "64 bytes from 192.168.1.7: icmp_seq=1 ttl=64 time=12.4 ms";
              "64 bytes from 192.168.1.7: icmp_seq=3 ttl=64 time=31.8 ms";
              "";
              "--- 192.168.1.7 ping statistics ---";
              "4 packets transmitted, 2 received, 50% packet loss, time 3052ms";
              "rtt min/avg/max/mdev = 12.412/22.105/31.798/9.693 ms"])
    [].

(** A summary whose minimum is below zero (a clock that steps back during
    a request gives such a time). *)
Definition linux_clock_step : result CompletedProcess :=
  completed 0
    (text lf ["PING 192.168.1.7 (192.168.1.7) 56(84) bytes of data.";
              "64 bytes from 192.168.1.7: icmp_seq=1 ttl=64 time=-1.21 ms";
              "64 bytes from 192.168.1.7: icmp_seq=2 ttl=64 time=0.538 ms";
              "";
              "--- 192.168.1.7 ping statistics ---";
              "2 packets transmitted, 2 received, 0% packet loss, time 1001ms";
              "rtt min/avg/max/mdev = -1.210/-0.336/0.538/0.874 ms"])
    [].

(** A command that exits with 0 and prints nothing. *)
Definition silent : result CompletedProcess := completed 0 [] [].

(** A command that exits with 2 and writes an empty line to [stderr]. *)
Definition blank_stderr : result CompletedProcess := completed 2 [] lf.

(** BSD (macOS) [ping -c 4 -W 2] of a host that answers: exit code 0. *)
Definition bsd_reply : result CompletedProcess :=
  completed 0
    (text lf ["PING 192.168.1.1 (192.168.1.1): 56 data bytes";
              "64 bytes from 192.168.1.1: icmp_seq=0 ttl=64 time=1.234 ms";
              "64 bytes from 192.168.1.1: icmp_seq=1 ttl=64 time=2.345 ms";
              "64 bytes from 192.168.1.1: icmp_seq=2 ttl=64 time=3.456 ms";
              "64 bytes from 192.168.1.1: icmp_seq=3 ttl=64 time=2.345 ms";
              "";
              "--- 192.168.1.1 ping statistics ---";
              "4 packets transmitted, 4 packets received, 0.0% packet loss";
              "round-trip min/avg/max/stddev = 1.234/2.345/3.456/0.786 ms"])
    [].

Local Close Scope string_scope.

(** The fresh [Pinger] for the targets [l], in an empty store. *)
Definition fresh_pinger (env : Env) (l : list string) : heap * result Pinger :=
  Pinger_init env (TargetList (map lit l)) [].

(** The [Pinger] that [Pinger(l)] builds there: every key refers to the
    object 0 of the store. *)
Definition started (env : Env) (l : list string) : Pinger :=
  {| _source_host := gethostname env;
     _target_dict := dict_fromkeys (map lit l) 0%nat;
     _num_requests := DEFAULTS.NUM_REQUESTS;
     _request_timeout := default_timeout env;
     _start_time := None;
     _end_time := None |}.

(** The decoded [stdout] of a sample, and its lines. *)
Definition stdout_text (r : result CompletedProcess) : str :=
  match r with
  | Ok process =>
      match decode_utf8 (stdout process) with
      | Ok s => s
      | Raise _ => []
      end
  | Raise _ => []
  end.

Definition stdout_line (r : result CompletedProcess) (k : nat) : str :=
  nth k (split 10 (stdout_text r)) [].

(** ** Notions the statements use *)

(** The value of a string of digits, read after the value [acc]. *)
Definition digits_value (s : str) (acc : Z) : Z :=
  fold_left (fun a c => 10 * a + (c - 48)) s acc.

(** [sep] does not occur in [f]. *)
Definition no_sep (sep : Z) (f : str) : bool :=
  forallb (fun c => negb (c =? sep)) f.

(** A counter as [ping] prints it: a natural number of at most 4300
    digits. *)
Definition counter (n : Z) : Prop := 0 <= n < 10 ^ 4300.

(** [dict.fromkeys] continued from the dictionary [acc]. *)
Definition fromkeys_from (acc : pydict) (keys : list str) (v : ref) : pydict :=
  fold_left (fun d k => dict_set k v d) keys acc.

(** *** The state of a pool *)

Definition worker_target (w : worker) : option str :=
  match w with
  | Idle => None
  | Running t => Some t
  | Holding t _ => Some t
  end.

(** The targets whose call has not finished: queued or with a thread. *)
Definition busy (m : pool) : list str :=
  queue m ++ omap worker_target (workers m).

(** The object a thread holds, and the objects that were assigned to keys:
    together, the objects the calls have made and the pool still reaches. *)
Definition worker_ref (w : worker) : option ref :=
  match w with
  | Holding _ r => Some r
  | _ => None
  end.

Definition written (shared : ref) (d : pydict) : list ref :=
  filter (fun r => r <> shared) (map snd d).

Definition owned (shared : ref) (m : pool) : list ref :=
  omap worker_ref (workers m) ++ written shared (_target_dict (pinger m)).

(** The steps a thread still has to take for the call it runs. *)
Definition weight (w : worker) : nat :=
  match w with
  | Idle => 0
  | Running _ => 2
  | Holding _ _ => 1
  end.

(** A bound on the steps the pool can still take. *)
Definition remaining (m : pool) : nat :=
  (3 * length (queue m) + sum_list (weight <$> workers m))%nat.

Section PoolNotions.
Context {F : PyFloat} (env : Env).

(** What the entry of [k] holds in the end: the value of its probe, or the
    initial result when the probe raised. *)
Definition expected (self : Pinger) (k : str) : PingResult :=
  match probe env self k with
  | Ok o => o
  | Raise _ => PingResult_zero
  end.

(** The invariant of a pool started for the [Pinger] [p0], whose entries
    all refer to the object [shared]. *)
Record pool_inv (p0 : Pinger) (shared : ref) (m : pool) : Prop := {
  inv_config : pinger m = with_target_dict (_target_dict (pinger m)) p0;
  inv_keys : dict_keys (_target_dict (pinger m)) = dict_keys (_target_dict p0);
  inv_shared : store m !! shared = Some PingResult_zero;
  inv_busy_nodup : NoDup (busy m);
  inv_busy_keys : forall k, k ∈ busy m -> k ∈ dict_keys (_target_dict p0);
  inv_pending : forall k,
    k ∈ busy m -> dict_get k (_target_dict (pinger m)) = Some shared;
  inv_done : forall k,
    k ∈ dict_keys (_target_dict p0) -> k ∉ busy m ->
    exists r, dict_get k (_target_dict (pinger m)) = Some r
              /\ store m !! r = Some (expected p0 k)
              /\ (r = shared <-> exists e, probe env p0 k = Raise e);
  inv_holding : forall t r,
    Holding t r ∈ workers m ->
    exists o, probe env p0 t = Ok o /\ store m !! r = Some o /\ r <> shared;
  inv_futures : forall k e,
    (k, e) ∈ futures m -> probe env p0 k = Raise e /\ k ∉ busy m;
  inv_futures_keys : forall k e,
    (k, e) ∈ futures m -> k ∈ dict_keys (_target_dict p0);
  inv_raised : forall k e,
    k ∈ dict_keys (_target_dict p0) -> k ∉ busy m ->
    probe env p0 k = Raise e -> (k, e) ∈ futures m;
  inv_futures_nodup : NoDup (futures m).*1;
  inv_owned_nodup : NoDup (owned shared m);
  inv_owned_bound : forall r, r ∈ owned shared m -> (r < length (store m))%nat;
  inv_owned_fresh : forall r, r ∈ owned shared m -> (shared < r)%nat
}.

End PoolNotions.


(** A network in which [10.0.0.9] does not answer and every other host
    answers two requests of four. *)
Definition lan : Env :=
  {| is_windows := false;
     gethostname := lit "probe01";
     popen := fun cmd =>
       if contains (lit "10.0.0.9") cmd then linux_no_reply else linux_half |}.

(** Three hosts of that network, the second one silent. *)
Definition lan_targets : list string :=
  ["192.168.1.7"; "10.0.0.9"; "192.168.1.8"]%string.

Definition half_answered : PingResult :=
  {| packets := [4; 2; 50]; rtt := [12; 31; 22]; error := [] |}.

Definition no_answer : PingResult :=
  {| packets := [0; 0; 0]; rtt := [0; 0; 0]; error := lit "(1) offline?" |}.

(** A network in which [192.168.1.1] answers with the summary of BSD
    [ping], which the probe cannot read, and every other host answers two
    requests of four. *)
Definition mixed : Env :=
  {| is_windows := false;
     gethostname := lit "probe01";
     popen := fun cmd =>
       if contains (lit "192.168.1.1") cmd then bsd_reply else linux_half |}.

Definition mixed_targets : list string :=
  ["192.168.1.1"; "192.168.1.7"]%string.

(** iputils [ping] whose output has a byte that is not UTF-8: exit code 1. *)
Definition linux_garbled : result CompletedProcess :=
  completed 1 (blit "PING h" ++ [Byte.xff] ++ lf) [].

(** Output of a command that is not UTF-8, on [stdout] or on [stderr]:
    [bytes.decode('utf-8')] raises. *)
Definition undecodable (process : CompletedProcess) : Prop :=
  decode_utf8 (stdout process) = Raise UnicodeDecodeError
  \/ decode_utf8 (stderr process) = Raise UnicodeDecodeError.

(** ** Tactics *)

(** Comparisons whose outcome the context fixes. *)
Ltac zfix :=
  repeat match goal with
  | |- context [Z.leb ?a ?b] =>
      first [ replace (Z.leb a b) with true by (symmetry; apply Z.leb_le; lia)
            | replace (Z.leb a b) with false by (symmetry; apply Z.leb_gt; lia) ]
  | |- context [Z.eqb ?a ?b] =>
      first [ replace (Z.eqb a b) with true by (symmetry; apply Z.eqb_eq; lia)
            | replace (Z.eqb a b) with false by (symmetry; apply Z.eqb_neq; lia) ]
  end.

(** The lines of a sample report what the predicate asks. *)
Ltac sample_reports :=
  match goal with
  | |- Forall ?P (split 10 ?s) =>
      let l := eval vm_compute in (split 10 s) in
      change (Forall P l)
  end;
  repeat match goal with
  | |- Forall _ (_ :: _) =>
      constructor; [vm_compute; repeat split; congruence|]
  end;
  constructor.

(** ** The rest of the script

    What the script does around the probing engine: the elapsed time it
    reports, the JSON rendering, the host file of [--input] and [main]. *)

(** *** A sequence of assignments to the two properties *)

Inductive assignment : Type :=
| SetNumRequests (count : Z)
| SetRequestTimeout (value : Z).

Definition assign (env : Env) (self : Pinger) (a : assignment) : Pinger :=
  match a with
  | SetNumRequests count => set_num_requests self count
  | SetRequestTimeout value => set_request_timeout env self value
  end.

(** *** [Pinger.elapsed_seconds]

    The two clock readings are naive [datetime] values, kept as their count
    of microseconds; their difference is a [timedelta], whose
    [total_seconds()] is the quotient of its microseconds by [10**6] as a
    float (the division of two [int] is correctly rounded). *)
Definition total_seconds (d : Z) : binary64 :=
  if d =? 0 then Finite 0 0
  else if d <? 0 then binary64_neg (nearest_binary64 (- d) (10 ^ 6))
  else nearest_binary64 d (10 ^ 6).

(** [f'{x:.1f}']: the decimal with one fractional digit nearest to the
    float, ties to even, with the sign of the float. *)
Definition format_1f (x : binary64) : str :=
  match x with
  | Finite num k =>
      let n := round_half_even (Z.abs num * 10) (2 ^ Z.of_N k) in
      (if num <? 0 then lit "-" else [])
      ++ str_of_nonneg (n / 10) ++ lit "." ++ str_of_nonneg (n mod 10)
  | Infinity neg => if neg then lit "-inf" else lit "inf"
  | NaN => lit "nan"
  end.

Definition elapsed_seconds (self : Pinger) : str :=
  match _start_time self, _end_time self with
  | Some t0, Some t1 => format_1f (total_seconds (t1 - t0)) ++ lit " seconds"
  | _, _ => []
  end.

(** *** [json.dumps]

    The values [Pinger.to_dict] builds: [int], [str], and [dict] with [str]
    keys, in the order of insertion. *)
#[warnings="-register-all"]
Inductive json : Type :=
| JInt (n : Z)
| JStr (s : str)
| JDict (d : list (str * json)).

(** [d[k] = v] on a dictionary kept in the order of insertion. *)
Fixpoint json_set (k : str) (v : json) (d : list (str * json))
  : list (str * json) :=
  match d with
  | [] => [(k, v)]
  | (k', v') :: d' =>
      if bool_decide (k' = k) then (k, v) :: d' else (k', v') :: json_set k v d'
  end.

Definition hex_digit (n : Z) : Z := if n <? 10 then 48 + n else 87 + n.

(** ['\\u{0:04x}'.format(n)] *)
Definition u_escape (n : Z) : str :=
  [92; 117; hex_digit (n / 4096 mod 16); hex_digit (n / 256 mod 16);
   hex_digit (n / 16 mod 16); hex_digit (n mod 16)].

(** The replacement of one character by [encode_basestring_ascii]: quote,
    backslash and the characters outside [' '..'~'] are escaped, a character
    beyond U+FFFF as a pair of surrogates. *)
Definition escape_char (c : Z) : str :=
  if c =? 34 then [92; 34]
  else if c =? 92 then [92; 92]
  else if c =? 10 then [92; 110]
  else if c =? 13 then [92; 114]
  else if c =? 9 then [92; 116]
  else if c =? 8 then [92; 98]
  else if c =? 12 then [92; 102]
  else if (32 <=? c) && (c <=? 126) then [c]
  else if c <? 65536 then u_escape c
  else
    let n := c - 65536 in
    u_escape (Z.lor 55296 (Z.land (Z.shiftr n 10) 1023))
    ++ u_escape (Z.lor 56320 (Z.land n 1023)).

Definition encode_basestring_ascii (s : str) : str :=
  [34] ++ flat_map escape_char s ++ [34].

(** [sep.join(parts)] for a separator of any length. *)
Fixpoint join_with (sep : str) (parts : list str) : str :=
  match parts with
  | [] => []
  | [p] => p
  | p :: ps => p ++ sep ++ join_with sep ps
  end.

(** [json.dumps(v)]: separators [', '] and [': '], all on one line. *)
Fixpoint dumps (v : json) : str :=
  match v with
  | JInt n => str_of_int n
  | JStr s => encode_basestring_ascii s
  | JDict d =>
      lit "{"
      ++ join_with (lit ", ")
           (map (fun kv => encode_basestring_ascii (fst kv) ++ lit ": "
                           ++ dumps (snd kv)) d)
      ++ lit "}"
  end.

(** A line break and the indentation of [level] levels of two blanks. *)
Definition newline_indent (level : nat) : str := 10 :: replicate (2 * level) 32.

(** [json.dumps(v, indent=2)], for a value at the depth [level]: one item
    per line, an empty dictionary as [{}]. *)
Fixpoint dumps_indent (level : nat) (v : json) : str :=
  match v with
  | JInt n => str_of_int n
  | JStr s => encode_basestring_ascii s
  | JDict [] => lit "{}"
  | JDict d =>
      lit "{" ++ newline_indent (S level)
      ++ join_with (lit "," ++ newline_indent (S level))
           (map (fun kv => encode_basestring_ascii (fst kv) ++ lit ": "
                           ++ dumps_indent (S level) (snd kv)) d)
      ++ newline_indent level ++ lit "}"
  end.

(** [PingResult.to_dict] *)
Definition PingResult_to_dict (self : PingResult) : result json :=
  sent ← index (packets self) 0;
  received ← index (packets self) 1;
  lost ← index (packets self) 2;
  let packet_dict :=
    JDict [(lit "sent", JInt sent); (lit "received", JInt received);
           (lit "lost", JInt lost)] in
  vmin ← index (rtt self) 0;
  vmax ← index (rtt self) 1;
  vavg ← index (rtt self) 2;
  let rtt_dict :=
    JDict [(lit "min", JInt vmin); (lit "max", JInt vmax);
           (lit "avg", JInt vavg)] in
  mret (JDict [(lit "packets", packet_dict); (lit "rtt_ms", rtt_dict);
               (lit "error", JStr (error self))]).

(** [Pinger.to_dict]: the loop over [self._target_dict.items()]. *)
Fixpoint to_dict_from (entries : list (str * PingResult))
    (result_dict : list (str * json)) : result (list (str * json)) :=
  match entries with
  | [] => Ok result_dict
  | (host, entry) :: entries' =>
      v ← PingResult_to_dict entry;
      to_dict_from entries' (json_set host v result_dict)
  end.

Definition Pinger_to_dict (self : Pinger) (h : heap) : result json :=
  JDict <$> to_dict_from (items self h) [].

(** [output_json]: the one string it prints. *)
Definition output_json (self : Pinger) (h : heap) (json_type : str)
  : result str :=
  v ← Pinger_to_dict self h;
  if bool_decide (json_type = lit "json") then Ok (dumps v)
  else Ok (dumps_indent 0 v).

(** *** The host file of [--input]

    [Path.read_text(encoding='UTF-8')] decodes the bytes and, as every file
    opened in text mode does, turns [\r\n] and [\r] into [\n]. *)
Fixpoint universal_newlines (s : str) : str :=
  match s with
  | [] => []
  | c :: s' =>
      if c =? 13 then
        10 :: match s' with
              | d :: s'' =>
                  if d =? 10 then universal_newlines s''
                  else universal_newlines s'
              | [] => []
              end
      else c :: universal_newlines s'
  end.

Definition read_text (content : bytes) : result str :=
  universal_newlines <$> decode_utf8 content.

(** The line boundaries of [str.splitlines]. *)
Definition is_linebreak (c : Z) : bool :=
  ((10 <=? c) && (c <=? 13)) || ((28 <=? c) && (c <=? 30))
  || (c =? 133) || (c =? 8232) || (c =? 8233).

(** [str.splitlines()], with the line under way in [cur], last character
    first: the boundaries are dropped, [\r\n] is one boundary, and no empty
    line is added after the last boundary. *)
Fixpoint splitlines_from (cur : str) (s : str) : list str :=
  match s with
  | [] =>
      match cur with
      | [] => []
      | _ => [rev cur]
      end
  | c :: s' =>
      if is_linebreak c then
        rev cur
        :: match s' with
           | d :: s'' =>
               if (c =? 13) && (d =? 10) then splitlines_from [] s''
               else splitlines_from [] s'
           | [] => []
           end
      else splitlines_from (c :: cur) s'
  end.

Definition splitlines (s : str) : list str := splitlines_from [] s.

(** [[x.strip() for x in hosts
      if len(x.strip()) > 0 and not x.strip().startswith('#')]] *)
Definition host_lines (hosts : list str) : list str :=
  map strip
    (List.filter (fun x => (0 <? length (strip x))%nat
                      && negb (startswith (lit "#") (strip x))) hosts).

Definition load_hosts (content : bytes) : result (list str) :=
  text ← read_text content;
  mret (host_lines (splitlines text)).

(** *** [stdout]

    [sys.stdout] is a text stream with an encoding: [write(s)] encodes the
    whole of [s] before it keeps any of it, and raises [UnicodeEncodeError]
    when a character of [s] has no encoding (a letter outside the code page
    of a console, a lone surrogate in UTF-8).  [print(s)] writes [s], then
    the line end with a second [write].  The state is the text written so
    far, as the script writes it (before the stream turns each line end
    into the one of the platform).  The stream is open and its device takes
    what is written: a closed pipe or a full disk is not in the model. *)
Section Stdout.
Context (encodable : Z -> bool).

Definition IO (A : Type) : Type := str -> str * result A.

Definition write (s : str) : IO unit := fun out =>
  if forallb encodable s then (out ++ s, Ok tt)
  else (out, Raise UnicodeEncodeError).

Definition print (s : str) : IO unit := fun out =>
  match write s out with
  | (out', Ok _) => write [10] out'
  | (out', Raise e) => (out', Raise e)
  end.

(** One [print] after the other, up to the first one that raises. *)
Fixpoint print_lines (lines : list str) : IO unit := fun out =>
  match lines with
  | [] => (out, Ok tt)
  | line :: lines' =>
      match print line out with
      | (out', Ok _) => print_lines lines' out'
      | (out', Raise e) => (out', Raise e)
      end
  end.

(** [abort_msg(parser, msg)]: [parser.print_usage()] writes the usage text
    to [stdout], then [print(msg)]. *)
Definition abort_msg (usage msg : str) : IO unit := fun out =>
  match write usage out with
  | (out', Ok _) => print msg out'
  | (out', Raise e) => (out', Raise e)
  end.

End Stdout.

(** *** [main]

    The arguments as [parse_args] returns them, the characters [stdout] can
    encode, what the script reads of the file system ([Path.exists] and the
    bytes of a file), the text [print_usage] writes, the timestamp
    [output_csv] formats and the two clock readings of [ping_targets].
    What [main] leaves on [stdout] is the text written; the log records and
    the progress dots go to [stderr]. *)
Module args.
Record t : Type := {
  input : option str;
  output : str;
  count : Z;
  wait : Z;
  verbose : bool;
  host : list str
}.
End args.

Section Main.
Context {F : PyFloat} (env : Env) (encodable : Z -> bool).
Context (exists_file : str -> bool) (read_file : str -> result bytes).
Context (usage timestamp : str) (t0 t1 : Z).

(** [host_file.read_text(encoding='UTF-8').splitlines()] and the list
    comprehension over it. *)
Definition hosts_of_file (f : str) : result (list str) :=
  content ← read_file f; load_hosts content.

(** The choice of the renderer, and the [print] calls of the renderer:
    [output_json] prints the one string [json.dumps] returns, [output_csv]
    and [output_text] print their lines one by one. *)
Definition render (format : str) (pinger : Pinger) (h : heap) : IO unit :=
  fun out =>
    if contains (lit "json") format then
      match output_json pinger h format with
      | Ok s => print encodable s out
      | Raise e => (out, Raise e)
      end
    else if bool_decide (format = lit "csv") then
      print_lines encodable (output_csv timestamp pinger h) out
    else print_lines encodable (output_text pinger h) out.

(** From [pinger = Pinger(host_list)] on: the exit code or the exception,
    and the text on [stdout]. *)
Inductive session (a : args.t) (host_list : list str)
  : result Z -> str -> Prop :=
| session_raises h1 p e p' h' :
    Pinger_init env (TargetList host_list) [] = (h1, Ok p) ->
    ping_targets env
      (set_request_timeout env (set_num_requests p (args.count a))
         (args.wait a)) h1 t0 t1 (Raise e) p' h' ->
    session a host_list (Raise e) []
| session_done h1 p p' h' out res :
    Pinger_init env (TargetList host_list) [] = (h1, Ok p) ->
    ping_targets env
      (set_request_timeout env (set_num_requests p (args.count a))
         (args.wait a)) h1 t0 t1 (Ok tt) p' h' ->
    render (args.output a) p' h' [] = (out, res) ->
    session a host_list ((fun _ => 0) <$> res) out.

Inductive main (a : args.t) : result Z -> str -> Prop :=
| main_no_argument out res :
    args.host a = [] -> args.input a = None ->
    abort_msg encodable usage
      (lit "Must supply either host(s) or --input arguments.") []
    = (out, res) ->
    main a ((fun _ => - 1) <$> res) out
| main_hosts res out :
    args.host a <> [] ->
    session a (args.host a) res out ->
    main a res out
| main_no_file f out res :
    args.host a = [] -> args.input a = Some f -> exists_file f = false ->
    abort_msg encodable usage (f ++ lit " file does NOT exist.") []
    = (out, res) ->
    main a ((fun _ => - 2) <$> res) out
| main_file_raises f e :
    args.host a = [] -> args.input a = Some f -> exists_file f = true ->
    hosts_of_file f = Raise e ->
    main a (Raise e) []
| main_file f host_list res out :
    args.host a = [] -> args.input a = Some f -> exists_file f = true ->
    hosts_of_file f = Ok host_list ->
    session a host_list res out ->
    main a res out.

End Main.

(** ** Notions of the statements about the rest *)

(** *** The pool *)

(** The targets whose call a thread of the pool is running. *)
Definition in_flight (m : pool) : list str := omap worker_target (workers m).

(** The target a thread has taken and not probed yet. *)
Definition worker_running (w : worker) : option str :=
  match w with
  | Running t => Some t
  | _ => None
  end.

(** The calls of [_ping_it] the pool has still to make: those of the
    targets in the queue and those of the threads that took a target and
    have not probed it yet. *)
Definition to_call (m : pool) : list str :=
  queue m ++ omap worker_running (workers m).

(** The target [_ping_it] is called with in the next step of thread [i]:
    a thread that has taken a target probes it in its next step, and no
    other step calls [_ping_it]. *)
Definition probed (i : nat) (m : pool) : list str :=
  match workers m !! i with
  | Some (Running t) => [t]
  | _ => []
  end.

Section Calls.
Context {F : PyFloat} (env : Env).

(** The targets [_ping_it] is called with along a schedule, in the order
    of the calls. *)
Fixpoint calls (sched : list nat) (m : pool) : list str :=
  match sched with
  | [] => []
  | i :: sched' =>
      match step env i m with
      | Some m' => probed i m ++ calls sched' m'
      | None => []
      end
  end.

(** [o] is the object a call of [_ping_it] for the target [t] leaves at
    the end of the store, whether it returns it or raises. *)
Definition made_by (self : Pinger) (t : str) (o : PingResult) : Prop :=
  exists h res, _ping_it env self t h = (h ++ [o], res).

End Calls.

(** *** Characters and numbers *)

(** The number of occurrences of the character [c] in [s]. *)
Definition count_char (c : Z) (s : str) : nat := count_occ Z.eq_dec s c.

(** The characters [' '..'~']. *)
Definition printable (c : Z) : bool := (32 <=? c) && (c <=? 126).

(** An [int] that [str] prints with at most 4300 digits. *)
Definition printable_int (n : Z) : Prop := - 10 ^ 4300 < n < 10 ^ 4300.

(** *** The lines that carry the round-trip times

    On Windows [Minimum = 1ms, Maximum = 3ms, Average = 2ms], elsewhere
    [rtt min/avg/max/mdev = 0.045/0.058/0.070/0.009 ms], where [ping]
    prints each time in milliseconds with three decimals. *)
Definition windows_rtt_line (vmin vmax vavg : Z) : str :=
  lit "Minimum = " ++ str_of_int vmin
  ++ lit "ms, Maximum = " ++ str_of_int vmax
  ++ lit "ms, Average = " ++ str_of_int vavg ++ lit "ms".

(** [whole.ddd], for [0 <= thousandths < 1000]. *)
Definition milliseconds (whole thousandths : Z) : str :=
  str_of_int whole
  ++ [46; 48 + thousandths / 100; 48 + thousandths / 10 mod 10;
      48 + thousandths mod 10].

Definition posix_rtt_line (vmin vavg vmax mdev rest : str) : str :=
  lit "rtt min/avg/max/mdev = " ++ vmin ++ lit "/" ++ vavg ++ lit "/"
  ++ vmax ++ lit "/" ++ mdev ++ lit " " ++ rest.

Section RttLines.
Context (env : Env).

(** The lines in which [_ping_it] assigns [rtt]. *)
Definition is_rtt_line (line : str) : bool :=
  let token := lstrip line in
  if is_windows env then startswith (lit "Minimum") token
  else contains (lit "rtt min") token.

(** [line] is the last such line of the output [p_stdout]. *)
Definition last_rtt_line (p_stdout line : str) : Prop :=
  exists before after,
    split 10 p_stdout = before ++ line :: after
    /\ is_rtt_line line = true
    /\ Forall (fun l => is_rtt_line l = false) after.

End RttLines.

(** *** Results and their rendering *)

(** A result with three counters and three times. *)
Definition well_formed (o : PingResult) : Prop :=
  length (packets o) = 3%nat /\ length (rtt o) = 3%nat.

(** The value [PingResult.to_dict] returns for a well-formed result. *)
Definition result_json (o : PingResult) : json :=
  JDict [(lit "packets",
          JDict [(lit "sent", JInt (packetsSent o));
                 (lit "received", JInt (packetsReceived o));
                 (lit "lost", JInt (packetsLost o))]);
         (lit "rtt_ms",
          JDict [(lit "min", JInt (rttMin o)); (lit "max", JInt (rttMax o));
                 (lit "avg", JInt (rttAvg o))]);
         (lit "error", JStr (error o))].

(** The lines a renderer prints for the rows [rows] of the source host
    [source]: [render] reads nothing else of the [Pinger]. *)
Definition report (format timestamp source : str)
    (rows : list (str * PingResult)) : result (list str) :=
  if contains (lit "json") format then
    v ← JDict <$> to_dict_from rows [];
    Ok [if bool_decide (format = lit "json") then dumps v
        else dumps_indent 0 v]
  else if bool_decide (format = lit "csv") then
    Ok (lit "timestamp,source,target,pkt_sent,pkt_recv,pkt_lost,rtt_min,rtt_max,rtt_avg,error"
        :: map (csv_row timestamp source) rows)
  else
    Ok (lit "                                          Packets           RTT"
        :: lit "Source          Target                Sent Recv Lost   Min  Max  Avg  Error Msg"
        :: lit "--------------- --------------------  ---- ---- ----  ---- ---- ----  --------------------------------------"
        :: map (text_row source) rows).

(** *** Text on [stdout] *)

(** [stdout] can encode the line [s] and its line end. *)
Definition can_print (encodable : Z -> bool) (s : str) : bool :=
  forallb encodable s && encodable 10.


(** What is left on [stdout] of a line whose [print] raised: the line
    without its end when only the line end cannot be encoded, else
    nothing. *)
Definition partial_line (encodable : Z -> bool) (s : str) : str :=
  if forallb encodable s then s else [].

(** The characters of ASCII: what a console of the [C] locale encodes. *)
Definition ascii (c : Z) : bool := (0 <=? c) && (c <=? 127).

(** *** [main] and its hosts *)

(** A host as [main] keeps it from a host file: not empty, no blank at
    either end, not a comment, and on one line. *)
Definition clean_host (h : str) : Prop :=
  h <> [] /\ strip h = h /\ startswith (lit "#") h = false
  /\ forallb (fun c => negb (is_linebreak c)) h = true.

(** The [Pinger] of [main] when it calls [ping_targets]: built in an empty
    store, then given the count and the timeout of the command line. *)
Definition configured (env : Env) (a : args.t) (host_list : list str)
  : Pinger :=
  set_request_timeout env
    (set_num_requests
       {| _source_host := gethostname env;
          _target_dict := dict_fromkeys host_list 0%nat;
          _num_requests := DEFAULTS.NUM_REQUESTS;
          _request_timeout := default_timeout env;
          _start_time := None;
          _end_time := None |}
       (args.count a))
    (args.wait a).

(** The rows [main] renders: one per key, with the value of the key's
    probe, or the initial result when the probe raised. *)
Definition rows_of {F : PyFloat} (env : Env) (a : args.t)
    (host_list : list str) : list (str * PingResult) :=
  map (fun k => (k, expected env (configured env a host_list) k))
    (dict_keys (dict_fromkeys host_list 0%nat)).

(** [main] pings the hosts [host_list]: those of the command line when
    there are any, else those of the file of [--input]. *)
Definition pings (exists_file : str -> bool)
    (read_file : str -> result bytes) (a : args.t) (host_list : list str)
  : Prop :=
  (args.host a <> [] /\ host_list = args.host a)
  \/ (args.host a = []
      /\ exists f, args.input a = Some f /\ exists_file f = true
                   /\ hosts_of_file read_file f = Ok host_list).

(** ** More samples *)

Local Open Scope string_scope.

(** Windows [ping -n 4 -w 2000] in Italian, of a host that answers: exit
    code 0. *)
Definition windows_reply_italian : result CompletedProcess :=
  completed 0
    (text crlf ["";
                "Esecuzione di Ping 192.168.1.1 con 32 byte di dati:";
                "Risposta da 192.168.1.1: byte=32 durata=1ms TTL=64";
                "Risposta da 192.168.1.1: byte=32 durata=3ms TTL=64";
                "Risposta da 192.168.1.1: byte=32 durata=2ms TTL=64";
                "Risposta da 192.168.1.1: byte=32 durata=2ms TTL=64";
                "";
                "Statistiche Ping per 192.168.1.1:";
                "    Pacchetti: Trasmessi = 4, Ricevuti = 4,";
                "    Persi = 0 (0% persi),";
                "Tempo approssimativo percorsi andata/ritorno in millisecondi:";
                "    Minimo = 1ms, Massimo =  3ms, Medio =  2ms"])
    [].

(** iputils [ping -c 3 -W 2] of a host that answers two requests of three:
    exit code 0, and a percentage that is not a whole number. *)
Definition linux_third : result CompletedProcess :=
  completed 0
    (text lf ["PING 192.168.1.7 (192.168.1.7) 56(84) bytes of data.";
              "64 bytes from 192.168.1.7: icmp_seq=1 ttl=64 time=12.4 ms";
              "64 bytes from 192.168.1.7: icmp_seq=3 ttl=64 time=31.8 ms";
              "";
              "--- 192.168.1.7 ping statistics ---";
              "3 packets transmitted, 2 received, 33.3333% packet loss, time 2003ms";
              "rtt min/avg/max/mdev = 12.412/22.105/31.798/9.693 ms"]%string)
    [].

Local Close Scope string_scope.

(** iputils [ping] of a name that does not resolve and has a letter outside
    ASCII (U+00F6) in it: exit code 2 and a message on [stderr]. *)
Definition linux_unknown_host : result CompletedProcess :=
  completed 2 []
    (blit "ping: h" ++ [Byte.xc3; Byte.xb6]
     ++ blit "st.example: Name or service not known" ++ lf).

(** A host file with a comment, a padded line and an empty line. *)
Definition host_file : bytes :=
  text crlf ["# hosts of the lab"; "  192.168.1.7 "; ""; "10.0.0.9";
             " # 192.168.1.8"]%string.

(** The command line of the sample network: its three hosts, the CSV
    format, a count out of range and a negative timeout. *)
Definition lab_args (input : option str) : args.t :=
  {| args.input := input; args.output := lit "csv"; args.count := 0;
     args.wait := - 1; args.verbose := false;
     args.host := map lit lan_targets |}.


(** A command line that names no host and a file whose name has a letter
    outside ASCII (U+00F6). *)
Definition umlaut_file_args : args.t :=
  {| args.input := Some (lit "h" ++ [246] ++ lit "sts.txt");
     args.output := lit "text"; args.count := 4; args.wait := 2;
     args.verbose := false; args.host := [] |}.

(** A command line that names a file and no host. *)
Definition file_args (f : string) : args.t :=
  {| args.input := Some (lit f); args.output := lit "json"; args.count := 4;
     args.wait := 2; args.verbose := false; args.host := [] |}.

(** ** Tactics for the rest *)

(** The list a parser returns has three values. *)
Ltac three_values :=
  unfold mbind, result_bind, mret, result_ret;
  repeat match goal with
  | |- context [match ?r with Ok _ => _ | Raise _ => _ end] =>
      destruct r; try discriminate
  end;
  intros [= <-]; reflexivity.

(** * Properties *)

(** ** The store *)

Lemma modify_last (h : heap) (o : PingResult) (f : PingResult -> PingResult) :
  modify (length h) f (h ++ [o]) = (h ++ [f o], Ok tt).
Proof.
  unfold modify.
  rewrite (alter_app_r_alt f h [o] (length h)) by lia.
  rewrite Nat.sub_diag. reflexivity.
Qed.

Lemma PingResult_new_spec (h : heap) :
  PingResult_new h = (h ++ [PingResult_zero], Ok (length h)).
Proof.
  unfold PingResult_new, alloc, mbind, M_bind, mret, M_ret.
  rewrite !modify_last. reflexivity.
Qed.

Section ProbeFacts.
Context {F : PyFloat} (env : Env).

Lemma scan_line_spec (h : heap) (o : PingResult) (line : str) :
  exists o',
    scan_line env (length h) line (h ++ [o])
    = (h ++ [o'], (fun _ => tt) <$> scan_value env o line)
    /\ forall v, scan_value env o line = Ok v -> o' = v.
Proof.
  unfold scan_line, scan_value.
  repeat match goal with
  | |- context [if ?b then _ else _] => destruct b
  end;
  try (match goal with
       | |- context [lift ?r] => destruct r as [v|e]
       end;
       unfold mbind, M_bind, lift; simpl;
       [ rewrite modify_last; eexists; split; [reflexivity|];
         intros ? [= <-]; reflexivity
       | exists o; split; [reflexivity | intros ? [=]] ]);
  exists o; (split; [reflexivity | intros ? [= <-]; reflexivity]).
Qed.

Lemma for_each_scan_spec (lines : list str) (h : heap) (o : PingResult) :
  exists o',
    for_each lines (scan_line env (length h)) (h ++ [o])
    = (h ++ [o'], (fun _ => tt) <$> scan_values env lines o)
    /\ forall v, scan_values env lines o = Ok v -> o' = v.
Proof.
  revert o. induction lines as [|line lines IH]; intros o; simpl.
  - exists o. split; [reflexivity | intros ? [= <-]; reflexivity].
  - destruct (scan_line_spec h o line) as (o1 & E1 & V1).
    unfold mbind at 1, M_bind at 1. rewrite E1.
    destruct (scan_value env o line) as [v|e] eqn:Ev; simpl.
    + rewrite (V1 v eq_refl). apply IH.
    + exists o1. split; [reflexivity | intros ? [=]].
Qed.

Lemma record_failure_spec (h : heap) (o : PingResult) (rc : Z) (err : str) :
  o = PingResult_zero ->
  record_failure (length h) rc err (h ++ [o])
  = (h ++ [failure_value rc err], Ok tt).
Proof.
  intros ->. unfold record_failure, failure_value.
  destruct (0 <? length err)%nat.
  - apply modify_last.
  - unfold mbind, M_bind. rewrite modify_last.
    destruct (rc =? 1).
    + rewrite modify_last. unfold with_error; simpl.
      rewrite <- !app_assoc. reflexivity.
    + unfold mret, M_ret. rewrite app_nil_r. reflexivity.
Qed.

(** [_ping_it] allocates exactly one object, at the end of the store, and
    returns it when [probe] gives its value. *)
Lemma _ping_it_spec (self : Pinger) (t : str) (h : heap) :
  exists o',
    _ping_it env self t h
    = (h ++ [o'], (fun _ => length h) <$> probe env self t)
    /\ forall v, probe env self t = Ok v -> o' = v.
Proof.
  unfold _ping_it, probe.
  unfold mbind at 1, M_bind at 1. rewrite PingResult_new_spec.
  unfold mbind, M_bind, result_bind, lift.
  destruct (popen env _) as [process|e];
    [|exists PingResult_zero; split; [reflexivity | intros ? [=]]].
  destruct (decode_utf8 (stdout process)) as [out|e];
    [|exists PingResult_zero; split; [reflexivity | intros ? [=]]].
  destruct (decode_utf8 (stderr process)) as [err|e];
    [|exists PingResult_zero; split; [reflexivity | intros ? [=]]].
  destruct (negb (returncode process =? 0)).
  - rewrite record_failure_spec by reflexivity.
    eexists; split; [reflexivity | intros ? [= <-]; reflexivity].
  - destruct (for_each_scan_spec (split 10 out) h PingResult_zero)
      as (o' & E & V).
    rewrite E. exists o'. split; [|exact V].
    destruct (scan_values env (split 10 out) PingResult_zero); reflexivity.
Qed.

Lemma _ping_it_returns (self : Pinger) (t : str) (h : heap) (o : PingResult) :
  probe env self t = Ok o ->
  _ping_it env self t h = (h ++ [o], Ok (length h)).
Proof.
  intros E. destruct (_ping_it_spec self t h) as (o' & -> & V).
  rewrite (V o E), E. reflexivity.
Qed.

Lemma _ping_it_raises (self : Pinger) (t : str) (h : heap) (e : exn) :
  probe env self t = Raise e ->
  exists o, _ping_it env self t h = (h ++ [o], Raise e).
Proof.
  intros E. destruct (_ping_it_spec self t h) as (o' & -> & V).
  rewrite E. exists o'. reflexivity.
Qed.

End ProbeFacts.

(** ** Configuration *)

(** C8: the setter of [num_requests] stores 4 for a count below 1 or above
    100, and the count itself for every count from 1 to 100. *)
Theorem num_requests_setter (self : Pinger) (count : Z) :
  (count < 1 \/ 100 < count ->
   num_requests (set_num_requests self count) = 4)
  /\ (1 <= count <= 100 ->
      num_requests (set_num_requests self count) = count).
Proof.
  unfold set_num_requests, num_requests, DEFAULTS.NUM_REQUESTS.
  destruct (Z.ltb_spec count 1), (Z.gtb_spec count 100); simpl; lia.
Qed.

Example num_requests_samples (self : Pinger) :
  map (fun c => num_requests (set_num_requests self c)) [0; -5; 101; 1; 100]
  = [4; 4; 4; 1; 100].
Proof. reflexivity. Qed.

(** C9: the setter of [request_timeout] stores the platform's default (2000
    on Windows, 2 elsewhere) for a negative value, and the value itself for
    zero and every positive value. *)
Theorem request_timeout_setter (env : Env) (self : Pinger) (value : Z) :
  (value < 0 ->
   request_timeout (set_request_timeout env self value)
   = if is_windows env then 2000 else 2)
  /\ (0 <= value ->
      request_timeout (set_request_timeout env self value) = value).
Proof.
  unfold set_request_timeout, request_timeout, default_timeout,
    DEFAULTS.REQUEST_TIMEOUT_WINDOWS, DEFAULTS.REQUEST_TIMEOUT_LINUX.
  destruct (Z.ltb_spec value 0); simpl; [split; [reflexivity | lia] | lia].
Qed.

(** ** The constructor *)

Lemma dict_fromkeys_one (s : str) (v : ref) : dict_fromkeys [s] v = [(s, v)].
Proof. reflexivity. Qed.

Lemma Pinger_init_spec (env : Env) (target : target_arg) (h : heap) :
  Pinger_init env target h
  = (h ++ [PingResult_zero],
     Ok {| _source_host := gethostname env;
           _target_dict :=
             dict_fromkeys
               match target with
               | TargetStr s => [s]
               | TargetList l => l
               end (length h);
           _num_requests := 4;
           _request_timeout := default_timeout env;
           _start_time := None;
           _end_time := None |}).
Proof.
  unfold Pinger_init, mbind, M_bind. rewrite PingResult_new_spec. reflexivity.
Qed.

(** C10: constructing a [Pinger] from the string [s] and from the list [[s]]
    gives the same state: one zero [PingResult] allocated, the dictionary
    with the one key [s] bound to it, and the default configuration. *)
Theorem Pinger_init_str_list (env : Env) (s : str) (h : heap) :
  Pinger_init env (TargetStr s) h = Pinger_init env (TargetList [s]) h
  /\ Pinger_init env (TargetStr s) h
     = (h ++ [PingResult_zero],
        Ok {| _source_host := gethostname env;
              _target_dict := [(s, length h)];
              _num_requests := DEFAULTS.NUM_REQUESTS;
              _request_timeout := default_timeout env;
              _start_time := None;
              _end_time := None |}).
Proof.
  split.
  - rewrite !Pinger_init_spec. reflexivity.
  - rewrite Pinger_init_spec, dict_fromkeys_one. reflexivity.
Qed.

(** ** A probe whose command fails *)

Section Failure.
Context {F : PyFloat} (env : Env).

Lemma probe_failure (self : Pinger) (t : str) (process : CompletedProcess)
    (out err : str) :
  popen env (_ping_cmd env self ++ lit " " ++ t) = Ok process ->
  decode_utf8 (stdout process) = Ok out ->
  decode_utf8 (stderr process) = Ok err ->
  returncode process <> 0 ->
  probe env self t = Ok (failure_value (returncode process) err).
Proof.
  intros Hp Ho He Hrc. unfold probe, mbind, result_bind.
  rewrite Hp, Ho, He.
  destruct (Z.eqb_spec (returncode process) 0); [contradiction | reflexivity].
Qed.

Lemma probe_success (self : Pinger) (t : str) (process : CompletedProcess)
    (out err : str) :
  popen env (_ping_cmd env self ++ lit " " ++ t) = Ok process ->
  decode_utf8 (stdout process) = Ok out ->
  decode_utf8 (stderr process) = Ok err ->
  returncode process = 0 ->
  probe env self t = scan_values env (split 10 out) PingResult_zero.
Proof.
  intros Hp Ho He Hrc. unfold probe, mbind, result_bind.
  rewrite Hp, Ho, He, Hrc. reflexivity.
Qed.

Lemma failure_value_counters (rc : Z) (err : str) :
  packets (failure_value rc err) = [0; 0; 0]
  /\ rtt (failure_value rc err) = [0; 0; 0].
Proof. unfold failure_value. destruct (0 <? _)%nat; split; reflexivity. Qed.

Lemma failure_value_error (rc : Z) (err : str) :
  err = [] \/ strip err <> [] -> error (failure_value rc err) <> [].
Proof.
  unfold failure_value. intros [-> | H].
  - simpl. discriminate.
  - destruct err as [|c err]; [simpl; discriminate|]. simpl. exact H.
Qed.

Lemma scan_value_error (o o' : PingResult) (line : str) :
  scan_value env o line = Ok o' -> error o' = error o.
Proof.
  unfold scan_value, mbind, result_bind.
  repeat match goal with
  | |- context [if ?b then _ else _] => destruct b
  | |- context [match ?r with Ok _ => _ | Raise _ => _ end] => destruct r
  end; intros [= <-]; reflexivity.
Qed.

Lemma scan_values_error (lines : list str) (o o' : PingResult) :
  scan_values env lines o = Ok o' -> error o' = error o.
Proof.
  revert o. induction lines as [|l lines IH]; simpl; intros o.
  - intros [= <-]. reflexivity.
  - unfold mbind, result_bind.
    destruct (scan_value env o l) as [o1|e] eqn:E; [|discriminate].
    intros H. rewrite (IH _ H). eapply scan_value_error, E.
Qed.

End Failure.

(** ** Round-trip statistics *)

Section Rtt.
Context {F : PyFloat} {L : PyFloatLaws F} (env : Env).

Lemma int_float_ordered (v0 v1 : str) (x0 x1 : pyfloat) (a b : Z) :
  float_of_str v0 = Ok x0 -> float_of_str v1 = Ok x1 -> float_le x0 x1 ->
  int_float v0 = Ok a -> int_float v1 = Ok b -> a <= b.
Proof.
  unfold int_float, mbind, result_bind. intros -> -> Hle Ha Hb.
  eapply int_of_float_mono; eauto.
Qed.

Lemma int_float_nonneg (v : str) (x : pyfloat) (a : Z) :
  float_of_str v = Ok x -> float_le float_zero x -> int_float v = Ok a ->
  0 <= a.
Proof.
  unfold int_float, mbind, result_bind. intros -> Hle Ha.
  eapply int_of_float_mono; eauto using int_of_float_zero.
Qed.

Lemma scan_value_rtt_ordered (o o' : PingResult) (line : str) :
  line_reports env true line -> rtt_ordered o ->
  scan_value env o line = Ok o' -> rtt_ordered o'.
Proof.
  unfold line_reports, scan_value.
  destruct (is_windows env).
  - destruct (startswith (lit "Minimum") (lstrip line)).
    + unfold windows_rtt, mbind, result_bind, mret, result_ret.
      destruct (index _ 2) as [f2|]; [|discriminate].
      destruct (py_int (drop_last 3 f2)) as [a|]; [|discriminate].
      destruct (index _ 5) as [f5|]; [|discriminate].
      destruct (py_int (drop_last 3 f5)) as [b|]; [|discriminate].
      destruct (index _ 8) as [f8|]; [|discriminate].
      destruct (py_int (drop_last 2 f8)) as [c|]; [|discriminate].
      intros H _ [= <-]. exact H.
    + intros _ Ho.
      destruct (startswith (lit "Packets:") (lstrip line)).
      * unfold mbind, result_bind. destruct (windows_packets _); [|discriminate].
        intros [= <-]. exact Ho.
      * intros [= <-]. exact Ho.
  - destruct (contains (lit "rtt min") (lstrip line)).
    + unfold posix_rtt, mbind, result_bind, mret, result_ret.
      destruct (index _ 3) as [f3|]; [|discriminate].
      destruct (index (split 47 f3) 0) as [v0|] eqn:E0; [|discriminate].
      destruct (int_float v0) as [a|] eqn:Ea; [|discriminate].
      destruct (index (split 47 f3) 2) as [v2|] eqn:E2; [|discriminate].
      destruct (int_float v2) as [b|] eqn:Eb; [|discriminate].
      destruct (index (split 47 f3) 1) as [v1|] eqn:E1; [|discriminate].
      destruct (int_float v1) as [c|] eqn:Ec; [|discriminate].
      destruct (float_of_str v0) as [x0|] eqn:X0;
        [|unfold int_float, mbind, result_bind in Ea; rewrite X0 in Ea;
          discriminate].
      destruct (float_of_str v1) as [x1|] eqn:X1;
        [|unfold int_float, mbind, result_bind in Ec; rewrite X1 in Ec;
          discriminate].
      destruct (float_of_str v2) as [x2|] eqn:X2;
        [|unfold int_float, mbind, result_bind in Eb; rewrite X2 in Eb;
          discriminate].
      intros (H0 & H1 & H2) _ [= <-].
      unfold rtt_ordered, rttMin, rttAvg, rttMax; simpl.
      split; [|split].
      * exact (int_float_nonneg v0 x0 a X0 H0 Ea).
      * exact (int_float_ordered v0 v1 x0 x1 a c X0 X1 H1 Ea Ec).
      * exact (int_float_ordered v1 v2 x1 x2 c b X1 X2 H2 Ec Eb).
    + intros _ Ho.
      destruct (contains (lit "packets transmitted,") (lstrip line)).
      * unfold mbind, result_bind. destruct (posix_packets _); [|discriminate].
        intros [= <-]. exact Ho.
      * intros [= <-]. exact Ho.
Qed.

Lemma scan_values_rtt_ordered (lines : list str) (o o' : PingResult) :
  Forall (line_reports env true) lines -> rtt_ordered o ->
  scan_values env lines o = Ok o' -> rtt_ordered o'.
Proof.
  intros H. revert o. induction H as [|l lines Hl _ IH]; simpl; intros o Ho.
  - intros [= <-]. exact Ho.
  - unfold mbind, result_bind.
    destruct (scan_value env o l) as [o1|] eqn:E; [|discriminate].
    apply IH. eapply scan_value_rtt_ordered; eauto.
Qed.

Lemma rtt_ordered_zero : rtt_ordered PingResult_zero.
Proof. unfold rtt_ordered, rttMin, rttAvg, rttMax; simpl. lia. Qed.

End Rtt.

(** ** The floats of CPython satisfy the laws *)

Lemma binary64_to_int_mono (x y : binary64) (m n : Z) :
  binary64_le x y -> binary64_to_int x = Ok m -> binary64_to_int y = Ok n ->
  m <= n.
Proof.
  destruct x as [a k| |], y as [b k'| |]; simpl; try discriminate.
  intros Hle [= <-] [= <-].
  assert (H2k : 0 < 2 ^ Z.of_N k) by (apply Z.pow_pos_nonneg; lia).
  assert (H2k' : 0 < 2 ^ Z.of_N k') by (apply Z.pow_pos_nonneg; lia).
  rewrite <- (Z.quot_mul_cancel_r a (2 ^ Z.of_N k) (2 ^ Z.of_N k')) by lia.
  rewrite <- (Z.quot_mul_cancel_r b (2 ^ Z.of_N k') (2 ^ Z.of_N k)) by lia.
  rewrite (Z.mul_comm (2 ^ Z.of_N k') (2 ^ Z.of_N k)).
  apply Z.quot_le_mono; [lia | exact Hle].
Qed.

Lemma Binary64_laws : PyFloatLaws Binary64.
Proof.
  split.
  - reflexivity.
  - exact binary64_to_int_mono.
Qed.

#[global] Existing Instance Binary64_laws.

(** ** Strings *)

(** *** Decimal numerals: [int(str(n))] is [n] *)


Lemma digits_from_all (s : str) (acc : Z) (n : nat) :
  forallb is_digit s = true ->
  digits_from acc n s = Some (digits_value s acc, (n + length s)%nat).
Proof.
  revert acc n. induction s as [|c s IH]; simpl; intros acc n H.
  - f_equal. f_equal. lia.
  - apply andb_prop in H as [Hc Hs]. rewrite Hc, (IH _ _ Hs).
    f_equal. f_equal. lia.
Qed.

Lemma dec_digits_acc (fuel : nat) (n : Z) (acc : str) :
  dec_digits fuel n acc = dec_digits fuel n [] ++ acc.
Proof.
  revert n acc. induction fuel as [|fuel IH]; simpl; intros n acc; [reflexivity|].
  destruct (n <? 10); [reflexivity|].
  rewrite (IH _ (_ :: acc)), (IH _ [_]), <- app_assoc. reflexivity.
Qed.

Lemma is_digit_mod (n : Z) : is_digit (48 + n mod 10) = true.
Proof.
  unfold is_digit. pose proof (Z.mod_pos_bound n 10 ltac:(lia)).
  apply andb_true_intro. split; apply Z.leb_le; lia.
Qed.

Lemma forallb_snoc {A} (p : A -> bool) (l : list A) (a : A) :
  forallb p (l ++ [a]) = forallb p l && p a.
Proof. rewrite forallb_app. simpl. rewrite andb_true_r. reflexivity. Qed.

Lemma digits_value_snoc (s : str) (c acc : Z) :
  digits_value (s ++ [c]) acc = 10 * digits_value s acc + (c - 48).
Proof. unfold digits_value. rewrite fold_left_app. reflexivity. Qed.

Lemma dec_digits_S (fuel : nat) (n : Z) (acc : str) :
  dec_digits (S fuel) n acc
  = if n <? 10 then (48 + n mod 10) :: acc
    else dec_digits fuel (n / 10) ((48 + n mod 10) :: acc).
Proof. reflexivity. Qed.

Lemma dec_digits_spec (fuel : nat) (n : Z) :
  0 <= n < 2 ^ Z.of_nat (S fuel) ->
  let s := dec_digits (S fuel) n [] in
  forallb is_digit s = true /\ s <> [] /\ digits_value s 0 = n.
Proof.
  revert n. induction fuel as [|fuel IH]; intros n Hn;
    cbv zeta; rewrite dec_digits_S;
    destruct (Z.ltb_spec n 10) as [Hlt|Hge].
  1, 3: rewrite Z.mod_small by lia; repeat split;
    [ simpl; unfold is_digit; rewrite andb_true_r;
      apply andb_true_intro; split; apply Z.leb_le; lia
    | discriminate
    | unfold digits_value; simpl; lia ].
  - change (2 ^ Z.of_nat 1) with 2 in Hn. lia.
  - rewrite dec_digits_acc.
    assert (Hq : 0 <= n / 10 < 2 ^ Z.of_nat (S fuel)).
    { split; [apply Z.div_pos; lia|].
      apply Z.div_lt_upper_bound; [lia|].
      rewrite (Nat2Z.inj_succ (S fuel)), Z.pow_succ_r in Hn by lia. lia. }
    destruct (IH _ Hq) as (Hd & Hne & Hv). repeat split.
    + rewrite forallb_snoc, Hd, is_digit_mod. reflexivity.
    + destruct (dec_digits (S fuel) (n / 10) []); discriminate.
    + rewrite digits_value_snoc, Hv.
      pose proof (Z.div_mod n 10 ltac:(lia)). lia.
Qed.

Lemma dec_digits_length (fuel : nat) (n : Z) (k : nat) :
  0 <= n < 10 ^ Z.of_nat (S k) ->
  (length (dec_digits (S fuel) n []) <= S k)%nat.
Proof.
  revert n k. induction fuel as [|fuel IH]; intros n k Hn;
    rewrite dec_digits_S; destruct (Z.ltb_spec n 10) as [Hlt|Hge];
    try (simpl; lia).
  rewrite dec_digits_acc, length_app. cbn [length].
  destruct k as [|k]; [change (10 ^ Z.of_nat 1) with 10 in Hn; lia|].
  assert (Hq : 0 <= n / 10 < 10 ^ Z.of_nat (S k)).
  { split; [apply Z.div_pos; lia|].
    apply Z.div_lt_upper_bound; [lia|].
    rewrite (Nat2Z.inj_succ (S k)), Z.pow_succ_r in Hn by lia. lia. }
  specialize (IH _ _ Hq). lia.
Qed.

Lemma str_of_nonneg_spec (n : Z) :
  0 <= n ->
  forallb is_digit (str_of_nonneg n) = true /\ str_of_nonneg n <> []
  /\ digits_value (str_of_nonneg n) 0 = n.
Proof.
  intros Hn. unfold str_of_nonneg. apply dec_digits_spec.
  split; [lia|]. rewrite Nat2Z.inj_succ, Z2Nat.id by apply Z.log2_nonneg.
  destruct (Z.eq_dec n 0) as [->|]; [reflexivity|].
  apply Z.log2_spec. lia.
Qed.

Lemma str_of_nonneg_length (n : Z) (k : nat) :
  0 <= n < 10 ^ Z.of_nat (S k) -> (length (str_of_nonneg n) <= S k)%nat.
Proof. apply dec_digits_length. Qed.

Lemma is_digit_range (c : Z) : is_digit c = true <-> 48 <= c <= 57.
Proof. unfold is_digit. rewrite andb_true_iff, !Z.leb_le. reflexivity. Qed.

Lemma digit_not_int_space (c : Z) : is_digit c = true -> int_space c = false.
Proof.
  rewrite is_digit_range. intros H. unfold int_space, isspace. zfix.
  reflexivity.
Qed.

Lemma digit_not_space (c : Z) : is_digit c = true -> isspace c = false.
Proof.
  rewrite is_digit_range. intros H. unfold isspace. zfix. reflexivity.
Qed.

Lemma drop_while_head (p : Z -> bool) (c : Z) (s : str) :
  p c = false -> drop_while p (c :: s) = c :: s.
Proof. intros H. simpl. rewrite H. reflexivity. Qed.

Lemma drop_while_blank (p : Z -> bool) (ws s : str) :
  forallb p ws = true -> drop_while p (ws ++ s) = drop_while p s.
Proof.
  induction ws as [|c ws IH]; simpl; [reflexivity|].
  intros H. apply andb_prop in H as [-> H]. auto.
Qed.

Lemma drop_while_all (p : Z -> bool) (ws : str) :
  forallb p ws = true -> drop_while p ws = [].
Proof.
  intros H. rewrite <- (app_nil_r ws), drop_while_blank by exact H.
  reflexivity.
Qed.

(** A string that neither starts nor ends with a blank is its own strip. *)
Lemma strip_with_id (p : Z -> bool) (a b : Z) (s : str) :
  p a = false -> p b = false ->
  rev (drop_while p (rev (drop_while p (a :: s ++ [b])))) = a :: s ++ [b].
Proof.
  intros Ha Hb. rewrite drop_while_head by exact Ha.
  change (a :: s ++ [b]) with ((a :: s) ++ [b]).
  rewrite rev_unit, drop_while_head by exact Hb.
  rewrite <- rev_unit, rev_involutive. reflexivity.
Qed.

Lemma strip_with_single (p : Z -> bool) (a : Z) :
  p a = false -> rev (drop_while p (rev (drop_while p [a]))) = [a].
Proof. intros Ha. simpl. rewrite Ha. simpl. rewrite Ha. reflexivity. Qed.

(** The same for any string, given its first and its last character. *)
Lemma strip_with_ends (p : Z -> bool) (s : str) :
  (forall c, head s = Some c -> p c = false) ->
  (forall c, last s = Some c -> p c = false) ->
  rev (drop_while p (rev (drop_while p s))) = s.
Proof.
  intros Hh Hl. destruct s as [|a s]; [reflexivity|].
  destruct (rev s) as [|b r] eqn:E.
  - apply (f_equal (@rev Z)) in E. rewrite rev_involutive in E. subst s.
    apply strip_with_single, Hh. reflexivity.
  - apply (f_equal (@rev Z)) in E. rewrite rev_involutive in E. simpl in E.
    subst s. apply strip_with_id; [apply Hh; reflexivity|].
    apply Hl. change (a :: rev r ++ [b]) with ((a :: rev r) ++ [b]).
    apply last_snoc.
Qed.

Lemma head_forallb (p : Z -> bool) (s : str) (c : Z) :
  forallb p s = true -> head s = Some c -> p c = true.
Proof.
  destruct s; simpl; [discriminate|].
  intros H [= <-]. apply andb_prop in H. tauto.
Qed.

Lemma last_forallb (p : Z -> bool) (s : str) (c : Z) :
  forallb p s = true -> last s = Some c -> p c = true.
Proof.
  intros H Hl. rewrite forallb_forall in H. apply H.
  rewrite last_Some in Hl. destruct Hl as [l' ->].
  apply in_or_app. right. left. reflexivity.
Qed.

Lemma int_strip_digits (s : str) :
  forallb is_digit s = true -> int_strip s = s.
Proof.
  intros H. apply strip_with_ends; intros c Hc; apply digit_not_int_space.
  - eapply head_forallb; eauto.
  - eapply last_forallb; eauto.
Qed.

Lemma sign_match_digit {A} (c : Z) (r : str) (x y z : A) :
  is_digit c = true ->
  match c :: r with
  | 45 :: _ => x
  | 43 :: _ => y
  | _ => z
  end = z.
Proof.
  rewrite is_digit_range. intros H.
  assert (c = 48 \/ c = 49 \/ c = 50 \/ c = 51 \/ c = 52 \/ c = 53 \/ c = 54
          \/ c = 55 \/ c = 56 \/ c = 57) as Hc by lia.
  repeat (destruct Hc as [->|Hc]; [reflexivity|]). subst. reflexivity.
Qed.

Lemma digits_all (s : str) :
  forallb is_digit s = true -> s <> [] ->
  digits s = Some (digits_value s 0, length s).
Proof.
  destruct s as [|c s]; [congruence|]. simpl. intros H _.
  apply andb_prop in H as [-> H]. rewrite digits_from_all by exact H.
  reflexivity.
Qed.

Lemma py_int_digits (s : str) :
  forallb is_digit s = true -> s <> [] ->
  (length s <= int_max_str_digits)%nat ->
  py_int s = Ok (digits_value s 0).
Proof.
  intros Hd Hne Hlen. unfold py_int. rewrite int_strip_digits by exact Hd.
  destruct s as [|c s]; [congruence|].
  assert (Hc : is_digit c = true) by (simpl in Hd; apply andb_prop in Hd; tauto).
  rewrite (sign_match_digit c s _ _ _ Hc).
  rewrite digits_all by assumption.
  destruct (Nat.ltb_spec int_max_str_digits (length (c :: s))); [lia|].
  reflexivity.
Qed.

(** [int] reads back what [str] printed. *)
Lemma py_int_str_of_nonneg (n : Z) :
  0 <= n < 10 ^ 4300 -> py_int (str_of_nonneg n) = Ok n.
Proof.
  intros Hn. destruct (str_of_nonneg_spec n) as (Hd & Hne & Hv); [apply Hn|].
  rewrite py_int_digits, Hv; auto.
  apply (str_of_nonneg_length n 4299).
  rewrite Nat2Z.inj_succ. exact Hn.
Qed.

(** *** [split] and [join] *)


Lemma split_field (sep : Z) (f rest : str) :
  no_sep sep f = true -> split sep (f ++ sep :: rest) = f :: split sep rest.
Proof.
  induction f as [|c f IH]; simpl; intros H.
  - rewrite Z.eqb_refl. reflexivity.
  - apply andb_prop in H as [Hc Hf]. apply negb_true_iff in Hc.
    rewrite Hc, (IH Hf). reflexivity.
Qed.

Lemma split_last_field (sep : Z) (f : str) :
  no_sep sep f = true -> split sep f = [f].
Proof.
  induction f as [|c f IH]; simpl; intros H; [reflexivity|].
  apply andb_prop in H as [Hc Hf]. apply negb_true_iff in Hc.
  rewrite Hc, (IH Hf). reflexivity.
Qed.

Lemma split_join (sep : Z) (fields : list str) :
  fields <> [] -> forallb (no_sep sep) fields = true ->
  split sep (join sep fields) = fields.
Proof.
  induction fields as [|f fs IH]; [congruence|]. intros _ H.
  simpl in H. apply andb_prop in H as [Hf Hfs].
  destruct fs as [|g fs].
  - simpl. apply split_last_field, Hf.
  - change (join sep (f :: g :: fs)) with (f ++ sep :: join sep (g :: fs)).
    rewrite split_field by exact Hf. rewrite IH; [reflexivity | discriminate | exact Hfs].
Qed.

Lemma no_sep_digits (sep : Z) (s : str) :
  is_digit sep = false -> forallb is_digit s = true -> no_sep sep s = true.
Proof.
  intros Hs H. unfold no_sep. rewrite forallb_forall in *. intros c Hc.
  specialize (H c Hc). apply negb_true_iff. apply Z.eqb_neq. congruence.
Qed.

Lemma no_sep_app (sep : Z) (a b : str) :
  no_sep sep (a ++ b) = no_sep sep a && no_sep sep b.
Proof. apply forallb_app. Qed.

Lemma drop_last_snoc (s : str) (c : Z) : drop_last 1 (s ++ [c]) = s.
Proof.
  unfold drop_last. rewrite length_app. simpl.
  replace (length s + 1 - 1)%nat with (length s) by lia.
  apply take_app_length.
Qed.

Lemma str_of_int_nonneg (n : Z) : 0 <= n -> str_of_int n = str_of_nonneg n.
Proof. intros H. unfold str_of_int. destruct (Z.ltb_spec n 0); [lia | reflexivity]. Qed.


Lemma counter_digits (n : Z) :
  counter n -> forallb is_digit (str_of_int n) = true.
Proof.
  intros [H _]. rewrite str_of_int_nonneg by exact H.
  apply str_of_nonneg_spec, H.
Qed.

Lemma counter_int (n : Z) : counter n -> py_int (str_of_int n) = Ok n.
Proof.
  intros H. rewrite str_of_int_nonneg by apply H.
  apply py_int_str_of_nonneg, H.
Qed.

Lemma counter_no_sep (sep n : Z) :
  is_digit sep = false -> counter n -> no_sep sep (str_of_int n) = true.
Proof. intros Hs H. apply no_sep_digits; [exact Hs | apply counter_digits, H]. Qed.

(** *** The fields of the Windows line *)

Lemma windows_packets_line_join (s r l p : Z) :
  windows_packets_line s r l p
  = join 32 [lit "Packets:"; lit "Sent"; lit "="; str_of_int s ++ lit ",";
             lit "Received"; lit "="; str_of_int r ++ lit ",";
             lit "Lost"; lit "="; str_of_int l;
             lit "(" ++ str_of_int p ++ lit "%"; lit "loss),"].
Proof.
  unfold windows_packets_line. cbn -[str_of_int].
  rewrite <- !app_assoc. reflexivity.
Qed.

Lemma windows_packets_line_fields (s r l p : Z) :
  counter s -> counter r -> counter l -> counter p ->
  split 32 (windows_packets_line s r l p)
  = [lit "Packets:"; lit "Sent"; lit "="; str_of_int s ++ lit ",";
     lit "Received"; lit "="; str_of_int r ++ lit ",";
     lit "Lost"; lit "="; str_of_int l;
     lit "(" ++ str_of_int p ++ lit "%"; lit "loss),"].
Proof.
  intros Hs Hr Hl Hp. rewrite windows_packets_line_join.
  apply split_join; [discriminate|].
  cbn -[str_of_int no_sep lit].
  rewrite !no_sep_app, !(counter_no_sep 32) by (reflexivity || assumption).
  reflexivity.
Qed.

Lemma windows_packets_of_line (s r l p : Z) :
  counter s -> counter r -> counter l -> counter p ->
  windows_packets (split 32 (windows_packets_line s r l p)) = Ok [s; r; l].
Proof.
  intros Hs Hr Hl Hp. rewrite windows_packets_line_fields by assumption.
  unfold windows_packets, index, mbind, result_bind.
  cbn -[str_of_int lit py_int drop_last].
  change (lit ",") with [44].
  rewrite !drop_last_snoc, !counter_int by assumption. reflexivity.
Qed.

(** *** Lines with blanks around *)

Lemma lstrip_padded (indent body trail : str) (a : Z) :
  blank indent -> head body = Some a -> isspace a = false ->
  lstrip (indent ++ body ++ trail) = body ++ trail.
Proof.
  intros Hi Ha Hsp. unfold lstrip. rewrite drop_while_blank by exact Hi.
  destruct body as [|c body]; [discriminate|]. injection Ha as ->.
  apply drop_while_head, Hsp.
Qed.

Lemma rstrip_padded (body trail : str) (b : Z) :
  blank trail -> last body = Some b -> isspace b = false ->
  rstrip (body ++ trail) = body.
Proof.
  intros Ht Hb Hsp. unfold rstrip. rewrite rev_app_distr.
  rewrite drop_while_blank.
  - apply last_Some in Hb as [body' ->]. rewrite rev_unit.
    rewrite drop_while_head by exact Hsp.
    rewrite <- rev_unit. apply rev_involutive.
  - unfold blank in Ht. rewrite forallb_forall in *. intros c Hc.
    apply Ht, in_rev, Hc.
Qed.

Lemma strip_padded (indent body trail : str) (a b : Z) :
  blank indent -> blank trail ->
  head body = Some a -> isspace a = false ->
  last body = Some b -> isspace b = false ->
  strip (lstrip (indent ++ body ++ trail)) = body.
Proof.
  intros Hi Ht Ha Hsa Hb Hsb.
  rewrite (lstrip_padded indent body trail a) by assumption.
  unfold strip.
  replace (lstrip (body ++ trail)) with (body ++ trail).
  - eapply rstrip_padded; eauto.
  - symmetry. apply (lstrip_padded [] body trail a); auto. reflexivity.
Qed.

Lemma last_app_r (a b : str) (c : Z) :
  last b = Some c -> last (a ++ b) = Some c.
Proof. intros H. apply last_app_Some. left. exact H. Qed.

Lemma windows_packets_line_last (s r l p : Z) :
  last (windows_packets_line s r l p) = Some 44.
Proof.
  unfold windows_packets_line. repeat apply last_app_r. reflexivity.
Qed.

Section WindowsLine.
Context {F : PyFloat} (env : Env).

(** On Windows, a line that reads [Packets: Sent = s, Received = r, Lost = l
    (p% loss),] between blanks sets the three counters. *)
Lemma scan_value_windows_packets (o : PingResult) (indent trail : str)
    (s r l p : Z) :
  is_windows env = true -> blank indent -> blank trail ->
  counter s -> counter r -> counter l -> counter p ->
  scan_value env o (indent ++ windows_packets_line s r l p ++ trail)
  = Ok (with_packets [s; r; l] o).
Proof.
  intros Hw Hi Ht Hs Hr Hl Hp. unfold scan_value. rewrite Hw.
  rewrite (strip_padded indent _ trail 80 44)
    by (assumption || reflexivity || apply windows_packets_line_last).
  rewrite (lstrip_padded indent _ trail 80) by (assumption || reflexivity).
  replace (startswith (lit "Minimum") _) with false by reflexivity.
  replace (startswith (lit "Packets:") _) with true by reflexivity.
  rewrite windows_packets_of_line by assumption. reflexivity.
Qed.

End WindowsLine.

(** *** The fields of the POSIX line *)

Lemma startswith_mismatch (c x : Z) (p s : str) :
  c <> x -> startswith (c :: p) (x :: s) = false.
Proof. intros H. simpl. apply Z.eqb_neq in H. rewrite H. reflexivity. Qed.

Lemma contains_digits_prefix (c : Z) (p d s : str) :
  is_digit c = false -> forallb is_digit d = true ->
  contains (c :: p) (d ++ s) = contains (c :: p) s.
Proof.
  intros Hc. induction d as [|x d IH]; intros Hd; [reflexivity|].
  simpl in Hd. apply andb_prop in Hd as [Hx Hd].
  change (contains (c :: p) ((x :: d) ++ s))
    with (startswith (c :: p) (x :: d ++ s) || contains (c :: p) (d ++ s)).
  rewrite startswith_mismatch by congruence. simpl. apply IH, Hd.
Qed.

Lemma posix_packets_line_fields (n r : Z) (rest : str) :
  counter n -> counter r ->
  split 32 (posix_packets_line n r rest)
  = str_of_int n :: lit "packets" :: lit "transmitted," :: str_of_int r
    :: lit "received," :: split 32 rest.
Proof.
  intros Hn Hr. unfold posix_packets_line.
  change (str_of_int n ++ lit " packets transmitted, "
          ++ str_of_int r ++ lit " received, " ++ rest)
    with (str_of_int n ++ 32 :: lit "packets" ++ 32 :: lit "transmitted,"
          ++ 32 :: str_of_int r ++ 32 :: lit "received," ++ 32 :: rest).
  rewrite (split_field 32 (str_of_int n)) by (apply counter_no_sep; auto).
  rewrite (split_field 32 (lit "packets")) by reflexivity.
  rewrite (split_field 32 (lit "transmitted,")) by reflexivity.
  rewrite (split_field 32 (str_of_int r)) by (apply counter_no_sep; auto).
  rewrite (split_field 32 (lit "received,")) by reflexivity.
  reflexivity.
Qed.

Lemma posix_packets_line_rtt (n r : Z) (rest : str) :
  counter n -> counter r ->
  contains (lit "rtt min") (posix_packets_line n r rest)
  = contains (lit "rtt min") rest.
Proof.
  intros Hn Hr. unfold posix_packets_line.
  change (lit "rtt min") with (114 :: lit "tt min").
  rewrite contains_digits_prefix by (reflexivity || apply counter_digits, Hn).
  cbn -[str_of_int contains]. 
  repeat (rewrite (startswith_mismatch 114) by discriminate; cbn [orb]; cbn -[str_of_int] ).
  cbn -[str_of_int].
  rewrite contains_digits_prefix by (reflexivity || apply counter_digits, Hr).
  reflexivity.
Qed.

Lemma str_of_int_head (n : Z) :
  counter n -> exists c d, str_of_int n = c :: d /\ is_digit c = true.
Proof.
  intros Hn. pose proof (counter_digits n Hn) as Hd.
  destruct Hn as [Hn _]. rewrite str_of_int_nonneg in * by exact Hn.
  destruct (str_of_nonneg_spec n Hn) as (_ & Hne & _).
  destruct (str_of_nonneg n) as [|c d]; [congruence|].
  exists c, d. split; [reflexivity|]. simpl in Hd. apply andb_prop in Hd. tauto.
Qed.

Lemma posix_packets_line_marker (n r : Z) (rest : str) :
  counter n ->
  contains (lit "packets transmitted,") (posix_packets_line n r rest) = true.
Proof.
  intros Hn. unfold posix_packets_line.
  change (lit "packets transmitted,") with (112 :: lit "ackets transmitted,").
  rewrite contains_digits_prefix by (reflexivity || apply counter_digits, Hn).
  reflexivity.
Qed.

Lemma lstrip_posix_packets_line (indent : str) (n r : Z) (rest : str) :
  blank indent -> counter n ->
  lstrip (indent ++ posix_packets_line n r rest) = posix_packets_line n r rest.
Proof.
  intros Hi Hn. unfold lstrip. rewrite drop_while_blank by exact Hi.
  unfold posix_packets_line.
  destruct (str_of_int_head n Hn) as (c & d & -> & Hc).
  apply drop_while_head, digit_not_space, Hc.
Qed.

Section PosixLine.
Context {F : PyFloat} (env : Env).

(** Elsewhere, a line [n packets transmitted, r received, ...] sets the
    first two counters to [n] and [r], when the whole line is accepted. *)
Lemma scan_value_posix_packets (o o' : PingResult) (indent : str) (n r : Z)
    (rest : str) :
  is_windows env = false -> blank indent -> counter n -> counter r ->
  contains (lit "rtt min") rest = false ->
  scan_value env o (indent ++ posix_packets_line n r rest) = Ok o' ->
  exists third, o' = with_packets [n; r; third] o.
Proof.
  intros Hw Hi Hn Hr Hrest. unfold scan_value. rewrite Hw.
  rewrite lstrip_posix_packets_line by assumption.
  rewrite posix_packets_line_rtt, Hrest by assumption.
  rewrite posix_packets_line_marker by assumption.
  rewrite posix_packets_line_fields by assumption.
  unfold posix_packets, index, mbind, result_bind.
  cbn -[str_of_int lit py_int drop_last split].
  rewrite !counter_int by assumption.
  destruct (split 32 rest !! 0%nat) as [f5|]; [|discriminate].
  destruct (py_int (drop_last 1 f5)) as [third|]; [|discriminate].
  intros [= <-]. exists third. reflexivity.
Qed.

End PosixLine.

(** *** Scanning a sequence of lines *)

Section Scan.
Context {F : PyFloat} (env : Env).

Lemma scan_values_app (l1 l2 : list str) (o : PingResult) :
  scan_values env (l1 ++ l2) o
  = o1 ← scan_values env l1 o; scan_values env l2 o1.
Proof.
  revert o. induction l1 as [|l l1 IH]; intros o; simpl; [reflexivity|].
  unfold mbind, result_bind in *.
  destruct (scan_value env o l); [apply IH | reflexivity].
Qed.

Lemma scan_value_keeps_packets (o o' : PingResult) (line : str) :
  is_packets_line env line = false ->
  scan_value env o line = Ok o' -> packets o' = packets o.
Proof.
  unfold is_packets_line, scan_value, mbind, result_bind.
  destruct (is_windows env).
  - destruct (startswith (lit "Minimum") _); simpl.
    + intros _. destruct (windows_rtt _); [|discriminate].
      intros [= <-]. reflexivity.
    + intros ->. intros [= <-]. reflexivity.
  - destruct (contains (lit "rtt min") _); simpl.
    + intros _. destruct (posix_rtt _); [|discriminate].
      intros [= <-]. reflexivity.
    + intros ->. intros [= <-]. reflexivity.
Qed.

Lemma scan_values_keep_packets (lines : list str) (o o' : PingResult) :
  Forall (fun l => is_packets_line env l = false) lines ->
  scan_values env lines o = Ok o' -> packets o' = packets o.
Proof.
  intros H. revert o. induction H as [|l lines Hl _ IH]; simpl; intros o.
  - intros [= <-]. reflexivity.
  - unfold mbind, result_bind.
    destruct (scan_value env o l) as [o1|] eqn:E; [|discriminate].
    intros H'. rewrite (IH _ H'). eapply scan_value_keeps_packets; eauto.
Qed.

(** The counters of a result are those its last packets line sets. *)
Lemma scan_values_last_packets (lines before after : list str) (line : str)
    (o o' : PingResult) :
  lines = before ++ line :: after ->
  Forall (fun l => is_packets_line env l = false) after ->
  scan_values env lines o = Ok o' ->
  exists o1 o2, scan_value env o1 line = Ok o2 /\ packets o' = packets o2.
Proof.
  intros -> Hafter. rewrite scan_values_app. unfold mbind, result_bind.
  destruct (scan_values env before o) as [o1|]; [|discriminate]. simpl.
  unfold mbind, result_bind.
  destruct (scan_value env o1 line) as [o2|] eqn:E; [|discriminate].
  intros H. exists o1, o2. split; [exact E|].
  eapply scan_values_keep_packets; eauto.
Qed.

End Scan.

(** ** Packet counters *)

Section Counters.
Context {F : PyFloat} (env : Env).

(** The object a probe returns holds the value [probe] computes. *)
Lemma _ping_it_value (self : Pinger) (t : str) (h h' : heap) (r : ref)
    (o : PingResult) :
  _ping_it env self t h = (h', Ok r) -> h' !! r = Some o ->
  probe env self t = Ok o /\ h' = h ++ [o] /\ r = length h.
Proof.
  destruct (_ping_it_spec env self t h) as (o' & -> & V).
  destruct (probe env self t) as [v|e]; [|discriminate].
  simpl. intros [= <- <-]. rewrite (V v eq_refl).
  rewrite list_lookup_middle by reflexivity. intros [= <-]. auto.
Qed.

(** C1, as the code has it, for a command that ran and whose output is
    UTF-8.  When the command exits with a code other than zero the probe
    returns a result whose three counters are 0: [sent = received + lost]
    holds, and [sent] is 0, not the number of requests (which is at least
    1).  When the command exits with zero and the probe returns, the
    counters are those of the last packets line of the output.  On Windows
    they are the three numbers of
    [Packets: Sent = s, Received = r, Lost = l (p% loss),], so that
    [sent = received + lost] holds exactly when [s = r + l], and [sent] is
    the number of requests exactly when [s] is.  Elsewhere [sent] and
    [received] are [n] and [r] of [n packets transmitted, r received, ...],
    and [sent] is the number of requests exactly when [n] is. *)
Theorem packet_counters (self : Pinger) (t : str) (h : heap)
    (process : CompletedProcess) (out err : str) :
  popen env (_ping_cmd env self ++ lit " " ++ t) = Ok process ->
  decode_utf8 (stdout process) = Ok out ->
  decode_utf8 (stderr process) = Ok err ->
  (returncode process <> 0 ->
   exists o, _ping_it env self t h = (h ++ [o], Ok (length h))
             /\ packets o = [0; 0; 0]
             /\ packetsSent o = packetsReceived o + packetsLost o
             /\ packetsSent o = 0
             /\ (1 <= num_requests self ->
                 packetsSent o <> num_requests self))
  /\ (returncode process = 0 ->
      forall h' r o line,
        _ping_it env self t h = (h', Ok r) -> h' !! r = Some o ->
        last_packets_line env out line ->
        (is_windows env = true ->
         forall sent received lost percent,
           counter sent -> counter received -> counter lost ->
           counter percent ->
           reads line (windows_packets_line sent received lost percent) ->
           packets o = [sent; received; lost]
           /\ (packetsSent o = packetsReceived o + packetsLost o
               <-> sent = received + lost)
           /\ (packetsSent o = num_requests self
               <-> sent = num_requests self))
        /\ (is_windows env = false ->
            forall indent sent received rest,
              counter sent -> counter received -> blank indent ->
              contains (lit "rtt min") rest = false ->
              line = indent ++ posix_packets_line sent received rest ->
              packetsSent o = sent /\ packetsReceived o = received
              /\ (packetsSent o = num_requests self
                  <-> sent = num_requests self))).
Proof.
  intros Hp Ho He. split.
  - intros Hrc. exists (failure_value (returncode process) err).
    destruct (failure_value_counters (returncode process) err) as [Hpk _].
    unfold packetsSent, packetsReceived, packetsLost. rewrite Hpk. simpl.
    split; [|repeat split; lia].
    apply _ping_it_returns. eapply probe_failure; eauto.
  - intros Hrc h' r o line Hrun Hobj (before & after & Hlines & _ & Hafter).
    apply (_ping_it_value self t h h' r o Hrun) in Hobj as (Hv & _ & _).
    rewrite (probe_success env self t process out err Hp Ho He Hrc) in Hv.
    destruct (scan_values_last_packets env _ _ _ _ _ _ Hlines Hafter Hv)
      as (o1 & o2 & Hline & Hpk).
    split.
    + intros Hw s r' l p Hs Hr Hl Hpc (indent & trail & Hi & Ht & ->).
      rewrite scan_value_windows_packets in Hline by assumption.
      injection Hline as <-. simpl in Hpk.
      unfold packetsSent, packetsReceived, packetsLost. rewrite Hpk. simpl.
      repeat split; auto.
    + intros Hw indent n r' rest Hn Hr Hi Hrest ->.
      destruct (scan_value_posix_packets env o1 o2 indent n r' rest
                  Hw Hi Hn Hr Hrest Hline) as (third & ->).
      unfold packetsSent, packetsReceived. rewrite Hpk. simpl.
      repeat split; auto.
Qed.

End Counters.

Lemma fresh_pinger_started (env : Env) (l : list string) :
  fresh_pinger env l = ([PingResult_zero], Ok (started env l)).
Proof. unfold fresh_pinger. rewrite Pinger_init_spec. reflexivity. Qed.

Lemma small_counter (n : Z) : 0 <= n < 1000000 -> counter n.
Proof.
  intros [H1 H2]. split; [exact H1|].
  eapply Z.lt_trans; [exact H2 | vm_compute; reflexivity].
Qed.

(** The Windows sample: the counters are those of its [Packets:] line,
    four sent and four received, as many as the requests. *)
Lemma packet_counters_windows_reply :
  exists o,
    _ping_it (windows windows_reply) (started (windows windows_reply) ["h"%string])
      (lit "h") [PingResult_zero]
    = ([PingResult_zero; o], Ok 1%nat)
    /\ packets o = [4; 4; 0]
    /\ (packetsSent o = packetsReceived o + packetsLost o <-> 4 = 4 + 0)
    /\ (packetsSent o = num_requests (started (windows windows_reply) ["h"%string])
        <-> 4 = num_requests (started (windows windows_reply) ["h"%string])).
Proof.
  pose (env := windows windows_reply).
  pose (o := {| packets := [4; 4; 0]; rtt := [1; 3; 2]; error := [] |}).
  assert (Hrun : _ping_it env (started env ["h"%string]) (lit "h")
                   [PingResult_zero] = ([PingResult_zero; o], Ok 1%nat))
    by (vm_compute; reflexivity).
  exists o. split; [exact Hrun|].
  destruct (packet_counters env (started env ["h"%string]) (lit "h")
              [PingResult_zero]
              {| returncode := 0;
                 stdout := match windows_reply with
                           | Ok p => stdout p
                           | Raise _ => []
                           end;
                 stderr := [] |}
              (stdout_text windows_reply) [])
    as [_ H]; [reflexivity | vm_compute; reflexivity | reflexivity |].
  destruct (H eq_refl [PingResult_zero; o] 1%nat o
              (stdout_line windows_reply 8) Hrun eq_refl) as [Hw _].
  - exists (take 8 (split 10 (stdout_text windows_reply))),
      (drop 9 (split 10 (stdout_text windows_reply))).
    split; [vm_compute; reflexivity|].
    split; [vm_compute; reflexivity|].
    vm_compute. repeat constructor.
  - apply (Hw eq_refl 4 4 0 0); try (apply small_counter; lia).
    exists (lit "    "), [13]. repeat split.
Defined.

(** Outside Windows the third counter is the percentage of the summary,
    [50% packet loss], not a number of packets. *)
Example lost_is_a_percentage :
  _ping_it (posix linux_half) (started (posix linux_half) ["h"%string])
    (lit "h") [PingResult_zero]
  = ([PingResult_zero;
      {| packets := [4; 2; 50]; rtt := [12; 31; 22]; error := [] |}],
     Ok 1%nat).
Proof. vm_compute. reflexivity. Qed.

(** [packetsSent] is not the number of requests after a failure: iputils
    [ping] of a host that does not answer exits with 1; the result then has
    [packets = [0, 0, 0]], while 4 requests were configured. *)
Lemma sent_is_zero_when_ping_fails :
  fresh_pinger (posix linux_no_reply) ["10.0.0.9"%string]
  = ([PingResult_zero], Ok (started (posix linux_no_reply) ["10.0.0.9"%string]))
  /\ num_requests (started (posix linux_no_reply) ["10.0.0.9"%string]) = 4
  /\ _ping_it (posix linux_no_reply)
       (started (posix linux_no_reply) ["10.0.0.9"%string])
       (lit "10.0.0.9") [PingResult_zero]
     = ([PingResult_zero;
         {| packets := [0; 0; 0]; rtt := [0; 0; 0];
            error := lit "(1) offline?" |}],
        Ok 1%nat)
  /\ packetsSent {| packets := [0; 0; 0]; rtt := [0; 0; 0];
                    error := lit "(1) offline?" |}
     <> num_requests (started (posix linux_no_reply) ["10.0.0.9"%string]).
Proof. repeat split; vm_compute; congruence. Qed.

(** No packet received and no error message: after a command that exits
    with 0 and prints no summary, the result has received 0 packets and an
    empty error message. *)
Lemma no_error_without_summary :
  _ping_it (posix silent) (started (posix silent) ["h"%string]) (lit "h")
    [PingResult_zero]
  = ([PingResult_zero;
      {| packets := [0; 0; 0]; rtt := [0; 0; 0]; error := [] |}],
     Ok 1%nat)
  /\ packetsReceived {| packets := [0; 0; 0]; rtt := [0; 0; 0]; error := [] |}
     = 0
  /\ error {| packets := [0; 0; 0]; rtt := [0; 0; 0]; error := [] |} = [].
Proof. repeat split. Qed.

(** A [stderr] of blanks only is stripped to the empty string: the test
    [len(p_stderr) > 0] comes before [strip]. *)
Example blank_stderr_empty_error :
  _ping_it (posix blank_stderr) (started (posix blank_stderr) ["h"%string])
    (lit "h") [PingResult_zero]
  = ([PingResult_zero; PingResult_zero], Ok 1%nat).
Proof. vm_compute. reflexivity. Qed.

(** ** Round-trip statistics of a probe *)

Section Statistics.
Context {F : PyFloat} {L : PyFloatLaws F} (env : Env).

(** C6, as the code has it: when every summary line of the output reports
    [0 <= min <= avg <= max], the result of the probe has
    [0 <= rttMin <= rttAvg <= rttMax] (also when it received no packet). *)
Theorem rtt_statistics_ordered (self : Pinger) (t : str) (h h' : heap)
    (r : ref) (o : PingResult) (process : CompletedProcess) (out err : str) :
  popen env (_ping_cmd env self ++ lit " " ++ t) = Ok process ->
  decode_utf8 (stdout process) = Ok out ->
  decode_utf8 (stderr process) = Ok err ->
  reports_ordered env out ->
  _ping_it env self t h = (h', Ok r) -> h' !! r = Some o ->
  0 < packetsReceived o ->
  0 <= rttMin o /\ rttMin o <= rttAvg o /\ rttAvg o <= rttMax o.
Proof.
  intros Hp Ho He Hrep Hrun Hobj _.
  apply (_ping_it_value env self t h h' r o Hrun) in Hobj as (Hv & _ & _).
  destruct (Z.eq_dec (returncode process) 0) as [Hrc|Hrc].
  - rewrite (probe_success env self t process out err Hp Ho He Hrc) in Hv.
    exact (scan_values_rtt_ordered env _ _ _ Hrep rtt_ordered_zero Hv).
  - rewrite (probe_failure env self t process out err Hp Ho He Hrc) in Hv.
    injection Hv as <-. unfold rttMin, rttAvg, rttMax.
    destruct (failure_value_counters (returncode process) err) as [_ ->].
    simpl. lia.
Qed.

End Statistics.

(** The iputils sample: two answers of four, [12.412/22.105/31.798]. *)
Lemma rtt_statistics_linux_half :
  exists o,
    _ping_it (posix linux_half) (started (posix linux_half) ["h"%string])
      (lit "h") [PingResult_zero]
    = ([PingResult_zero; o], Ok 1%nat)
    /\ rtt o = [12; 31; 22]
    /\ 0 <= rttMin o /\ rttMin o <= rttAvg o /\ rttAvg o <= rttMax o.
Proof.
  pose (env := posix linux_half).
  pose (o := {| packets := [4; 2; 50]; rtt := [12; 31; 22]; error := [] |}).
  assert (Hrun : _ping_it env (started env ["h"%string]) (lit "h")
                   [PingResult_zero] = ([PingResult_zero; o], Ok 1%nat))
    by (vm_compute; reflexivity).
  assert (Hdec : decode_utf8 (match linux_half with
                                  | Ok p => stdout p
                                  | Raise _ => []
                                  end) = Ok (stdout_text linux_half))
    by (vm_compute; reflexivity).
  assert (Hrep : reports_ordered env (stdout_text linux_half))
    by (unfold reports_ordered; sample_reports).
  exists o. split; [exact Hrun|]. split; [reflexivity|].
  exact (rtt_statistics_ordered env (started env ["h"%string]) (lit "h")
           [PingResult_zero] [PingResult_zero; o] 1%nat o
           {| returncode := 0;
              stdout := match linux_half with
                        | Ok p => stdout p
                        | Raise _ => []
                        end;
              stderr := [] |}
           (stdout_text linux_half) [] eq_refl Hdec eq_refl Hrep Hrun
           eq_refl eq_refl).
Defined.

(** A statistic below zero: the summary reports [min <= avg <= max] with a
    minimum below zero, two packets were received, and [rttMin] is -1. *)
Lemma negative_minimum :
  exists o,
    reports_sorted (posix linux_clock_step) (stdout_text linux_clock_step)
    /\ _ping_it (posix linux_clock_step)
         (started (posix linux_clock_step) ["h"%string]) (lit "h")
         [PingResult_zero]
       = ([PingResult_zero; o], Ok 1%nat)
    /\ packets o = [2; 2; 0] /\ rtt o = [-1; 0; 0]
    /\ 0 < packetsReceived o /\ rttMin o < 0.
Proof.
  exists {| packets := [2; 2; 0]; rtt := [-1; 0; 0]; error := [] |}.
  split; [unfold reports_sorted; sample_reports|].
  split; [vm_compute; reflexivity|].
  repeat split.
Qed.

(** ** Dictionaries *)

Lemma dict_keys_set_in (k : str) (v : ref) (d : pydict) :
  k ∈ dict_keys d -> dict_keys (dict_set k v d) = dict_keys d.
Proof.
  unfold dict_keys. induction d as [|[k' v'] d IH]; simpl; intros H.
  - inversion H.
  - destruct (bool_decide_reflect (k' = k)) as [->|Hne]; [reflexivity|].
    simpl. f_equal. apply IH. inversion H; subst; [congruence | assumption].
Qed.

Lemma dict_keys_set_new (k : str) (v : ref) (d : pydict) :
  k ∉ dict_keys d -> dict_keys (dict_set k v d) = dict_keys d ++ [k].
Proof.
  unfold dict_keys. induction d as [|[k' v'] d IH]; simpl; intros H.
  - reflexivity.
  - destruct (bool_decide_reflect (k' = k)) as [->|Hne].
    + exfalso. apply H. left.
    + simpl. f_equal. apply IH. intros Hin. apply H. right. exact Hin.
Qed.

Lemma dict_get_set_eq (k : str) (v : ref) (d : pydict) :
  dict_get k (dict_set k v d) = Some v.
Proof.
  induction d as [|[k' v'] d IH]; simpl.
  - rewrite bool_decide_eq_true_2 by reflexivity. reflexivity.
  - destruct (bool_decide_reflect (k' = k)) as [->|Hne]; simpl.
    + rewrite bool_decide_eq_true_2 by reflexivity. reflexivity.
    + rewrite bool_decide_eq_false_2 by exact Hne. exact IH.
Qed.

Lemma dict_get_set_ne (k k0 : str) (v : ref) (d : pydict) :
  k0 <> k -> dict_get k0 (dict_set k v d) = dict_get k0 d.
Proof.
  intros Hne. induction d as [|[k' v'] d IH]; simpl.
  - rewrite bool_decide_eq_false_2 by congruence. reflexivity.
  - destruct (bool_decide_reflect (k' = k)) as [->|Hne']; simpl.
    + rewrite !bool_decide_eq_false_2 by congruence. reflexivity.
    + destruct (bool_decide (k' = k0)); [reflexivity | exact IH].
Qed.

Lemma dict_get_Some_key (k : str) (v : ref) (d : pydict) :
  dict_get k d = Some v -> k ∈ dict_keys d.
Proof.
  unfold dict_keys. induction d as [|[k' v'] d IH]; simpl; [discriminate|].
  destruct (bool_decide_reflect (k' = k)) as [->|Hne]; intros H.
  - left.
  - right. apply IH, H.
Qed.

Lemma dict_get_key (k : str) (d : pydict) :
  k ∈ dict_keys d -> exists v, dict_get k d = Some v.
Proof.
  unfold dict_keys. induction d as [|[k' v'] d IH]; simpl; intros H.
  - inversion H.
  - destruct (bool_decide_reflect (k' = k)) as [->|Hne]; [eauto|].
    apply IH. inversion H; subst; [congruence | assumption].
Qed.

(** With distinct keys, the pairs of a dictionary are what [dict_get] gives. *)
Lemma dict_get_elem (k : str) (v : ref) (d : pydict) :
  NoDup (dict_keys d) -> (k, v) ∈ d -> dict_get k d = Some v.
Proof.
  unfold dict_keys. induction d as [|[k' v'] d IH]; simpl; intros Hnd H.
  - inversion H.
  - apply NoDup_cons in Hnd as [Hk' Hnd].
    destruct (bool_decide_reflect (k' = k)) as [->|Hne].
    + apply elem_of_cons in H as [[= ->]|H]; [reflexivity|].
      exfalso. apply Hk'. apply list_elem_of_fmap. exists (k, v). auto.
    + apply elem_of_cons in H as [[= -> ->]|H]; [congruence|]. auto.
Qed.

(** *** [dict.fromkeys] *)


Lemma fromkeys_from_nodup (keys : list str) (v : ref) (acc : pydict) :
  NoDup (dict_keys acc) -> NoDup (dict_keys (fromkeys_from acc keys v)).
Proof.
  revert acc. induction keys as [|k keys IH]; simpl; intros acc H; [exact H|].
  apply IH. destruct (decide (k ∈ dict_keys acc)) as [Hin|Hout].
  - rewrite dict_keys_set_in by exact Hin. exact H.
  - rewrite dict_keys_set_new by exact Hout.
    apply NoDup_app. split; [exact H|]. split.
    + intros x Hx Hx'. apply list_elem_of_singleton in Hx'. subst. auto.
    + apply NoDup_singleton.
Qed.

Lemma dict_keys_set_elem (k k0 : str) (v : ref) (d : pydict) :
  k0 ∈ dict_keys (dict_set k v d) <-> k0 = k \/ k0 ∈ dict_keys d.
Proof.
  destruct (decide (k ∈ dict_keys d)) as [Hin|Hout].
  - rewrite dict_keys_set_in by exact Hin. split; [auto|].
    intros [->|H]; assumption.
  - rewrite dict_keys_set_new by exact Hout.
    rewrite elem_of_app, list_elem_of_singleton. tauto.
Qed.

Lemma fromkeys_from_elem (keys : list str) (v : ref) (acc : pydict) (k : str) :
  k ∈ dict_keys (fromkeys_from acc keys v) <-> k ∈ dict_keys acc \/ k ∈ keys.
Proof.
  revert acc. induction keys as [|k' keys IH]; simpl; intros acc.
  - split; [auto|]. intros [H|H]; [exact H | inversion H].
  - rewrite IH, dict_keys_set_elem, elem_of_cons. tauto.
Qed.

Lemma dict_set_values (k : str) (v : ref) (d : pydict) :
  Forall (fun e => e.2 = v) d -> Forall (fun e => e.2 = v) (dict_set k v d).
Proof.
  induction d as [|[k' v'] d IH]; simpl; intros H.
  - repeat constructor.
  - apply Forall_cons in H as [Hv H].
    destruct (bool_decide (k' = k)); constructor; auto.
Qed.

Lemma fromkeys_from_values (keys : list str) (v : ref) (acc : pydict) :
  Forall (fun e => e.2 = v) acc ->
  Forall (fun e => e.2 = v) (fromkeys_from acc keys v).
Proof.
  revert acc. induction keys as [|k keys IH]; simpl; intros acc H; [exact H|].
  apply IH, dict_set_values, H.
Qed.

(** The new keys come in the order of their first occurrence. *)
Lemma fromkeys_from_sublist (keys : list str) (v : ref) (acc : pydict) :
  exists l, dict_keys (fromkeys_from acc keys v) = dict_keys acc ++ l
            /\ l `sublist_of` keys.
Proof.
  revert acc. induction keys as [|k keys IH]; simpl; intros acc.
  - exists []. rewrite app_nil_r. split; [reflexivity | constructor].
  - destruct (IH (dict_set k v acc)) as (l & E & Hl). rewrite E.
    destruct (decide (k ∈ dict_keys acc)) as [Hin|Hout].
    + rewrite dict_keys_set_in by exact Hin.
      exists l. split; [reflexivity | apply sublist_cons, Hl].
    + rewrite dict_keys_set_new by exact Hout.
      exists (k :: l). rewrite <- app_assoc. split; [reflexivity|].
      apply sublist_skip, Hl.
Qed.

Lemma fromkeys_from_distinct (keys : list str) (v : ref) (acc : pydict) :
  NoDup (dict_keys acc ++ keys) ->
  dict_keys (fromkeys_from acc keys v) = dict_keys acc ++ keys.
Proof.
  revert acc. induction keys as [|k keys IH]; simpl; intros acc H.
  - rewrite app_nil_r. reflexivity.
  - assert (Hout : k ∉ dict_keys acc).
    { apply NoDup_app in H as (_ & H & _). intros Hin.
      apply (H k Hin). left. }
    rewrite IH; rewrite dict_keys_set_new by exact Hout.
    + rewrite <- app_assoc. reflexivity.
    + rewrite <- app_assoc. exact H.
Qed.

(** The keys of [dict.fromkeys(targets, v)]: the targets without repeats, in
    the order of the list; every key has the value [v]. *)
Lemma dict_fromkeys_spec (targets : list str) (v : ref) :
  let d := dict_fromkeys targets v in
  NoDup (dict_keys d)
  /\ (forall k, k ∈ dict_keys d <-> k ∈ targets)
  /\ dict_keys d `sublist_of` targets
  /\ (NoDup targets -> dict_keys d = targets)
  /\ Forall (fun e => e.2 = v) d.
Proof.
  change (dict_fromkeys targets v) with (fromkeys_from [] targets v). simpl.
  split; [apply fromkeys_from_nodup; constructor|].
  split.
  { intros k. rewrite fromkeys_from_elem. simpl. split; [|auto].
    intros [H|H]; [inversion H | exact H]. }
  split.
  { destruct (fromkeys_from_sublist targets v []) as (l & -> & Hl). exact Hl. }
  split; [intros H; apply (fromkeys_from_distinct targets v []), H|].
  apply fromkeys_from_values. constructor.
Qed.

(** ** The pool *)

Lemma omap_insert_worker {A} (f : worker -> option A) (ws : list worker)
    (i : nat) (w w' : worker) :
  ws !! i = Some w ->
  option_list (f w) ++ omap f (<[i := w']> ws)
  ≡ₚ option_list (f w') ++ omap f ws.
Proof.
  revert i. induction ws as [|x ws IH]; intros [|i]; simpl; try discriminate.
  - intros [= ->].
    destruct (f w), (f w'); simpl; try reflexivity; apply Permutation_swap.
  - intros H. specialize (IH i H).
    destruct (f x) as [tx|]; simpl; [|exact IH].
    rewrite <- !Permutation_middle. constructor. exact IH.
Qed.

Lemma omap_insert_target (ws : list worker) (i : nat) (w w' : worker) :
  ws !! i = Some w ->
  option_list (worker_target w) ++ omap worker_target (<[i := w']> ws)
  ≡ₚ option_list (worker_target w') ++ omap worker_target ws.
Proof. apply omap_insert_worker. Qed.

Lemma written_set (shared : ref) (t : str) (r : ref) (d : pydict) :
  dict_get t d = Some shared -> r <> shared ->
  written shared (dict_set t r d) ≡ₚ r :: written shared d.
Proof.
  unfold written. intros Hg Hr.
  induction d as [|[k v] d IH]; simpl in *; [discriminate|].
  destruct (bool_decide (k = t)); simpl.
  - injection Hg as ->. rewrite filter_cons_True by exact Hr.
    rewrite (filter_cons_False _ shared) by (intros H; apply H; reflexivity).
    reflexivity.
  - rewrite !filter_cons. destruct (decide (v <> shared)).
    + rewrite (IH Hg). apply Permutation_swap.
    + apply IH, Hg.
Qed.

(** Two keys that hold the same object other than the initial one are one
    key. *)
Lemma written_distinct (shared : ref) (d : pydict) (k k' : str) (r : ref) :
  NoDup (dict_keys d) -> NoDup (written shared d) ->
  dict_get k d = Some r -> dict_get k' d = Some r -> r <> shared -> k = k'.
Proof.
  unfold written, dict_keys. intros Hk Hw Hg Hg' Hr.
  induction d as [|[k0 v] d IH]; simpl in *; [discriminate|].
  apply NoDup_cons in Hk as [Hk0 Hk].
  assert (Hin : forall x, dict_get x d = Some r ->
                          r ∈ filter (fun r => r <> shared) (map snd d)).
  { intros x Hx. apply list_elem_of_filter. split; [exact Hr|].
    clear -Hx. induction d as [|[k1 v1] d IH]; simpl in *; [discriminate|].
    destruct (bool_decide (k1 = x)); [injection Hx as ->; left|].
    right. apply IH, Hx. }
  destruct (bool_decide_reflect (k0 = k)) as [E|Hne],
           (bool_decide_reflect (k0 = k')) as [E'|Hne']; [congruence| | |].
  - injection Hg as ->. rewrite filter_cons_True in Hw by exact Hr.
    apply NoDup_cons in Hw as [Hw _]. exfalso. apply Hw, (Hin k'), Hg'.
  - injection Hg' as ->. rewrite filter_cons_True in Hw by exact Hr.
    apply NoDup_cons in Hw as [Hw _]. exfalso. apply Hw, (Hin k), Hg.
  - apply IH; auto. rewrite filter_cons in Hw.
    destruct (decide (v <> shared)); [apply NoDup_cons in Hw; tauto | exact Hw].
Qed.

Lemma elem_of_insert_worker (ws : list worker) (i : nat) (w x : worker) :
  x ∈ <[i := w]> ws -> x = w \/ x ∈ ws.
Proof.
  revert i. induction ws as [|y ws IH]; intros i; simpl.
  - intros H. inversion H.
  - destruct i as [|i]; simpl; intros H; apply elem_of_cons in H as [->|H].
    + left; reflexivity.
    + right; right; exact H.
    + right; left.
    + destruct (IH i H) as [->|H']; [left; reflexivity | right; right; exact H'].
Qed.

Lemma busy_pick (m : pool) (i : nat) (t : str) (q : list str) :
  workers m !! i = Some Idle -> queue m = t :: q ->
  q ++ omap worker_target (<[i := Running t]> (workers m)) ≡ₚ busy m.
Proof.
  intros Hw Hq. unfold busy. rewrite Hq.
  pose proof (omap_insert_target _ i Idle (Running t) Hw) as H.
  simpl in H. rewrite H. simpl. symmetry. apply Permutation_middle.
Qed.

Lemma busy_hold (m : pool) (i : nat) (t : str) (r : ref) :
  workers m !! i = Some (Running t) ->
  queue m ++ omap worker_target (<[i := Holding t r]> (workers m)) ≡ₚ busy m.
Proof.
  intros Hw. unfold busy. apply Permutation_app_head.
  pose proof (omap_insert_target _ i (Running t) (Holding t r) Hw) as H.
  simpl in H. apply Permutation_cons_inv in H. exact H.
Qed.

Lemma busy_release (m : pool) (i : nat) (w : worker) (t : str) :
  workers m !! i = Some w -> worker_target w = Some t ->
  t :: queue m ++ omap worker_target (<[i := Idle]> (workers m)) ≡ₚ busy m.
Proof.
  intros Hw Ht. unfold busy.
  pose proof (omap_insert_target _ i w Idle Hw) as H.
  rewrite Ht in H. simpl in H. rewrite <- H. apply Permutation_middle.
Qed.

Section PoolFacts.
Context {F : PyFloat} (env : Env) (p0 : Pinger) (shared : ref).

Lemma probe_config (d : pydict) (p : Pinger) (t : str) :
  probe env (with_target_dict d p) t = probe env p t.
Proof. reflexivity. Qed.

Lemma expected_raise (k : str) (e : exn) :
  probe env p0 k = Raise e -> expected env p0 k = PingResult_zero.
Proof. unfold expected. intros ->. reflexivity. Qed.

Lemma expected_ok (k : str) (o : PingResult) :
  probe env p0 k = Ok o -> expected env p0 k = o.
Proof. unfold expected. intros ->. reflexivity. Qed.

(** A thread that takes the next call of the queue. *)
Lemma step_pick_inv (m : pool) (i : nat) (t : str) (q : list str) :
  pool_inv env p0 shared m ->
  workers m !! i = Some Idle -> queue m = t :: q ->
  pool_inv env p0 shared
    {| pinger := pinger m; store := store m; queue := q;
       workers := <[i := Running t]> (workers m); futures := futures m |}.
Proof.
  intros Inv Hw Hq. pose proof (busy_pick m i t q Hw Hq) as Hb.
  pose proof (omap_insert_worker worker_ref _ i Idle (Running t) Hw) as Ho.
  simpl in Ho.
  constructor; simpl; try apply Inv.
  - unfold busy; simpl. rewrite Hb. apply Inv.
  - intros k Hk. apply Inv. rewrite <- Hb. exact Hk.
  - intros k Hk. apply Inv. rewrite <- Hb. exact Hk.
  - intros k Hk Hnb. apply Inv; [exact Hk|]. rewrite <- Hb. exact Hnb.
  - intros t' r H. apply elem_of_insert_worker in H as [H|H]; [discriminate|].
    apply Inv, H.
  - intros k e H. destruct (inv_futures _ _ _ _ Inv k e H) as [Hp Hnb].
    split; [exact Hp|]. unfold busy; simpl. rewrite Hb. exact Hnb.
  - intros k e Hk Hnb Hp. apply (inv_raised _ _ _ _ Inv k e Hk); [|exact Hp].
    rewrite <- Hb. exact Hnb.
  - unfold owned; simpl. rewrite Ho. apply Inv.
  - intros r Hr. apply Inv. unfold owned in *; simpl in *.
    rewrite <- Ho. exact Hr.
  - intros r Hr. apply Inv. unfold owned in *; simpl in *.
    rewrite <- Ho. exact Hr.
Qed.

(** A thread whose probe returned. *)
Lemma step_hold_inv (m : pool) (i : nat) (t : str) (o : PingResult) :
  pool_inv env p0 shared m ->
  workers m !! i = Some (Running t) -> probe env p0 t = Ok o ->
  pool_inv env p0 shared
    {| pinger := pinger m; store := store m ++ [o]; queue := queue m;
       workers := <[i := Holding t (length (store m))]> (workers m);
       futures := futures m |}.
Proof.
  intros Inv Hw Hp.
  pose proof (busy_hold m i t (length (store m)) Hw) as Hb.
  pose proof (omap_insert_worker worker_ref _ i (Running t)
                (Holding t (length (store m))) Hw) as Ho.
  simpl in Ho.
  constructor; simpl; try apply Inv.
  - apply lookup_app_l_Some, Inv.
  - unfold busy; simpl. rewrite Hb. apply Inv.
  - intros k Hk. apply Inv. rewrite <- Hb. exact Hk.
  - intros k Hk. apply Inv. rewrite <- Hb. exact Hk.
  - intros k Hk Hnb.
    destruct (inv_done _ _ _ _ Inv k Hk) as (r & Hr & Hs & Hsh).
    { rewrite <- Hb. exact Hnb. }
    exists r. split; [exact Hr|]. split; [|exact Hsh].
    apply lookup_app_l_Some, Hs.
  - intros t' r H. apply elem_of_insert_worker in H as [[= -> ->]|H].
    + exists o. split; [exact Hp|]. split.
      * apply list_lookup_middle. reflexivity.
      * pose proof (lookup_lt_Some _ _ _ (inv_shared _ _ _ _ Inv)). lia.
    + destruct (inv_holding _ _ _ _ Inv t' r H) as (o' & Ho' & Hs & Hne).
      exists o'. split; [exact Ho'|]. split; [|exact Hne].
      apply lookup_app_l_Some, Hs.
  - intros k e H. destruct (inv_futures _ _ _ _ Inv k e H) as [Hp' Hnb].
    split; [exact Hp'|]. unfold busy; simpl. rewrite Hb. exact Hnb.
  - intros k e Hk Hnb Hp'. apply (inv_raised _ _ _ _ Inv k e Hk); [|exact Hp'].
    rewrite <- Hb. exact Hnb.
  - unfold owned; simpl. rewrite Ho. simpl. apply NoDup_cons. split.
    + intros Hin. apply (inv_owned_bound _ _ _ _ Inv) in Hin. lia.
    + apply Inv.
  - intros r Hr. rewrite length_app. simpl.
    unfold owned in Hr; simpl in Hr. rewrite Ho in Hr. simpl in Hr.
    apply elem_of_cons in Hr as [->|Hr]; [lia|].
    apply (inv_owned_bound _ _ _ _ Inv) in Hr. lia.
  - intros r Hr.
    unfold owned in Hr; simpl in Hr. rewrite Ho in Hr. simpl in Hr.
    apply elem_of_cons in Hr as [->|Hr].
    + apply (lookup_lt_Some _ _ _ (inv_shared _ _ _ _ Inv)).
    + apply (inv_owned_fresh _ _ _ _ Inv), Hr.
Qed.

(** A thread whose probe raised: the exception goes to the future. *)
Lemma step_raise_inv (m : pool) (i : nat) (t : str) (o : PingResult) (e : exn) :
  pool_inv env p0 shared m ->
  workers m !! i = Some (Running t) -> probe env p0 t = Raise e ->
  pool_inv env p0 shared
    {| pinger := pinger m; store := store m ++ [o]; queue := queue m;
       workers := <[i := Idle]> (workers m);
       futures := futures m ++ [(t, e)] |}.
Proof.
  intros Inv Hw Hp.
  pose proof (busy_release m i (Running t) t Hw eq_refl) as Hb.
  pose proof (omap_insert_worker worker_ref _ i (Running t) Idle Hw) as Ho.
  simpl in Ho.
  pose proof (inv_busy_nodup _ _ _ _ Inv) as Hnd. rewrite <- Hb in Hnd.
  apply NoDup_cons in Hnd as [Ht Hnd].
  assert (Hsub : forall k, k ∈ queue m ++ omap worker_target (<[i := Idle]> (workers m))
                           -> k ∈ busy m).
  { intros k Hk. rewrite <- Hb. right. exact Hk. }
  constructor; simpl; try apply Inv.
  - apply lookup_app_l_Some, Inv.
  - exact Hnd.
  - intros k Hk. apply Inv, Hsub, Hk.
  - intros k Hk. apply Inv, Hsub, Hk.
  - intros k Hk Hnb. destruct (decide (k = t)) as [->|Hne].
    + exists shared. split; [|split].
      * apply Inv. rewrite <- Hb. left.
      * rewrite (expected_raise t e Hp). apply lookup_app_l_Some, Inv.
      * split; [eauto | reflexivity].
    + destruct (inv_done _ _ _ _ Inv k Hk) as (r & Hr & Hs & Hsh).
      { rewrite <- Hb. intros H. apply elem_of_cons in H as [H|H]; auto. }
      exists r. split; [exact Hr|]. split; [|exact Hsh].
      apply lookup_app_l_Some, Hs.
  - intros t' r H. apply elem_of_insert_worker in H as [H|H]; [discriminate|].
    destruct (inv_holding _ _ _ _ Inv t' r H) as (o' & Ho' & Hs & Hne).
    exists o'. split; [exact Ho'|]. split; [|exact Hne].
    apply lookup_app_l_Some, Hs.
  - intros k e' H. apply elem_of_app in H as [H|H].
    + destruct (inv_futures _ _ _ _ Inv k e' H) as [Hp' Hnb].
      split; [exact Hp'|]. intros Hk. apply Hnb, Hsub, Hk.
    + apply list_elem_of_singleton in H as [= -> ->]. split; [exact Hp | exact Ht].
  - intros k e' H. apply elem_of_app in H as [H|H].
    + apply (inv_futures_keys _ _ _ _ Inv k e' H).
    + apply list_elem_of_singleton in H as [= -> ->].
      apply Inv. rewrite <- Hb. left.
  - intros k e' Hk Hnb Hp'. apply elem_of_app.
    destruct (decide (k = t)) as [->|Hne].
    + right. apply list_elem_of_singleton. congruence.
    + left. apply (inv_raised _ _ _ _ Inv k e' Hk); [|exact Hp'].
      rewrite <- Hb. intros H. apply elem_of_cons in H as [H|H]; auto.
  - rewrite fmap_app. simpl. apply NoDup_app. split; [apply Inv|]. split.
    + intros k Hk Hk'. apply list_elem_of_singleton in Hk'. subst k.
      apply list_elem_of_fmap in Hk as ([k e'] & Heq & Hin). simpl in Heq.
      subst k. destruct (inv_futures _ _ _ _ Inv t e' Hin) as [_ Hnb].
      apply Hnb. rewrite <- Hb. left.
    + apply NoDup_singleton.
  - unfold owned; simpl. rewrite Ho. apply Inv.
  - intros r Hr. rewrite length_app. simpl.
    unfold owned in Hr; simpl in Hr. rewrite Ho in Hr.
    apply (inv_owned_bound _ _ _ _ Inv) in Hr. lia.
  - intros r Hr. unfold owned in Hr; simpl in Hr. rewrite Ho in Hr.
    apply (inv_owned_fresh _ _ _ _ Inv), Hr.
Qed.

(** A thread that assigns its result to its key. *)
Lemma step_write_inv (m : pool) (i : nat) (t : str) (r : ref) :
  pool_inv env p0 shared m ->
  workers m !! i = Some (Holding t r) ->
  pool_inv env p0 shared
    {| pinger :=
         with_target_dict (dict_set t r (_target_dict (pinger m))) (pinger m);
       store := store m; queue := queue m;
       workers := <[i := Idle]> (workers m); futures := futures m |}.
Proof.
  intros Inv Hw.
  pose proof (busy_release m i (Holding t r) t Hw eq_refl) as Hb.
  pose proof (omap_insert_worker worker_ref _ i (Holding t r) Idle Hw) as Hor.
  simpl in Hor.
  pose proof (inv_busy_nodup _ _ _ _ Inv) as Hnd. rewrite <- Hb in Hnd.
  apply NoDup_cons in Hnd as [Ht Hnd].
  assert (Hsub : forall k, k ∈ queue m ++ omap worker_target (<[i := Idle]> (workers m))
                           -> k ∈ busy m).
  { intros k Hk. rewrite <- Hb. right. exact Hk. }
  assert (Htb : t ∈ busy m) by (rewrite <- Hb; left).
  assert (Htk : t ∈ dict_keys (_target_dict (pinger m))).
  { rewrite (inv_keys _ _ _ _ Inv). apply Inv, Htb. }
  destruct (inv_holding _ _ _ _ Inv t r) as (o & Ho & Hs & Hrs).
  { eapply list_elem_of_lookup_2, Hw. }
  assert (Hown : omap worker_ref (<[i := Idle]> (workers m))
                 ++ written shared (dict_set t r (_target_dict (pinger m)))
                 ≡ₚ owned shared m).
  { rewrite written_set; [|apply Inv, Htb|exact Hrs].
    rewrite <- Permutation_middle. unfold owned. rewrite <- Hor. reflexivity. }
  constructor; simpl; try apply Inv.
  - rewrite (inv_config _ _ _ _ Inv) at 2. reflexivity.
  - rewrite dict_keys_set_in by exact Htk. apply Inv.
  - exact Hnd.
  - intros k Hk. apply Inv, Hsub, Hk.
  - intros k Hk. rewrite dict_get_set_ne.
    + apply Inv, Hsub, Hk.
    + intros ->. exact (Ht Hk).
  - intros k Hk Hnb. destruct (decide (k = t)) as [->|Hne].
    + exists r. rewrite dict_get_set_eq. split; [reflexivity|]. split.
      * rewrite (expected_ok t o Ho). exact Hs.
      * split; [intros ->; congruence|]. intros [e He]. congruence.
    + rewrite dict_get_set_ne by exact Hne.
      apply Inv; [exact Hk|].
      rewrite <- Hb. intros H. apply elem_of_cons in H as [H|H]; auto.
  - intros t' r' H. apply elem_of_insert_worker in H as [H|H]; [discriminate|].
    apply Inv, H.
  - intros k e H. destruct (inv_futures _ _ _ _ Inv k e H) as [Hp' Hnb].
    split; [exact Hp'|]. intros Hk. apply Hnb, Hsub, Hk.
  - intros k e Hk Hnb Hp'. apply (inv_raised _ _ _ _ Inv k e Hk); [|exact Hp'].
    rewrite <- Hb. intros H. apply elem_of_cons in H as [H|H]; [|auto].
    congruence.
  - rewrite Hown. apply Inv.
  - intros r' Hr'. apply Inv. rewrite <- Hown. exact Hr'.
  - intros r' Hr'. apply (inv_owned_fresh _ _ _ _ Inv). rewrite <- Hown.
    exact Hr'.
Qed.

Lemma step_inv (m m' : pool) (i : nat) :
  pool_inv env p0 shared m -> step env i m = Some m' ->
  pool_inv env p0 shared m'.
Proof.
  intros Inv. unfold step.
  destruct (workers m !! i) as [[|t|t r]|] eqn:Hw; [| | |discriminate].
  - destruct (queue m) as [|t q] eqn:Hq; [discriminate|].
    intros [= <-]. apply step_pick_inv; assumption.
  - destruct (_ping_it_spec env (pinger m) t (store m)) as (o' & -> & V).
    assert (Hc : probe env (pinger m) t = probe env p0 t)
      by (rewrite (inv_config _ _ _ _ Inv); apply probe_config).
    rewrite Hc in *.
    destruct (probe env p0 t) as [o|e] eqn:Hp; simpl; intros [= <-].
    + rewrite (V o eq_refl). apply step_hold_inv; assumption.
    + eapply step_raise_inv; eassumption.
  - intros [= <-]. apply step_write_inv; assumption.
Qed.

Lemma steps_inv (m m' : pool) :
  steps env m m' -> pool_inv env p0 shared m -> pool_inv env p0 shared m'.
Proof.
  induction 1 as [m|m m1 m2 [i Hi] _ IH]; intros Inv; [exact Inv|].
  apply IH. eapply step_inv; eauto.
Qed.

End PoolFacts.

(** *** The pool at its start *)

Lemma omap_idle (n : nat) : omap worker_target (replicate n Idle) = [].
Proof. induction n; simpl; auto. Qed.

Lemma dict_get_values (k : str) (v s : ref) (d : pydict) :
  Forall (fun e => e.2 = s) d -> dict_get k d = Some v -> v = s.
Proof.
  induction 1 as [|[k' v'] d Hv _ IH]; simpl; [discriminate|].
  destruct (bool_decide (k' = k)); [|exact IH].
  intros [= <-]. exact Hv.
Qed.

Lemma omap_ref_idle (n : nat) : omap worker_ref (replicate n Idle) = [].
Proof. induction n; simpl; auto. Qed.

Lemma written_shared (shared : ref) (d : pydict) :
  Forall (fun e => e.2 = shared) d -> written shared d = [].
Proof.
  unfold written. induction 1 as [|[k v] d Hv _ IH]; simpl in *; [reflexivity|].
  rewrite filter_cons_False by (intros H; apply H; exact Hv). exact IH.
Qed.

Section PoolRuns.
Context {F : PyFloat} (env : Env).

Lemma init_pool_inv (max_workers : nat) (p0 : Pinger) (shared : ref) (h : heap) :
  NoDup (dict_keys (_target_dict p0)) ->
  Forall (fun e => e.2 = shared) (_target_dict p0) ->
  h !! shared = Some PingResult_zero ->
  pool_inv env p0 shared (init_pool max_workers p0 h).
Proof.
  intros Hnd Hv Hs.
  assert (Hb : busy (init_pool max_workers p0 h) = dict_keys (_target_dict p0)).
  { unfold busy; simpl. rewrite omap_idle, app_nil_r. reflexivity. }
  assert (Ho : owned shared (init_pool max_workers p0 h) = []).
  { unfold owned; simpl. rewrite omap_ref_idle, written_shared by exact Hv.
    reflexivity. }
  constructor; rewrite ?Hb, ?Ho; simpl; auto.
  - destruct p0; reflexivity.
  - intros k Hk. destruct (dict_get_key k _ Hk) as [v Hg].
    rewrite Hg. f_equal. eapply dict_get_values; eauto.
  - intros k Hk Hnk. contradiction.
  - intros t r H. apply elem_of_replicate in H as [[=] _].
  - intros k e H. inversion H.
  - intros k e H. inversion H.
  - intros k e Hk Hnk. contradiction.
  - constructor.
  - constructor.
  - intros r H. inversion H.
  - intros r H. inversion H.
Qed.

(** *** Every run ends *)

Lemma weight_insert (ws : list worker) (i : nat) (w w' : worker) :
  ws !! i = Some w ->
  (sum_list (weight <$> <[i := w']> ws) + weight w
   = sum_list (weight <$> ws) + weight w')%nat.
Proof.
  revert i. induction ws as [|x ws IH]; intros [|i]; csimpl; try discriminate.
  - intros [= ->]. lia.
  - intros H. specialize (IH i H). lia.
Qed.

Lemma step_remaining (i : nat) (m m' : pool) :
  step env i m = Some m' -> (remaining m' < remaining m)%nat.
Proof.
  unfold step, remaining.
  destruct (workers m !! i) as [[|t|t r]|] eqn:Hw; [| | |discriminate].
  - destruct (queue m) as [|t q]; [discriminate|]. intros [= <-]. simpl.
    pose proof (weight_insert _ i Idle (Running t) Hw). simpl in *. lia.
  - destruct (_ping_it env (pinger m) t (store m)) as [h [r|e]];
      intros [= <-]; simpl.
    + pose proof (weight_insert _ i (Running t) (Holding t r) Hw).
      simpl in *. lia.
    + pose proof (weight_insert _ i (Running t) Idle Hw). simpl in *. lia.
  - intros [= <-]. simpl.
    pose proof (weight_insert _ i (Holding t r) Idle Hw). simpl in *. lia.
Qed.

Lemma step_workers_length (i : nat) (m m' : pool) :
  step env i m = Some m' -> length (workers m') = length (workers m).
Proof.
  unfold step.
  destruct (workers m !! i) as [[|t|t r]|]; [| | |discriminate].
  - destruct (queue m); [discriminate|]. intros [= <-]. apply length_insert.
  - destruct (_ping_it env (pinger m) t (store m)) as [h [r|e]];
      intros [= <-]; apply length_insert.
  - intros [= <-]. apply length_insert.
Qed.

Lemma not_all_idle (ws : list worker) :
  forallb is_idle ws = false ->
  exists i w, ws !! i = Some w /\ is_idle w = false.
Proof.
  induction ws as [|x ws IH]; simpl; [discriminate|].
  destruct (is_idle x) eqn:E; simpl.
  - intros H. destruct (IH H) as (i & w & Hi & Hw). exists (S i), w. auto.
  - intros _. exists 0%nat, x. auto.
Qed.

(** A pool that is not done has a thread that can take a step. *)
Lemma pool_progress (m : pool) :
  (0 < length (workers m))%nat ->
  terminal m \/ exists i m', step env i m = Some m'.
Proof.
  intros Hw. unfold terminal.
  destruct (forallb is_idle (workers m)) eqn:Hidle.
  - destruct (queue m) as [|t q] eqn:Hq; [left; auto|]. right.
    destruct (workers m) as [|w ws] eqn:E; [simpl in Hw; lia|].
    exists 0%nat. unfold step. rewrite E, Hq. simpl in *.
    destruct w; try discriminate. eauto.
  - right. destruct (not_all_idle _ Hidle) as (i & w & Hi & Hni).
    exists i. unfold step. rewrite Hi.
    destruct w as [|t|t r]; [discriminate| |eauto].
    destruct (_ping_it env (pinger m) t (store m)) as [h [r|e]]; eauto.
Qed.

Lemma pool_completes_within (n : nat) (m : pool) :
  (remaining m <= n)%nat -> (0 < length (workers m))%nat ->
  exists m', steps env m m' /\ terminal m'.
Proof.
  revert m. induction n as [|n IH]; intros m Hn Hw;
    (destruct (pool_progress m Hw) as [Ht|(i & m1 & Hs)];
     [exists m; split; [constructor | exact Ht]|]);
    pose proof (step_remaining i m m1 Hs) as Hlt; [lia|].
  destruct (IH m1) as (m' & Hsteps & Hterm); [lia | |].
  - rewrite (step_workers_length i m m1 Hs). exact Hw.
  - exists m'. split; [|exact Hterm].
    econstructor; [exists i; exact Hs | exact Hsteps].
Qed.

(** From any state of a pool with a thread, the end can be reached. *)
Lemma pool_completes (m : pool) :
  (0 < length (workers m))%nat -> exists m', steps env m m' /\ terminal m'.
Proof. apply (pool_completes_within (remaining m)). lia. Qed.

(** No schedule is longer than [remaining]. *)
Lemma exec_bound (sched : list nat) (m m' : pool) :
  exec env sched m = Some m' ->
  (length sched + remaining m' <= remaining m)%nat.
Proof.
  revert m. induction sched as [|i sched IH]; simpl; intros m.
  - intros [= <-]. lia.
  - destruct (step env i m) as [m1|] eqn:Hs; [|discriminate].
    intros H. specialize (IH _ H). pose proof (step_remaining i m m1 Hs). lia.
Qed.

Lemma steps_exec (m m' : pool) :
  steps env m m' <-> exists sched, exec env sched m = Some m'.
Proof.
  split.
  - induction 1 as [m|m m1 m2 [i Hi] _ (sched & IH)].
    + exists []. reflexivity.
    + exists (i :: sched). simpl. rewrite Hi. exact IH.
  - intros [sched H]. revert m H.
    induction sched as [|i sched IH]; simpl; intros m.
    + intros [= <-]. constructor.
    + destruct (step env i m) as [m1|] eqn:Hs; [|discriminate].
      intros H. econstructor; [exists i; exact Hs | apply IH, H].
Qed.

Lemma steps_trans (m1 m2 m3 : pool) :
  steps env m1 m2 -> steps env m2 m3 -> steps env m1 m3.
Proof.
  induction 1 as [|m m' m'' Hs _ IH]; [auto|].
  intros H. econstructor; [exact Hs | apply IH, H].
Qed.

Lemma steps_workers_length (m m' : pool) :
  steps env m m' -> length (workers m') = length (workers m).
Proof.
  induction 1 as [|m m1 m2 [i Hi] _ IH]; [reflexivity|].
  rewrite IH. eapply step_workers_length, Hi.
Qed.

(** *** Objects are never changed after the step that made them *)

Lemma step_store (i : nat) (m m' : pool) :
  step env i m = Some m' -> store m `prefix_of` store m'.
Proof.
  unfold step.
  destruct (workers m !! i) as [[|t|t r]|]; [| | |discriminate].
  - destruct (queue m); [discriminate|]. intros [= <-]. reflexivity.
  - destruct (_ping_it_spec env (pinger m) t (store m)) as (o & -> & _).
    destruct (probe env (pinger m) t); simpl; intros [= <-];
      apply prefix_app_r; reflexivity.
  - intros [= <-]. reflexivity.
Qed.

Lemma steps_store (m m' : pool) :
  steps env m m' -> store m `prefix_of` store m'.
Proof.
  induction 1 as [|m m1 m2 [i Hi] _ IH]; [reflexivity|].
  etransitivity; [eapply step_store, Hi | exact IH].
Qed.

(** *** The pool at its end *)

Lemma omap_all_idle (ws : list worker) :
  forallb is_idle ws = true -> omap worker_target ws = [].
Proof.
  induction ws as [|w ws IH]; simpl; [reflexivity|].
  intros H. apply andb_prop in H as [Hw H]. destruct w; try discriminate.
  simpl. auto.
Qed.

Lemma terminal_busy (m : pool) : terminal m -> busy m = [].
Proof. intros [Hq Hi]. unfold busy. rewrite Hq, omap_all_idle by exact Hi. reflexivity. Qed.

Lemma items_expected (d : pydict) (h : heap) (E : str -> PingResult) :
  (forall k r, (k, r) ∈ d -> h !! r = Some (E k)) ->
  omap (fun '(k, r) => pair k <$> h !! r) d
  = map (fun k => (k, E k)) (dict_keys d).
Proof.
  unfold dict_keys. induction d as [|[k r] d IH]; simpl; intros H; [reflexivity|].
  rewrite (H k r) by left. simpl. f_equal. apply IH.
  intros k' r' Hin. apply H. right. exact Hin.
Qed.

(** At the end every key holds the value of its probe, or the initial
    result when its probe raised; the keys are those of the start, in their
    order. *)
Lemma pool_result (p0 : Pinger) (shared : ref) (m : pool) :
  NoDup (dict_keys (_target_dict p0)) ->
  pool_inv env p0 shared m -> terminal m ->
  dict_keys (results (pinger m)) = dict_keys (_target_dict p0)
  /\ items (pinger m) (store m)
     = map (fun k => (k, expected env p0 k)) (dict_keys (_target_dict p0)).
Proof.
  intros Hnd Inv Hterm. pose proof (terminal_busy m Hterm) as Hb.
  split; [apply Inv|]. unfold items, results.
  rewrite <- (inv_keys _ _ _ _ Inv). apply items_expected.
  intros k r Hin.
  assert (Hk : k ∈ dict_keys (_target_dict (pinger m))).
  { apply list_elem_of_fmap. exists (k, r). auto. }
  destruct (inv_done _ _ _ _ Inv k) as (r' & Hr' & Hs & _).
  - rewrite <- (inv_keys _ _ _ _ Inv). exact Hk.
  - rewrite Hb. apply not_elem_of_nil.
  - rewrite (dict_get_elem k r) in Hr'; [|rewrite (inv_keys _ _ _ _ Inv); exact Hnd|exact Hin].
    injection Hr' as <-. exact Hs.
Qed.

End PoolRuns.

(** ** A run of [ping_targets] on a fresh [Pinger] *)

Section Run.
Context {F : PyFloat} (env : Env).

Lemma Pinger_init_list (targets : list str) (h h1 : heap) (p : Pinger) :
  Pinger_init env (TargetList targets) h = (h1, Ok p) ->
  h1 = h ++ [PingResult_zero]
  /\ _target_dict p = dict_fromkeys targets (length h)
  /\ _source_host p = gethostname env.
Proof.
  rewrite Pinger_init_spec. intros [= <- <-]. auto.
Qed.



(** The invariant holds along every run that starts with all entries on the
    one initial object. *)
Lemma run_inv (max_workers : nat) (targets : list str) (h : heap)
    (p0 : Pinger) (m : pool) :
  _target_dict p0 = dict_fromkeys targets (length h) ->
  steps env (init_pool max_workers p0 (h ++ [PingResult_zero])) m ->
  pool_inv env p0 (length h) m.
Proof.
  intros Hd Hsteps. eapply steps_inv; [exact Hsteps|].
  destruct (dict_fromkeys_spec targets (length h)) as (Hnd & _ & _ & _ & Hv).
  apply init_pool_inv; rewrite ?Hd; auto.
  apply list_lookup_middle. reflexivity.
Qed.

Lemma fresh_has_worker (targets : list str) (p0 : Pinger) (v : ref) :
  targets <> [] -> _target_dict p0 = dict_fromkeys targets v ->
  0 < num_workers p0.
Proof.
  intros Hne Hd. unfold num_workers, DEFAULTS.MAX_THREADS. rewrite Hd.
  destruct (dict_fromkeys_spec targets v) as (_ & Hel & _).
  destruct targets as [|t ts]; [congruence|].
  destruct (dict_fromkeys (t :: ts) v) as [|e d] eqn:E.
  - exfalso. specialize (Hel t). simpl in Hel.
    destruct Hel as [_ Hel]. specialize (Hel ltac:(left)). inversion Hel.
  - simpl length. lia.
Qed.

(** What a run of [ping_targets] leaves, whatever the schedule. *)
Lemma ping_targets_ok (targets : list str) (h h1 h' : heap)
    (p p' : Pinger) (t0 t1 : Z) :
  Pinger_init env (TargetList targets) h = (h1, Ok p) ->
  ping_targets env p h1 t0 t1 (Ok tt) p' h' ->
  dict_keys (results p') = dict_keys (results p)
  /\ items p' h'
     = map (fun k => (k, expected env p k)) (dict_keys (results p))
  /\ _source_host p' = gethostname env.
Proof.
  intros Hinit Hrun.
  destruct (Pinger_init_list targets h h1 p Hinit) as (-> & Hd & Hhost).
  inversion Hrun as [|m Hw Hsteps Hterm]; subst.
  assert (Inv : pool_inv env (with_start_time (Some t0) p) (length h) m)
    by (eapply run_inv; [exact Hd | exact Hsteps]).
  destruct (pool_result env (with_start_time (Some t0) p) (length h) m)
    as [Hk Hi]; [|exact Inv|exact Hterm|].
  - simpl. rewrite Hd. apply dict_fromkeys_spec.
  - split; [exact Hk|]. split; [exact Hi|].
    simpl. rewrite (inv_config _ _ _ _ Inv). exact Hhost.
Qed.

Lemma ping_targets_result (targets : list str) (h h1 h' : heap)
    (p p' : Pinger) (t0 t1 : Z) (res : result unit) :
  targets <> [] ->
  Pinger_init env (TargetList targets) h = (h1, Ok p) ->
  ping_targets env p h1 t0 t1 res p' h' ->
  res = Ok tt
  /\ dict_keys (results p') = dict_keys (results p)
  /\ items p' h'
     = map (fun k => (k, expected env p k)) (dict_keys (results p)).
Proof.
  intros Hne Hinit Hrun.
  assert (Hres : res = Ok tt).
  { destruct (Pinger_init_list targets h h1 p Hinit) as (_ & Hd & _).
    inversion Hrun as [Hw|m Hw Hsteps Hterm]; subst; [|reflexivity].
    pose proof (fresh_has_worker targets p (length h) Hne Hd). lia. }
  subst res. split; [reflexivity|].
  destruct (ping_targets_ok targets h h1 h' p p' t0 t1 Hinit Hrun)
    as (Hk & Hi & _).
  split; assumption.
Qed.

Lemma ping_targets_completes (targets : list str) (h h1 : heap) (p : Pinger)
    (t0 t1 : Z) :
  targets <> [] ->
  Pinger_init env (TargetList targets) h = (h1, Ok p) ->
  exists p' h', ping_targets env p h1 t0 t1 (Ok tt) p' h'.
Proof.
  intros Hne Hinit.
  destruct (Pinger_init_list targets h h1 p Hinit) as (-> & Hd & _).
  pose proof (fresh_has_worker targets p (length h) Hne Hd) as Hw.
  destruct (pool_completes env
              (init_pool (Z.to_nat (num_workers p))
                 (with_start_time (Some t0) p) (h ++ [PingResult_zero])))
    as (m & Hsteps & Hterm).
  - simpl. rewrite length_replicate. lia.
  - exists (with_end_time (Some t1) (pinger m)), (store m).
    apply ping_targets_done; assumption.
Qed.

End Run.

(** ** The error message *)

Section ErrorMessage.
Context {F : PyFloat} (env : Env).

Lemma _ping_it_undecodable (self : Pinger) (t : str) (h : heap)
    (process : CompletedProcess) :
  popen env (_ping_cmd env self ++ lit " " ++ t) = Ok process ->
  undecodable process ->
  _ping_it env self t h = (h ++ [PingResult_zero], Raise UnicodeDecodeError)
  /\ probe env self t = Raise UnicodeDecodeError.
Proof.
  intros Hp Hu. unfold _ping_it, probe.
  unfold mbind at 1, M_bind at 1. rewrite PingResult_new_spec.
  unfold mbind, M_bind, result_bind, lift. rewrite Hp.
  destruct Hu as [Hu|Hu].
  - rewrite Hu. split; reflexivity.
  - destruct (decode_utf8 (stdout process)) as [out|e] eqn:E.
    + rewrite Hu. split; reflexivity.
    + unfold decode_utf8 in E. destruct (utf8_points _); [discriminate|].
      injection E as <-. split; reflexivity.
Qed.

Lemma failure_value_message (rc : Z) (err : str) :
  error (failure_value rc err)
  = if (0 <? length err)%nat then strip err
    else lit "(" ++ str_of_int rc ++ lit ")"
         ++ (if rc =? 1 then lit " offline?" else []).
Proof. unfold failure_value. destruct (0 <? length err)%nat; reflexivity. Qed.

(** The error message of the value an entry holds in the end. *)
Lemma expected_error (self : Pinger) (t : str) (process : CompletedProcess) :
  popen env (_ping_cmd env self ++ lit " " ++ t) = Ok process ->
  (returncode process <> 0 ->
   forall out err,
     decode_utf8 (stdout process) = Ok out ->
     decode_utf8 (stderr process) = Ok err ->
     expected env self t = failure_value (returncode process) err)
  /\ (returncode process = 0 -> error (expected env self t) = [])
  /\ (undecodable process -> expected env self t = PingResult_zero).
Proof.
  intros Hp. unfold expected. split; [|split].
  - intros Hrc out err Ho He.
    rewrite (probe_failure env self t process out err Hp Ho He Hrc).
    reflexivity.
  - intros Hrc. destruct (probe env self t) as [o|e] eqn:Hv; [|reflexivity].
    unfold probe, mbind, result_bind in Hv. rewrite Hp, Hrc in Hv.
    destruct (decode_utf8 (stdout process)) as [out|]; [|discriminate].
    destruct (decode_utf8 (stderr process)) as [err|]; [|discriminate].
    simpl in Hv. apply scan_values_error in Hv. exact Hv.
  - intros Hu.
    destruct (_ping_it_undecodable self t [] process Hp Hu) as [_ ->].
    reflexivity.
Qed.

(** C4, as the code has it, for a target whose command ran.  When the
    output is UTF-8 and the command exits with a code other than zero, the
    probe returns a result that has received 0 packets and whose error
    message is the stripped [stderr], or [(rc)], [(1) offline?] for an empty
    [stderr]: a message that is not empty if [stderr] is empty or has a
    character that is not a blank.  When the command exits with zero the
    error message of the result stays empty, whatever the counters.  When
    [stdout] or [stderr] is not UTF-8 the probe raises [UnicodeDecodeError],
    whatever the exit code.  After a run, the entry of the target holds
    what these cases give: the result of the probe, or the initial result,
    with 0 packets received and an empty error message, when the probe
    raised. *)
Theorem error_message (self : Pinger) (t : str) (process : CompletedProcess) :
  popen env (_ping_cmd env self ++ lit " " ++ t) = Ok process ->
  (forall out err,
     decode_utf8 (stdout process) = Ok out ->
     decode_utf8 (stderr process) = Ok err ->
     (returncode process <> 0 ->
      forall h,
        exists o, _ping_it env self t h = (h ++ [o], Ok (length h))
                  /\ packetsReceived o = 0
                  /\ error o
                     = (if (0 <? length err)%nat then strip err
                        else lit "(" ++ str_of_int (returncode process)
                             ++ lit ")"
                             ++ (if returncode process =? 1
                                 then lit " offline?" else []))
                  /\ (err = [] \/ strip err <> [] -> error o <> []))
     /\ (returncode process = 0 ->
         forall h h' r o,
           _ping_it env self t h = (h', Ok r) -> h' !! r = Some o ->
           error o = []))
  /\ (undecodable process ->
      forall h,
        _ping_it env self t h
        = (h ++ [PingResult_zero], Raise UnicodeDecodeError))
  /\ (forall targets h h1 t0 t1 res p' h',
        Pinger_init env (TargetList targets) h = (h1, Ok self) ->
        t ∈ targets ->
        ping_targets env self h1 t0 t1 res p' h' ->
        exists o,
          (t, o) ∈ items p' h'
          /\ (forall o', (t, o') ∈ items p' h' -> o' = o)
          /\ (returncode process <> 0 ->
              forall out err,
                decode_utf8 (stdout process) = Ok out ->
                decode_utf8 (stderr process) = Ok err ->
                packetsReceived o = 0
                /\ error o
                   = (if (0 <? length err)%nat then strip err
                      else lit "(" ++ str_of_int (returncode process)
                           ++ lit ")"
                           ++ (if returncode process =? 1
                               then lit " offline?" else []))
                /\ (err = [] \/ strip err <> [] -> error o <> []))
          /\ (returncode process = 0 -> error o = [])
          /\ (undecodable process ->
              packetsReceived o = 0 /\ error o = [])).
Proof.
  intros Hp. split; [|split].
  - intros out err Ho He. split.
    + intros Hrc h. exists (failure_value (returncode process) err).
      split; [|split; [|split]].
      * apply _ping_it_returns. eapply probe_failure; eauto.
      * unfold packetsReceived.
        destruct (failure_value_counters (returncode process) err) as [-> _].
        reflexivity.
      * apply failure_value_message.
      * apply failure_value_error.
    + intros Hrc h h' r o Hrun Hobj.
      apply (_ping_it_value env self t h h' r o Hrun) in Hobj as (Hv & _ & _).
      rewrite (probe_success env self t process out err Hp Ho He Hrc) in Hv.
      apply scan_values_error in Hv. exact Hv.
  - intros Hu h. apply (_ping_it_undecodable self t h process Hp Hu).
  - intros targets h h1 t0 t1 res p' h' Hinit Ht Hrun.
    assert (Hne : targets <> []) by (intros ->; inversion Ht).
    destruct (ping_targets_result env targets h h1 h' self p' t0 t1 res
                Hne Hinit Hrun) as (_ & _ & Hi).
    destruct (Pinger_init_list env targets h h1 self Hinit) as (_ & Hd & _).
    destruct (dict_fromkeys_spec targets (length h)) as (_ & Hel & _).
    destruct (expected_error self t process Hp) as (Hfail & Hzero & Hraise).
    exists (expected env self t). rewrite Hi.
    split; [|split; [|split; [|split]]].
    + apply list_elem_of_fmap. exists t. split; [reflexivity|].
      unfold results. rewrite Hd. apply Hel, Ht.
    + intros o' Hin. apply list_elem_of_fmap in Hin as (k & [= -> ->] & _).
      reflexivity.
    + intros Hrc out err Ho He. rewrite (Hfail Hrc out err Ho He).
      split; [|split].
      * unfold packetsReceived.
        destruct (failure_value_counters (returncode process) err) as [-> _].
        reflexivity.
      * apply failure_value_message.
      * apply failure_value_error.
    + exact Hzero.
    + intros Hu. rewrite (Hraise Hu). split; reflexivity.
Qed.

End ErrorMessage.

(** ** Entries after their call *)

Section Entries.
Context {F : PyFloat} (env : Env).

Lemma step_busy (i : nat) (m m' : pool) (k : str) :
  step env i m = Some m' -> k ∈ busy m' -> k ∈ busy m.
Proof.
  unfold step.
  destruct (workers m !! i) as [[|t|t r]|] eqn:Hw; [| | |discriminate].
  - destruct (queue m) as [|t q] eqn:Hq; [discriminate|]. intros [= <-].
    unfold busy at 1; simpl. rewrite (busy_pick m i t q Hw Hq). auto.
  - destruct (_ping_it env (pinger m) t (store m)) as [h [r|e]];
      intros [= <-]; unfold busy at 1; simpl.
    + rewrite (busy_hold m i t r Hw). auto.
    + intros H. rewrite <- (busy_release m i (Running t) t Hw eq_refl).
      right. exact H.
  - intros [= <-]. unfold busy at 1; simpl.
    intros H. rewrite <- (busy_release m i (Holding t r) t Hw eq_refl).
    right. exact H.
Qed.

(** A step leaves the entry of every key alone, but for the key of the call
    that assigns its result. *)
Lemma step_entry (i : nat) (m m' : pool) (k : str) :
  step env i m = Some m' -> k ∉ busy m ->
  dict_get k (results (pinger m')) = dict_get k (results (pinger m)).
Proof.
  unfold step.
  destruct (workers m !! i) as [[|t|t r]|] eqn:Hw; [| | |discriminate].
  - destruct (queue m); [discriminate|]. intros [= <-]. reflexivity.
  - destruct (_ping_it env (pinger m) t (store m)) as [h [r|e]];
      intros [= <-]; reflexivity.
  - intros [= <-] Hk. unfold results; simpl. apply dict_get_set_ne.
    intros ->. apply Hk.
    rewrite <- (busy_release m i (Holding t r) t Hw eq_refl). left.
Qed.

Lemma steps_entry (m m' : pool) (k : str) :
  steps env m m' -> k ∉ busy m ->
  dict_get k (results (pinger m')) = dict_get k (results (pinger m)).
Proof.
  induction 1 as [|m m1 m2 [i Hi] _ IH]; intros Hk; [reflexivity|].
  rewrite IH.
  - eapply step_entry; eauto.
  - intros H. apply Hk. eapply step_busy; eauto.
Qed.

End Entries.

(** ** The result map of a run *)

Section ResultMap.
Context {F : PyFloat} (env : Env).


(** C7: the pairs the renderers read come in the order of the target list,
    each target once, at its first place, whatever the schedule; for
    distinct targets the keys are the list itself.  Each pair holds the
    value of the target's probe (the initial result when the probe raised),
    and the rows of [output_csv] and [output_text] follow that order. *)
Theorem render_order (targets : list str) (h h1 h' : heap) (p p' : Pinger)
    (t0 t1 : Z) (timestamp : str) :
  Pinger_init env (TargetList targets) h = (h1, Ok p) ->
  ping_targets env p h1 t0 t1 (Ok tt) p' h' ->
  map fst (items p' h') = dict_keys (results p)
  /\ dict_keys (results p) `sublist_of` targets
  /\ (NoDup targets -> map fst (items p' h') = targets)
  /\ items p' h'
     = map (fun k => (k, expected env p k)) (dict_keys (results p))
  /\ output_csv timestamp p' h'
     = lit "timestamp,source,target,pkt_sent,pkt_recv,pkt_lost,rtt_min,rtt_max,rtt_avg,error"
       :: map (fun k => csv_row timestamp (gethostname env)
                          (k, expected env p k))
            (dict_keys (results p))
  /\ drop 3 (output_text p' h')
     = map (fun k => text_row (gethostname env) (k, expected env p k))
         (dict_keys (results p)).
Proof.
  intros Hinit Hrun.
  destruct (ping_targets_ok env targets h h1 h' p p' t0 t1 Hinit Hrun)
    as (Hk & Hi & Hsrc).
  destruct (Pinger_init_list env targets h h1 p Hinit) as (_ & Hd & _).
  assert (Hfst : map fst (items p' h') = dict_keys (results p)).
  { rewrite Hi, map_map. simpl. apply map_id. }
  destruct (dict_fromkeys_spec targets (length h)) as (_ & _ & Hsub & Heq & _).
  unfold results in *. rewrite Hd in *.
  split; [exact Hfst|]. split; [exact Hsub|].
  split; [intros Hnd; rewrite Hfst; apply Heq, Hnd|].
  split; [exact Hi|]. split.
  - unfold output_csv. rewrite Hsrc, Hi, map_map. reflexivity.
  - unfold output_text. simpl. rewrite Hsrc, Hi, map_map. reflexivity.
Qed.

End ResultMap.

(** ** Failures *)

Section Containment.
Context {F : PyFloat} (env : Env).


End Containment.

(** ** Sharing *)

Section Sharing.
Context {F : PyFloat} (env : Env).

Lemma dict_get_written (shared : ref) (d : pydict) (k : str) (r : ref) :
  dict_get k d = Some r -> r <> shared -> r ∈ written shared d.
Proof.
  unfold written. intros Hg Hr. apply list_elem_of_filter. split; [exact Hr|].
  induction d as [|[k1 v1] d IH]; simpl in *; [discriminate|].
  destruct (bool_decide (k1 = k)); [injection Hg as ->; left|].
  right. apply IH, Hg.
Qed.

Lemma holding_ref (ws : list worker) (t : str) (r : ref) :
  Holding t r ∈ ws -> r ∈ omap worker_ref ws.
Proof.
  intros H. apply list_elem_of_omap. exists (Holding t r). auto.
Qed.

(** C2, as the code has it: [Pinger.__init__] allocates one zero
    [PingResult] and binds every key to that one object.  A run never
    changes an object after the step that made it, and the initial object
    stays zero.  While the call of a target is queued or under way, its key
    stays on the initial object; the object a thread holds between
    [_ping_it] and the assignment was allocated in the run, holds the
    result of the probe and is under no key.  Once the call of a target has
    ended, its key is bound to an object allocated in the run that holds
    the result of its probe, when the probe returned, and is still on the
    initial object when the probe raised; after that neither the object nor
    the entry changes.  No two keys hold the same object but the initial
    one. *)
Theorem entries_share_initial_result (targets : list str) (h h1 : heap)
    (p : Pinger) :
  Pinger_init env (TargetList targets) h = (h1, Ok p) ->
  h1 = h ++ [PingResult_zero]
  /\ (forall k, k ∈ targets -> dict_get k (results p) = Some (length h))
  /\ (forall max_workers m,
        steps env (init_pool max_workers p h1) m ->
        store m !! length h = Some PingResult_zero
        /\ (forall m',
              steps env m m' ->
              store m `prefix_of` store m'
              /\ forall k,
                   k ∉ busy m ->
                   dict_get k (results (pinger m'))
                   = dict_get k (results (pinger m)))
        /\ (forall k k' r,
              dict_get k (results (pinger m)) = Some r ->
              dict_get k' (results (pinger m)) = Some r ->
              r <> length h -> k = k')
        /\ (forall k,
              k ∈ busy m ->
              dict_get k (results (pinger m)) = Some (length h))
        /\ (forall t r,
              Holding t r ∈ workers m ->
              (length h1 <= r < length (store m))%nat
              /\ (exists o, probe env p t = Ok o /\ store m !! r = Some o)
              /\ forall k, dict_get k (results (pinger m)) <> Some r)
        /\ (forall k,
              k ∈ targets -> k ∉ busy m ->
              (forall o,
                 probe env p k = Ok o ->
                 exists r,
                   dict_get k (results (pinger m)) = Some r
                   /\ (length h1 <= r < length (store m))%nat
                   /\ store m !! r = Some o)
              /\ (forall e,
                    probe env p k = Raise e ->
                    dict_get k (results (pinger m)) = Some (length h)))).
Proof.
  intros Hinit.
  destruct (Pinger_init_list env targets h h1 p Hinit) as (-> & Hd & _).
  destruct (dict_fromkeys_spec targets (length h)) as (Hnd & Hel & _ & _ & Hv).
  split; [reflexivity|]. split.
  - intros k Hk. unfold results. rewrite Hd.
    destruct (dict_get_key k (dict_fromkeys targets (length h))) as [v Hg];
      [apply Hel, Hk|].
    rewrite Hg. f_equal. eapply dict_get_values; eauto.
  - intros W m Hsteps.
    pose proof (run_inv env W targets h p m Hd Hsteps) as Inv.
    assert (Hlen : length (h ++ [PingResult_zero]) = S (length h))
      by (rewrite length_app; simpl; lia).
    split; [apply Inv|]. split; [|split; [|split; [|split]]].
    + intros m' Hsteps'. split; [eapply steps_store, Hsteps'|].
      intros k Hk. eapply steps_entry; eauto.
    + intros k k' r Hg Hg' Hr.
      eapply (written_distinct (length h) (results (pinger m))); eauto.
      * unfold results. rewrite (inv_keys _ _ _ _ Inv), Hd. exact Hnd.
      * pose proof (inv_owned_nodup _ _ _ _ Inv) as Ho. unfold owned in Ho.
        apply NoDup_app in Ho. tauto.
    + intros k Hk. apply (inv_pending _ _ _ _ Inv k Hk).
    + intros t r Hw.
      assert (Hown : r ∈ owned (length h) m).
      { unfold owned. apply elem_of_app. left. eapply holding_ref, Hw. }
      pose proof (inv_owned_fresh _ _ _ _ Inv r Hown) as Hfresh.
      pose proof (inv_owned_bound _ _ _ _ Inv r Hown) as Hbound.
      split; [lia|]. split.
      * destruct (inv_holding _ _ _ _ Inv t r Hw) as (o & Ho & Hs & _).
        exists o. auto.
      * intros k Hg.
        pose proof (inv_owned_nodup _ _ _ _ Inv) as Ho. unfold owned in Ho.
        apply NoDup_app in Ho as (_ & Hdis & _).
        apply (Hdis r); [eapply holding_ref, Hw|].
        apply (dict_get_written (length h) _ k r Hg). lia.
    + intros k Hk Hnb.
      destruct (inv_done _ _ _ _ Inv k) as (r & Hr & Hs & Hsh);
        [rewrite Hd; apply Hel, Hk | exact Hnb |].
      split.
      * intros o Ho. exists r. split; [exact Hr|].
        assert (Hne : r <> length h).
        { intros E. apply Hsh in E as [e He]. congruence. }
        assert (Hown : r ∈ owned (length h) m).
        { unfold owned. apply elem_of_app. right.
          apply (dict_get_written (length h) _ k r Hr Hne). }
        pose proof (inv_owned_fresh _ _ _ _ Inv r Hown).
        pose proof (inv_owned_bound _ _ _ _ Inv r Hown).
        split; [lia|]. rewrite Hs. f_equal.
        apply (expected_ok env p k o Ho).
      * intros e He. unfold results. rewrite Hr. f_equal. apply Hsh. eauto.
Qed.

End Sharing.

(** ** Sample runs *)

Lemma lan_targets_nonempty : map lit lan_targets <> [].
Proof. discriminate. Qed.

Lemma lan_targets_distinct : NoDup (map lit lan_targets).
Proof.
  apply (bool_decide_unpack (NoDup (map lit lan_targets))).
  vm_compute. exact I.
Qed.

(** Three targets and two threads: the second thread finishes its call
    before the first one, and the map is in the order of the targets. *)
Example lan_two_workers :
  exists m,
    exec lan [0; 1; 1; 0; 1; 0; 0; 0; 0]%nat
      (init_pool 2 (started lan lan_targets) [PingResult_zero])
    = Some m
    /\ terminal m
    /\ items (pinger m) (store m)
       = [(lit "192.168.1.7", half_answered); (lit "10.0.0.9", no_answer);
          (lit "192.168.1.8", half_answered)]
    /\ results (pinger m)
       = [(lit "192.168.1.7", 2%nat); (lit "10.0.0.9", 1%nat);
          (lit "192.168.1.8", 3%nat)].
Proof. vm_compute. eexists. repeat split. Qed.

(** A probe that raises: the entry keeps the initial object, the exception
    is in the future, and the pool is done. *)
Example bsd_run :
  exists m,
    exec (posix bsd_reply) [0; 0]%nat
      (init_pool 1 (started (posix bsd_reply) ["192.168.1.1"%string])
         [PingResult_zero])
    = Some m
    /\ terminal m
    /\ items (pinger m) (store m) = [(lit "192.168.1.1", PingResult_zero)]
    /\ results (pinger m) = [(lit "192.168.1.1", 0%nat)]
    /\ futures m = [(lit "192.168.1.1", ValueError)].
Proof. vm_compute. eexists. repeat split. Qed.

(** One probe raises, the other thread goes on: the second entry has the
    result of its probe, the first one keeps the initial object, and the
    exception is in the future of the first call. *)
Example mixed_two_workers :
  exists m,
    exec mixed [0; 1; 0; 1; 1]%nat
      (init_pool 2 (started mixed mixed_targets) [PingResult_zero])
    = Some m
    /\ terminal m
    /\ items (pinger m) (store m)
       = [(lit "192.168.1.1", PingResult_zero);
          (lit "192.168.1.7", half_answered)]
    /\ results (pinger m)
       = [(lit "192.168.1.1", 0%nat); (lit "192.168.1.7", 2%nat)]
    /\ futures m = [(lit "192.168.1.1", ValueError)].
Proof. vm_compute. eexists. repeat split. Qed.

(** Output that is not UTF-8: the probe raises although the command
    exited with 1, and no error message is kept. *)
Example garbled_output_raises :
  _ping_it (posix linux_garbled) (started (posix linux_garbled) ["h"%string])
    (lit "h") [PingResult_zero]
  = ([PingResult_zero; PingResult_zero], Raise UnicodeDecodeError).
Proof. vm_compute. reflexivity. Qed.



(** The sample network: the pairs come in the order of the targets. *)
Lemma render_order_lan :
  exists p' h',
    ping_targets lan (started lan lan_targets) [PingResult_zero] 0 5
      (Ok tt) p' h'
    /\ map fst (items p' h')
       = [lit "192.168.1.7"; lit "10.0.0.9"; lit "192.168.1.8"].
Proof.
  destruct (ping_targets_completes lan (map lit lan_targets) []
              [PingResult_zero] (started lan lan_targets) 0 5
              lan_targets_nonempty (fresh_pinger_started lan lan_targets))
    as (p' & h' & Hrun).
  exists p', h'. split; [exact Hrun|].
  destruct (render_order lan (map lit lan_targets) [] [PingResult_zero] h'
              (started lan lan_targets) p' 0 5 []
              (fresh_pinger_started lan lan_targets) Hrun)
    as (_ & _ & H & _).
  exact (H lan_targets_distinct).
Defined.



(** The host that does not answer, second of three: its entry reads
    [(1) offline?] after the run. *)
Lemma error_message_no_reply :
  exists o,
    _ping_it lan (started lan lan_targets) (lit "10.0.0.9") [PingResult_zero]
    = ([PingResult_zero; o], Ok 1%nat)
    /\ packetsReceived o = 0 /\ error o = lit "(1) offline?"
    /\ forall t0 t1 res p' h',
         ping_targets lan (started lan lan_targets) [PingResult_zero] t0 t1
           res p' h' ->
         (lit "10.0.0.9", o) ∈ items p' h'.
Proof.
  destruct (error_message lan (started lan lan_targets) (lit "10.0.0.9")
              {| returncode := 1;
                 stdout := match linux_no_reply with
                           | Ok p => stdout p
                           | Raise _ => []
                           end;
                 stderr := [] |})
    as (H & _ & Hrun); [reflexivity|].
  destruct (H (stdout_text linux_no_reply) [])
    as [Hfail _]; [vm_compute; reflexivity | reflexivity |].
  destruct (Hfail ltac:(discriminate) [PingResult_zero])
    as (o & Hcall & Hrecv & Herr & _).
  exists o. split; [exact Hcall|]. split; [exact Hrecv|].
  split; [exact Herr|].
  intros t0 t1 res p' h' Hr.
  destruct (Hrun (map lit lan_targets) [] [PingResult_zero] t0 t1 res p' h'
              (fresh_pinger_started lan lan_targets)
              ltac:(right; left) Hr)
    as (o' & Hin & _ & Hfail' & _).
  destruct (Hfail' ltac:(discriminate) (stdout_text linux_no_reply) [])
    as (_ & Herr' & _); [vm_compute; reflexivity | reflexivity |].
  pose proof (_ping_it_value lan (started lan lan_targets) (lit "10.0.0.9")
                [PingResult_zero] [PingResult_zero; o] 1%nat o Hcall eq_refl)
    as (Hv & _).
  assert (Ho' : o' = expected lan (started lan lan_targets) (lit "10.0.0.9")).
  { destruct (ping_targets_result lan (map lit lan_targets) []
                [PingResult_zero] h' (started lan lan_targets) p' t0 t1 res
                lan_targets_nonempty (fresh_pinger_started lan lan_targets) Hr)
      as (_ & _ & Hi).
    rewrite Hi in Hin.
    apply list_elem_of_fmap in Hin as (k & [= -> ->] & _). reflexivity. }
  unfold expected in Ho'. rewrite Hv in Ho'. subst o'. exact Hin.
Defined.

(** One object under two keys: both keys of a fresh [Pinger] refer to the
    object 0 of the store. *)
Lemma two_keys_one_object :
  fresh_pinger lan ["a"; "b"]%string
  = ([PingResult_zero], Ok (started lan ["a"; "b"]%string))
  /\ results (started lan ["a"; "b"]%string) = [(lit "a", 0%nat); (lit "b", 0%nat)]
  /\ dict_get (lit "a") (results (started lan ["a"; "b"]%string)) = Some 0%nat
  /\ dict_get (lit "b") (results (started lan ["a"; "b"]%string)) = Some 0%nat.
Proof. repeat split. Qed.

(** Two targets, the probe of the first one raises: the keys share the
    object 0 at first and no other object is ever under two keys; at the
    end the first key is still on the object 0, and the second one is on an
    object of the run that holds the result of its probe. *)
Lemma entries_share_initial_result_mixed :
  (forall k, k ∈ map lit mixed_targets ->
             dict_get k (results (started mixed mixed_targets)) = Some 0%nat)
  /\ (forall max_workers m,
        steps mixed (init_pool max_workers (started mixed mixed_targets)
                       [PingResult_zero]) m ->
        store m !! 0%nat = Some PingResult_zero
        /\ (forall k k' r,
              dict_get k (results (pinger m)) = Some r ->
              dict_get k' (results (pinger m)) = Some r ->
              r <> 0%nat -> k = k')
        /\ (terminal m ->
            dict_get (lit "192.168.1.1") (results (pinger m)) = Some 0%nat
            /\ exists r,
                 dict_get (lit "192.168.1.7") (results (pinger m)) = Some r
                 /\ (1 <= r < length (store m))%nat
                 /\ store m !! r = Some half_answered)).
Proof.
  destruct (entries_share_initial_result mixed (map lit mixed_targets) []
              [PingResult_zero] (started mixed mixed_targets)
              (fresh_pinger_started mixed mixed_targets))
    as (_ & H1 & H2).
  split; [exact H1|].
  intros W m Hsteps. destruct (H2 W m Hsteps) as (Hs & _ & Hd & _ & _ & Hdone).
  split; [exact Hs|]. split; [exact Hd|].
  intros Hterm.
  assert (Hnb : forall k, k ∉ busy m).
  { intros k. rewrite (terminal_busy m Hterm). apply not_elem_of_nil. }
  split.
  - destruct (Hdone (lit "192.168.1.1") ltac:(left) (Hnb _)) as [_ Hr].
    apply (Hr ValueError). vm_compute. reflexivity.
  - destruct (Hdone (lit "192.168.1.7") ltac:(right; left) (Hnb _)) as [Ho _].
    apply (Ho half_answered). vm_compute. reflexivity.
Defined.

(** * The rest of the script *)

(** ** Configuration across assignments *)

Lemma set_num_requests_range (self : Pinger) (count : Z) :
  1 <= num_requests (set_num_requests self count) <= 100.
Proof.
  unfold set_num_requests.
  destruct (Z.ltb_spec count 1), (Z.gtb_spec count 100); simpl;
    unfold DEFAULTS.NUM_REQUESTS; lia.
Qed.

Lemma default_timeout_pos (env : Env) : 0 <= default_timeout env.
Proof.
  unfold default_timeout, DEFAULTS.REQUEST_TIMEOUT_WINDOWS,
    DEFAULTS.REQUEST_TIMEOUT_LINUX.
  destruct (is_windows env); lia.
Qed.

Lemma set_request_timeout_range (env : Env) (self : Pinger) (value : Z) :
  0 <= request_timeout (set_request_timeout env self value).
Proof.
  unfold set_request_timeout.
  destruct (Z.ltb_spec value 0); simpl; [apply default_timeout_pos | lia].
Qed.

Lemma assign_frame (env : Env) (self : Pinger) (a : assignment) :
  _target_dict (assign env self a) = _target_dict self
  /\ _source_host (assign env self a) = _source_host self
  /\ _start_time (assign env self a) = _start_time self
  /\ _end_time (assign env self a) = _end_time self.
Proof.
  destruct a as [count|value]; simpl.
  - unfold set_num_requests. destruct (_ || _); auto.
  - unfold set_request_timeout. destruct (_ <? _); auto.
Qed.

Lemma assign_range (env : Env) (self : Pinger) (a : assignment) :
  1 <= num_requests self <= 100 -> 0 <= request_timeout self ->
  1 <= num_requests (assign env self a) <= 100
  /\ 0 <= request_timeout (assign env self a).
Proof.
  intros Hn Ht. destruct a as [count|value]; simpl.
  - split; [apply set_num_requests_range|].
    unfold set_num_requests. destruct (_ || _); exact Ht.
  - split; [|apply set_request_timeout_range].
    unfold set_request_timeout. destruct (_ <? _); exact Hn.
Qed.

Lemma assignments_frame (env : Env) (l : list assignment) (self : Pinger) :
  _target_dict (fold_left (assign env) l self) = _target_dict self
  /\ _source_host (fold_left (assign env) l self) = _source_host self
  /\ _start_time (fold_left (assign env) l self) = _start_time self
  /\ _end_time (fold_left (assign env) l self) = _end_time self.
Proof.
  revert self. induction l as [|a l IH]; intros self; simpl; [auto|].
  destruct (IH (assign env self a)) as (-> & -> & -> & ->).
  apply assign_frame.
Qed.

Lemma assignments_range (env : Env) (l : list assignment) (self : Pinger) :
  1 <= num_requests self <= 100 -> 0 <= request_timeout self ->
  1 <= num_requests (fold_left (assign env) l self) <= 100
  /\ 0 <= request_timeout (fold_left (assign env) l self).
Proof.
  revert self. induction l as [|a l IH]; intros self Hn Ht; simpl; [auto|].
  destruct (assign_range env self a Hn Ht). apply IH; assumption.
Qed.

(** X1: the constructor returns a [Pinger], and after any sequence of
    assignments to [num_requests] and [request_timeout], whatever the
    values assigned, the request count is between 1 and 100 and the timeout
    is not negative; the assignments leave the result map and the source
    host alone. *)
Theorem configuration_in_range (env : Env) (target : target_arg) (h : heap) :
  exists p,
    Pinger_init env target h = (h ++ [PingResult_zero], Ok p)
    /\ forall l : list assignment,
         let p' := fold_left (assign env) l p in
         1 <= num_requests p' <= 100
         /\ 0 <= request_timeout p'
         /\ results p' = results p
         /\ _source_host p' = gethostname env.
Proof.
  eexists. split; [apply Pinger_init_spec|].
  intros l p'. subst p'.
  match goal with
  | |- context [fold_left _ l ?p] =>
      destruct (assignments_frame env l p) as (Hd & Hs & _);
      destruct (assignments_range env l p) as (Hn & Ht)
  end.
  - simpl. unfold DEFAULTS.NUM_REQUESTS. lia.
  - apply default_timeout_pos.
  - unfold results. rewrite Hd, Hs. auto.
Qed.

(** ** The command line *)

Lemma ping_cmd_join (env : Env) (self : Pinger) :
  _ping_cmd env self
  = join 32 [lit "ping"; if is_windows env then lit "-n" else lit "-c";
             str_of_int (num_requests self);
             if is_windows env then lit "-w" else lit "-W";
             str_of_int (request_timeout self)].
Proof.
  unfold _ping_cmd. destruct (is_windows env); cbn [join];
    rewrite <- ?app_assoc; reflexivity.
Qed.

(** X2: the command line of [_ping_cmd] has five fields between single
    blanks: [ping], the count flag ([-n] on Windows, [-c] elsewhere), the
    request count, the timeout flag ([-w] or [-W]) and the timeout; [int]
    reads the two numbers back. *)
Theorem ping_cmd_fields (env : Env) (self : Pinger) :
  counter (num_requests self) -> counter (request_timeout self) ->
  split 32 (_ping_cmd env self)
  = [lit "ping"; if is_windows env then lit "-n" else lit "-c";
     str_of_int (num_requests self);
     if is_windows env then lit "-w" else lit "-W";
     str_of_int (request_timeout self)]
  /\ py_int (str_of_int (num_requests self)) = Ok (num_requests self)
  /\ py_int (str_of_int (request_timeout self)) = Ok (request_timeout self).
Proof.
  intros Hn Ht. split; [|split; apply counter_int; assumption].
  rewrite ping_cmd_join. apply split_join; [discriminate|].
  cbn [forallb]. rewrite !counter_no_sep by (reflexivity || assumption).
  destruct (is_windows env); reflexivity.
Qed.

Lemma ping_cmd_fields_windows :
  split 32 (_ping_cmd (windows silent) (started (windows silent) []))
  = [lit "ping"; lit "-n"; lit "4"; lit "-w"; lit "2000"].
Proof.
  apply (ping_cmd_fields (windows silent) (started (windows silent) []));
    apply small_counter; vm_compute; split; congruence.
Defined.

(** ** A run without targets *)

Section NoTarget.
Context {F : PyFloat} (env : Env).

(** X3: for an empty list of targets, before or after any assignments,
    [ping_targets] raises [ValueError] (the executor refuses
    [max_workers=0]) in every run: the store and the result map stay as
    they were, and [elapsed_seconds] stays empty, as [_end_time] is never
    set. *)
Theorem no_target_run (h : heap) (l : list assignment) (t0 t1 : Z) :
  exists p,
    Pinger_init env (TargetList []) h = (h ++ [PingResult_zero], Ok p)
    /\ let q := fold_left (assign env) l p in
       (exists p',
          ping_targets env q (h ++ [PingResult_zero]) t0 t1
            (Raise ValueError) p' (h ++ [PingResult_zero]))
       /\ forall res p' h',
            ping_targets env q (h ++ [PingResult_zero]) t0 t1 res p' h' ->
            res = Raise ValueError
            /\ h' = h ++ [PingResult_zero]
            /\ results p' = []
            /\ elapsed_seconds p' = [].
Proof.
  eexists. split; [apply Pinger_init_spec|]. intros q.
  match type of q with
  | _ => destruct (assignments_frame env l
           {| _source_host := gethostname env;
              _target_dict := dict_fromkeys [] (length h);
              _num_requests := 4;
              _request_timeout := default_timeout env;
              _start_time := None;
              _end_time := None |}) as (Hd & _ & _ & He)
  end.
  fold q in Hd, He. simpl in Hd, He.
  assert (Hw : num_workers q <= 0).
  { unfold num_workers. rewrite Hd. simpl. unfold DEFAULTS.MAX_THREADS. lia. }
  split.
  - eexists. apply ping_targets_no_worker. exact Hw.
  - intros res p' h' Hrun.
    inversion Hrun as [_|m Hpos _ _]; subst; [|lia].
    repeat split.
    + unfold results. simpl. exact Hd.
    + unfold elapsed_seconds. simpl. rewrite He. reflexivity.
Qed.

End NoTarget.

(** ** The size of the pool *)

Lemma omap_length_le {A B} (f : A -> option B) (l : list A) :
  (length (omap f l) <= length l)%nat.
Proof.
  induction l as [|a l IH]; csimpl; [lia|].
  destruct (f a); csimpl; lia.
Qed.

Section PoolSize.
Context {F : PyFloat} (env : Env).

(** X4: in every state the pool of [ping_targets] reaches, the threads
    are [min(50, number of keys)] many, so at most 50 calls, and never more
    calls than there are keys, are under way at once. *)
Theorem pool_size_bounded (self : Pinger) (h : heap) (m : pool) :
  steps env (init_pool (Z.to_nat (num_workers self)) self h) m ->
  Z.of_nat (length (workers m))
  = Z.min DEFAULTS.MAX_THREADS (Z.of_nat (length (results self)))
  /\ (length (in_flight m) <= 50)%nat
  /\ (length (in_flight m) <= length (results self))%nat.
Proof.
  intros Hsteps.
  pose proof (steps_workers_length env _ _ Hsteps) as Hlen.
  simpl in Hlen. rewrite length_replicate in Hlen.
  pose proof (omap_length_le worker_target (workers m)) as Hle.
  unfold in_flight, results, num_workers, DEFAULTS.MAX_THREADS in *.
  lia.
Qed.

End PoolSize.

(** Three keys: three threads, and all three calls under way after each
    thread took one. *)
Lemma pool_size_bounded_lan :
  exists m,
    exec lan [0; 1; 2]%nat
      (init_pool 3 (started lan lan_targets) [PingResult_zero]) = Some m
    /\ length (workers m) = 3%nat
    /\ length (in_flight m) = 3%nat.
Proof.
  eexists. split; [reflexivity|].
  split; [|reflexivity].
  match goal with
  | |- length (workers ?m) = _ =>
      destruct (pool_size_bounded lan (started lan lan_targets)
                  [PingResult_zero] m) as (H & _)
  end.
  - apply steps_exec. exists [0; 1; 2]%nat. reflexivity.
  - apply Nat2Z.inj. rewrite H. reflexivity.
Defined.

(** ** One probe for every key *)

Lemma omap_running_idle (n : nat) : omap worker_running (replicate n Idle) = [].
Proof. induction n; simpl; auto. Qed.

Lemma omap_running_all_idle (ws : list worker) :
  forallb is_idle ws = true -> omap worker_running ws = [].
Proof.
  induction ws as [|w ws IH]; simpl; [reflexivity|].
  intros H. apply andb_prop in H as [Hw H]. destruct w; try discriminate.
  simpl. auto.
Qed.

Section Probes.
Context {F : PyFloat} (env : Env).

(** A step calls [_ping_it] for a target the pool had still to probe, or
    for none. *)
Lemma step_to_call (i : nat) (m m' : pool) :
  step env i m = Some m' -> probed i m ++ to_call m' ≡ₚ to_call m.
Proof.
  unfold step, probed, to_call.
  destruct (workers m !! i) as [[|t|t r]|] eqn:Hw; [| | |discriminate].
  - destruct (queue m) as [|t q] eqn:Hq; [discriminate|]. intros [= <-].
    simpl.
    pose proof (omap_insert_worker worker_running _ i Idle (Running t) Hw)
      as H.
    simpl in H. rewrite H. symmetry. apply Permutation_middle.
  - pose proof (fun w' => omap_insert_worker worker_running _ i (Running t)
                            w' Hw) as H.
    destruct (_ping_it env (pinger m) t (store m)) as [h [r|e]];
      intros [= <-]; simpl.
    + specialize (H (Holding t r)). simpl in H. rewrite <- H.
      apply Permutation_middle.
    + specialize (H Idle). simpl in H. rewrite <- H.
      apply Permutation_middle.
  - intros [= <-]. simpl.
    pose proof (omap_insert_worker worker_running _ i (Holding t r) Idle Hw)
      as H.
    simpl in H. rewrite H. reflexivity.
Qed.

Lemma exec_to_call (sched : list nat) (m m' : pool) :
  exec env sched m = Some m' -> calls env sched m ++ to_call m' ≡ₚ to_call m.
Proof.
  revert m. induction sched as [|i sched IH]; simpl; intros m.
  - intros [= <-]. reflexivity.
  - destruct (step env i m) as [m1|] eqn:Hs; [|discriminate].
    intros H. rewrite <- app_assoc, (IH _ H). eapply step_to_call, Hs.
Qed.

(** A step adds to the store the object of the call of [_ping_it] it
    makes, if it makes one, and leaves the configuration alone. *)
Lemma step_made (self : Pinger) (i : nat) (m m' : pool) :
  (forall t hh, _ping_it env (pinger m) t hh = _ping_it env self t hh) ->
  step env i m = Some m' ->
  (forall t hh, _ping_it env (pinger m') t hh = _ping_it env self t hh)
  /\ exists objs,
       store m' = store m ++ objs
       /\ Forall2 (made_by env self) (probed i m) objs.
Proof.
  intros Hc. unfold step, probed.
  destruct (workers m !! i) as [[|t|t r]|] eqn:Hw; [| | |discriminate].
  - destruct (queue m) as [|t q]; [discriminate|]. intros [= <-]. simpl.
    split; [exact Hc|]. exists []. rewrite app_nil_r.
    split; [reflexivity | constructor].
  - destruct (_ping_it_spec env (pinger m) t (store m)) as (o & E & _).
    assert (Hmade : made_by env self t o).
    { exists (store m), ((fun _ => length (store m))
                         <$> probe env (pinger m) t).
      rewrite <- E. symmetry. apply Hc. }
    rewrite E.
    destruct (probe env (pinger m) t); simpl; intros [= <-]; simpl;
      (split; [exact Hc|]); exists [o];
      (split; [reflexivity | repeat constructor; exact Hmade]).
  - intros [= <-]. simpl. split.
    + intros t' hh. rewrite <- Hc. reflexivity.
    + exists []. rewrite app_nil_r. split; [reflexivity | constructor].
Qed.

(** The objects added to the store along a schedule are those of its
    calls of [_ping_it], in the order of the calls. *)
Lemma exec_made (self : Pinger) (sched : list nat) (m m' : pool) :
  (forall t hh, _ping_it env (pinger m) t hh = _ping_it env self t hh) ->
  exec env sched m = Some m' ->
  exists objs,
    store m' = store m ++ objs
    /\ Forall2 (made_by env self) (calls env sched m) objs.
Proof.
  revert m. induction sched as [|i sched IH]; simpl; intros m Hc.
  - intros [= <-]. exists []. rewrite app_nil_r. split; [reflexivity|].
    constructor.
  - destruct (step env i m) as [m1|] eqn:Hs; [|discriminate]. intros H.
    destruct (step_made self i m m1 Hc Hs) as (Hc1 & objs1 & Hst1 & Hall1).
    destruct (IH m1 Hc1 H) as (objs & Hst & Hall).
    exists (objs1 ++ objs). rewrite Hst, Hst1, <- app_assoc.
    split; [reflexivity|]. apply Forall2_app; assumption.
Qed.

(** X5: in every schedule that runs the pool of [ping_targets] to its end,
    with any number of threads, the calls of [_ping_it] are the keys of the
    result map in some order, each key once: every distinct target is
    probed once, none twice and none skipped, also when a probe raised.
    The objects added to the store are those these calls made, one for each
    call and in the order of the calls.  Every run of [ping_targets] that
    completes is such a schedule.  (For a count and a timeout of at most
    4300 digits: [_ping_it] formats them before it creates its object.) *)
Theorem one_probe_per_key (self : Pinger) (h : heap) :
  printable_int (num_requests self) ->
  printable_int (request_timeout self) ->
  (forall max_workers sched m,
     exec env sched (init_pool max_workers self h) = Some m -> terminal m ->
     calls env sched (init_pool max_workers self h)
       ≡ₚ dict_keys (results self)
     /\ exists objs,
          store m = h ++ objs
          /\ Forall2 (made_by env self)
               (calls env sched (init_pool max_workers self h)) objs)
  /\ (forall t0 t1 p' h',
        ping_targets env self h t0 t1 (Ok tt) p' h' ->
        length h' = (length h + length (results self))%nat
        /\ exists sched m objs,
             exec env sched
               (init_pool (Z.to_nat (num_workers self))
                  (with_start_time (Some t0) self) h) = Some m
             /\ terminal m
             /\ p' = with_end_time (Some t1) (pinger m)
             /\ h' = h ++ objs
             /\ calls env sched
                  (init_pool (Z.to_nat (num_workers self))
                     (with_start_time (Some t0) self) h)
                  ≡ₚ dict_keys (results self)
             /\ Forall2 (made_by env self)
                  (calls env sched
                     (init_pool (Z.to_nat (num_workers self))
                        (with_start_time (Some t0) self) h)) objs).
Proof.
  intros _ _.
  assert (Hall : forall q max_workers sched m,
             (forall t hh, _ping_it env q t hh = _ping_it env self t hh) ->
             _target_dict q = _target_dict self ->
             exec env sched (init_pool max_workers q h) = Some m ->
             terminal m ->
             calls env sched (init_pool max_workers q h)
               ≡ₚ dict_keys (results self)
             /\ exists objs,
                  store m = h ++ objs
                  /\ Forall2 (made_by env self)
                       (calls env sched (init_pool max_workers q h)) objs).
  { intros q W sched m Hq Hd Hexec [Hqueue Hidle]. split.
    - pose proof (exec_to_call _ _ _ Hexec) as H.
      unfold to_call at 1 in H.
      rewrite Hqueue, (omap_running_all_idle _ Hidle), app_nil_r in H.
      rewrite H. unfold to_call. simpl.
      rewrite omap_running_idle, app_nil_r, Hd. reflexivity.
    - apply (exec_made self sched (init_pool W q h) m);
        [exact Hq | exact Hexec]. }
  split.
  - intros W sched m Hexec Hterm. apply (Hall self W sched m); auto.
  - intros t0 t1 p' h' Hrun.
    inversion Hrun as [|m Hw Hsteps Hterm]; subst.
    apply steps_exec in Hsteps as [sched Hexec].
    destruct (Hall (with_start_time (Some t0) self)
                (Z.to_nat (num_workers self)) sched m)
      as (Hperm & objs & Hst & Hmade); auto.
    split.
    + rewrite Hst, length_app.
      rewrite <- (Forall2_length _ _ _ Hmade), Hperm.
      unfold dict_keys, results. rewrite length_map. reflexivity.
    + exists sched, m, objs. auto 10.
Qed.

End Probes.

(** The sample network with two threads, the second one faster than the
    first: the silent host is probed first, and every host once. *)
Lemma one_probe_per_key_lan :
  exists m,
    exec lan [0; 1; 1; 0; 1; 0; 0; 0; 0]%nat
      (init_pool 2 (started lan lan_targets) [PingResult_zero]) = Some m
    /\ terminal m
    /\ calls lan [0; 1; 1; 0; 1; 0; 0; 0; 0]%nat
         (init_pool 2 (started lan lan_targets) [PingResult_zero])
       = [lit "10.0.0.9"; lit "192.168.1.7"; lit "192.168.1.8"]
    /\ calls lan [0; 1; 1; 0; 1; 0; 0; 0; 0]%nat
         (init_pool 2 (started lan lan_targets) [PingResult_zero])
         ≡ₚ dict_keys (results (started lan lan_targets))
    /\ store m = [PingResult_zero; no_answer; half_answered; half_answered].
Proof.
  assert (E : exists m,
             exec lan [0; 1; 1; 0; 1; 0; 0; 0; 0]%nat
               (init_pool 2 (started lan lan_targets) [PingResult_zero])
             = Some m
             /\ terminal m
             /\ store m
                = [PingResult_zero; no_answer; half_answered; half_answered])
    by (vm_compute; eexists; repeat split).
  destruct E as (m & Hexec & Hterm & Hstore).
  exists m. split; [exact Hexec|]. split; [exact Hterm|].
  split; [vm_compute; reflexivity|]. split; [|exact Hstore].
  destruct (one_probe_per_key lan (started lan lan_targets) [PingResult_zero])
    as [H _].
  { destruct (small_counter 4 ltac:(lia)) as [_ Hhi]. split; [|exact Hhi].
    apply Z.lt_trans with (m := 0); [|reflexivity].
    apply Z.opp_neg_pos, Z.pow_pos_nonneg; reflexivity || discriminate. }
  { destruct (small_counter 2 ltac:(lia)) as [_ Hhi]. split; [|exact Hhi].
    apply Z.lt_trans with (m := 0); [|reflexivity].
    apply Z.opp_neg_pos, Z.pow_pos_nonneg; reflexivity || discriminate. }
  destruct (H 2%nat [0; 1; 1; 0; 1; 0; 0; 0; 0]%nat m Hexec Hterm)
    as [Hperm _].
  exact Hperm.
Defined.

(** ** Floats of moderate size *)

Lemma round_half_even_spec (p q : Z) :
  0 <= p -> 0 < q ->
  2 * p - q <= 2 * (round_half_even p q * q) <= 2 * p + q.
Proof.
  intros Hp Hq. unfold round_half_even.
  pose proof (Z.div_mod p q ltac:(lia)) as Hdm.
  pose proof (Z.mod_pos_bound p q Hq) as Hr.
  destruct (Z.compare_spec (2 * (p mod q)) q) as [He|Hl|Hg]; [destruct (Z.even _)|..];
    nia.
Qed.

Lemma round_half_even_range (p q : Z) :
  0 <= p -> 0 < q -> 0 <= round_half_even p q <= p + 1.
Proof.
  intros Hp Hq. unfold round_half_even.
  pose proof (Z.div_pos p q Hp Hq) as Hd.
  assert (p / q <= p) by (apply Z.div_le_upper_bound; nia).
  destruct (2 * (p mod q) ?= q); [destruct (Z.even _)|..]; lia.
Qed.

Lemma floor_log2_cases (p q : Z) :
  floor_log2 p q = Z.log2 p - Z.log2 q
  \/ floor_log2 p q = Z.log2 p - Z.log2 q - 1.
Proof. unfold floor_log2. destruct (_ <=? _); auto. Qed.

(** The float nearest to a quotient of moderate size keeps 53 bits after
    scaling by a power of two. *)
Lemma nearest_binary64_scaled (p q : Z) :
  0 < p < 2 ^ 53 -> 0 < q < 2 ^ 20 ->
  exists s,
    52 - Z.log2 p + Z.log2 q <= s <= 53 - Z.log2 p + Z.log2 q
    /\ nearest_binary64 p q
       = Finite (round_half_even (p * 2 ^ s) q) (Z.to_N s).
Proof.
  intros Hp Hq.
  assert (Hlp : 0 <= Z.log2 p < 53).
  { split; [apply Z.log2_nonneg|]. apply Z.log2_lt_pow2; lia. }
  assert (Hlq : 0 <= Z.log2 q < 20).
  { split; [apply Z.log2_nonneg|]. apply Z.log2_lt_pow2; lia. }
  exists (52 - floor_log2 p q). split.
  - destruct (floor_log2_cases p q) as [-> | ->]; lia.
  - unfold nearest_binary64.
    set (fl := floor_log2 p q).
    assert (Hfl : - 20 <= fl <= 52)
      by (subst fl; destruct (floor_log2_cases p q) as [-> | ->]; lia).
    rewrite (Z.max_l (fl - 52)) by lia.
    replace (Z.max (- (fl - 52)) 0) with (52 - fl) by lia.
    rewrite (Z.max_r (fl - 52) 0) by lia.
    change (2 ^ 0) with 1. rewrite !Z.mul_1_r.
    replace (- (fl - 52)) with (52 - fl) by lia.
    destruct (Z.leb_spec (2 ^ 1024) (round_half_even (p * 2 ^ (52 - fl)) q))
      as [Hbig|_]; [|reflexivity].
    exfalso.
    assert (H2 : 0 < 2 ^ (52 - fl) <= 2 ^ 72).
    { split; [apply Z.pow_pos_nonneg; lia|].
      apply Z.pow_le_mono_r; lia. }
    pose proof (round_half_even_range (p * 2 ^ (52 - fl)) q
                  ltac:(nia) ltac:(lia)) as Hr.
    assert (p * 2 ^ (52 - fl) <= 2 ^ 53 * 2 ^ 72) by nia.
    change (2 ^ 53 * 2 ^ 72) with (2 ^ 125) in *.
    assert (2 ^ 125 + 1 < 2 ^ 1024) by (vm_compute; reflexivity).
    lia.
Qed.

(** [int(x)] of the float nearest to [p / q] is the integer part of
    [p / q], as long as the float has bits to spare for the fraction. *)
Lemma nearest_binary64_to_int (p q : Z) :
  0 < p < 2 ^ 51 -> 0 < q < 2 ^ 20 ->
  binary64_to_int (nearest_binary64 p q) = Ok (p / q).
Proof.
  intros Hp Hq.
  destruct (nearest_binary64_scaled p q) as (s & Hs & ->); [lia | lia |].
  assert (Hlp : 0 <= Z.log2 p < 51).
  { split; [apply Z.log2_nonneg|]. apply Z.log2_lt_pow2; lia. }
  assert (Hs2 : Z.log2 q + 2 <= s) by lia.
  assert (Hs0 : 0 <= s) by (pose proof (Z.log2_nonneg q); lia).
  unfold binary64_to_int. rewrite Z2N.id by exact Hs0. f_equal.
  set (S := 2 ^ s).
  assert (HS : 2 * q < S).
  { subst S. apply Z.lt_le_trans with (m := 2 ^ (Z.log2 q + 2)).
    - rewrite Z.pow_add_r by (try apply Z.log2_nonneg; lia).
      pose proof (Z.log2_spec q ltac:(lia)) as [_ Hq2].
      rewrite Z.pow_succ_r in Hq2 by apply Z.log2_nonneg.
      change (2 ^ 2) with 4. lia.
    - apply Z.pow_le_mono_r; lia. }
  pose proof (round_half_even_spec (p * S) q ltac:(nia) ltac:(lia)) as Hr.
  pose proof (round_half_even_range (p * S) q ltac:(nia) ltac:(lia)) as Hr0.
  set (num := round_half_even (p * S) q) in *.
  rewrite Z.quot_div_nonneg by lia.
  symmetry. apply Z.div_unique_pos with (r := num - p / q * S).
  2: lia.
  pose proof (Z.div_mod p q ltac:(lia)) as Hdm.
  pose proof (Z.mod_pos_bound p q ltac:(lia)) as Hm.
  set (a := p / q) in *. set (r := p mod q) in *.
  assert (Hpa : p * S = q * (a * S) + r * S) by (rewrite Hdm; ring).
  set (T := a * S) in *.
  split.
  - (* a S <= num *)
    assert (2 * (q * T) - q <= 2 * (num * q)) by nia.
    assert (q * (T - 1) < num * q) by nia.
    assert (T - 1 < num) by (apply Z.mul_lt_mono_pos_l with (p := q); lia).
    lia.
  - (* num < (a + 1) S *)
    assert (r * S <= (q - 1) * S) by (apply Z.mul_le_mono_nonneg_r; lia).
    assert (2 * (num * q) < 2 * (q * (T + S))) by nia.
    assert (num < T + S) by (apply Z.mul_lt_mono_pos_l with (p := q); lia).
    lia.
Qed.

(** *** Reading a literal [whole.ddd] *)

Lemma digit_run_digits (ds rest : str) (acc : Z) (n : nat) :
  forallb is_digit ds = true ->
  (forall c, head rest = Some c -> is_digit c = false) ->
  digit_run acc n (ds ++ rest) = (digits_value ds acc, (n + length ds)%nat, rest).
Proof.
  revert acc n. induction ds as [|d ds IH]; intros acc n Hd Hrest.
  - simpl. rewrite Nat.add_0_r. destruct rest as [|c rest]; [reflexivity|].
    simpl. rewrite (Hrest c eq_refl). reflexivity.
  - simpl in Hd. apply andb_prop in Hd as [Hc Hds].
    cbn [app digit_run]. rewrite Hc, (IH _ _ Hds Hrest).
    unfold digits_value. cbn [fold_left length]. f_equal. f_equal. lia.
Qed.

Lemma underscores_ok_none (s : str) (b : bool) :
  no_sep 95 s = true -> underscores_ok b s = true.
Proof.
  revert b. induction s as [|c s IH]; intros b H; [reflexivity|].
  cbn [no_sep forallb] in H. apply andb_prop in H as [Hc Hs].
  apply negb_true_iff in Hc. cbn [underscores_ok]. rewrite Hc. apply IH, Hs.
Qed.

Lemma filter_no_underscore (s : str) :
  no_sep 95 s = true -> filter (fun c => c <> 95) s = s.
Proof.
  induction s as [|c s IH]; intros H; [reflexivity|].
  cbn [no_sep forallb] in H. apply andb_prop in H as [Hc Hs].
  apply negb_true_iff, Z.eqb_neq in Hc.
  change (filter (fun c => c <> 95) (c :: s))
    with (@filter Z (list Z) _ (fun c => c <> 95) _ (c :: s)).
  rewrite filter_cons, decide_True by exact Hc. f_equal. apply IH, Hs.
Qed.

Lemma digit_thousandths (f : Z) :
  0 <= f < 1000 ->
  forallb is_digit [48 + f / 100; 48 + f / 10 mod 10; 48 + f mod 10] = true
  /\ digits_value [48 + f / 100; 48 + f / 10 mod 10; 48 + f mod 10] 0 = f.
Proof.
  intros Hf.
  assert (H1 : 0 <= f / 100 < 10).
  { split; [apply Z.div_pos; lia | apply Z.div_lt_upper_bound; lia]. }
  pose proof (Z.mod_pos_bound (f / 10) 10 ltac:(lia)) as H2.
  pose proof (Z.mod_pos_bound f 10 ltac:(lia)) as H3.
  split.
  - cbn [forallb]. rewrite !(proj2 (is_digit_range _)) by lia. reflexivity.
  - unfold digits_value. cbn [fold_left].
    pose proof (Z.div_mod f 10 ltac:(lia)).
    pose proof (Z.div_mod (f / 10) 10 ltac:(lia)).
    replace (f / 100) with (f / 10 / 10)
      by (rewrite Z.div_div by lia; reflexivity).
    lia.
Qed.

Lemma digits_value_thousandths (a f : Z) :
  0 <= f < 1000 ->
  digits_value [48 + f / 100; 48 + f / 10 mod 10; 48 + f mod 10] a
  = a * 1000 + f.
Proof.
  intros Hf. unfold digits_value. cbn [fold_left].
  pose proof (Z.div_mod f 10 ltac:(lia)).
  pose proof (Z.div_mod (f / 10) 10 ltac:(lia)).
  replace (f / 100) with (f / 10 / 10)
    by (rewrite Z.div_div by lia; reflexivity).
  lia.
Qed.

Lemma lower_digit (c : Z) : is_digit c = true -> lower c = c.
Proof.
  rewrite is_digit_range. intros H. unfold lower.
  destruct (Z.leb_spec 65 c); [lia | reflexivity].
Qed.

Lemma milliseconds_shape (a f : Z) :
  0 <= a -> 0 <= f < 1000 ->
  exists c w,
    str_of_int a = c :: w
    /\ is_digit c = true
    /\ forallb is_digit (c :: w) = true
    /\ digits_value (c :: w) 0 = a
    /\ milliseconds a f
       = (c :: w) ++ 46 :: [48 + f / 100; 48 + f / 10 mod 10; 48 + f mod 10].
Proof.
  intros Ha Hf. unfold milliseconds. rewrite str_of_int_nonneg by exact Ha.
  destruct (str_of_nonneg_spec a Ha) as (Hd & Hne & Hv).
  destruct (str_of_nonneg a) as [|c w]; [congruence|].
  exists c, w. repeat split; try assumption.
  simpl in Hd. apply andb_prop in Hd. tauto.
Qed.

(** [float] of a time [whole.ddd] in milliseconds. *)
Lemma binary64_of_milliseconds (a f : Z) :
  0 <= a -> 0 <= f < 1000 ->
  binary64_of_str (milliseconds a f)
  = Ok (binary64_of_decimal (a * 1000 + f) (- 3)
          (length (str_of_int a) + 3)).
Proof.
  intros Ha Hf.
  destruct (milliseconds_shape a f Ha Hf) as (c & w & Hw & Hc & Hd & Hv & ->).
  rewrite Hw.
  destruct (digit_thousandths f Hf) as (Hfd & _).
  set (F := [48 + f / 100; 48 + f / 10 mod 10; 48 + f mod 10]) in *.
  assert (Hsep : no_sep 95 ((c :: w) ++ 46 :: F) = true).
  { rewrite no_sep_app. change (no_sep 95 (46 :: F)) with (no_sep 95 F).
    rewrite !no_sep_digits by (reflexivity || assumption). reflexivity. }
  unfold binary64_of_str.
  replace (int_strip ((c :: w) ++ 46 :: F)) with ((c :: w) ++ 46 :: F).
  2: { symmetry. apply strip_with_ends; intros x Hx; apply digit_not_int_space.
       - injection Hx as <-. exact Hc.
       - change (46 :: F) with ([46; 48 + f / 100; 48 + f / 10 mod 10]
                                 ++ [48 + f mod 10]) in Hx.
         rewrite app_assoc, last_snoc in Hx. injection Hx as <-.
         apply is_digit_mod. }
  rewrite underscores_ok_none by exact Hsep. cbn [negb].
  rewrite filter_no_underscore by exact Hsep.
  change ((c :: w) ++ 46 :: F) with (c :: (w ++ 46 :: F)).
  cbv beta iota zeta.
  rewrite (sign_match_digit c [] _ _ _ Hc).
  cbn [map]. rewrite (lower_digit c Hc).
  apply is_digit_range in Hc as Hcr.
  rewrite !bool_decide_eq_false_2
    by (intros [= Hx]; vm_compute in Hx; lia).
  cbn [orb].
  change (c :: (w ++ 46 :: F)) with ((c :: w) ++ 46 :: F).
  unfold decimal.
  rewrite (digit_run_digits (c :: w) (46 :: F) 0 0 Hd)
    by (intros x [= <-]; reflexivity).
  rewrite <- (app_nil_r F) at 1.
  rewrite (digit_run_digits F [] _ 0 Hfd) by (intros x [=]).
  rewrite Hv. subst F. rewrite digits_value_thousandths by exact Hf.
  cbn [length Nat.add exponent].
  replace (0 - Z.of_nat 3) with (- 3) by reflexivity.
  reflexivity.
Qed.

(** [int(float(s))] of such a time is its whole part: the thousandths are
    cut off, not rounded. *)
Lemma int_float_milliseconds (a f : Z) :
  0 <= a < 2 ^ 40 -> 0 <= f < 1000 ->
  @int_float Binary64 (milliseconds a f) = Ok a.
Proof.
  intros Ha Hf. unfold int_float. cbn [float_of_str int_of_float Binary64].
  rewrite binary64_of_milliseconds by lia.
  unfold mbind, result_bind, binary64_of_decimal.
  destruct (Z.eqb_spec (a * 1000 + f) 0) as [Hz|Hnz].
  - cbn. f_equal. rewrite Z.quot_0_l by discriminate. lia.
  - replace (310 <? - 3) with false by reflexivity.
    destruct (Z.ltb_spec (- 3 + Z.of_nat (length (str_of_int a) + 3)) (- 330));
      [lia|].
    replace (0 <=? - 3) with false by reflexivity.
    change (10 ^ (- - 3)) with 1000.
    rewrite nearest_binary64_to_int.
    + f_equal. symmetry. apply Z.div_unique_pos with (r := f); lia.
    + assert (2 ^ 40 * 1000 + 1000 < 2 ^ 51) by (vm_compute; reflexivity). lia.
    + vm_compute. split; reflexivity.
Qed.

(** ** The lines of the round-trip times *)

Lemma drop_last_app (s t : str) (k : nat) :
  length t = k -> drop_last k (s ++ t) = s.
Proof.
  intros <-. unfold drop_last. rewrite length_app.
  replace (length s + length t - length t)%nat with (length s) by lia.
  apply take_app_length.
Qed.

Lemma windows_rtt_line_join (a b c : Z) :
  windows_rtt_line a b c
  = join 32 [lit "Minimum"; lit "="; str_of_int a ++ lit "ms,";
             lit "Maximum"; lit "="; str_of_int b ++ lit "ms,";
             lit "Average"; lit "="; str_of_int c ++ lit "ms"].
Proof.
  unfold windows_rtt_line. cbn -[str_of_int].
  rewrite <- !app_assoc. reflexivity.
Qed.

Lemma windows_rtt_of_line (a b c : Z) :
  counter a -> counter b -> counter c ->
  windows_rtt (split 32 (windows_rtt_line a b c)) = Ok [a; b; c].
Proof.
  intros Ha Hb Hc. rewrite windows_rtt_line_join.
  rewrite split_join; [|discriminate|].
  - unfold windows_rtt, index, mbind, result_bind.
    cbn -[str_of_int lit py_int drop_last].
    rewrite !drop_last_app by reflexivity.
    rewrite !counter_int by assumption. reflexivity.
  - cbn -[str_of_int no_sep lit].
    rewrite !no_sep_app, !(counter_no_sep 32) by (reflexivity || assumption).
    reflexivity.
Qed.

Lemma windows_rtt_line_last (a b c : Z) :
  last (windows_rtt_line a b c) = Some 115.
Proof. unfold windows_rtt_line. repeat apply last_app_r. reflexivity. Qed.

Section RttLineFacts.
Context {F : PyFloat} (env : Env).

(** On Windows, a line that reads [Minimum = a ms, Maximum = b ms,
    Average = c ms] between blanks sets the three times. *)
Lemma scan_value_windows_rtt (o : PingResult) (indent trail : str)
    (a b c : Z) :
  is_windows env = true -> blank indent -> blank trail ->
  counter a -> counter b -> counter c ->
  scan_value env o (indent ++ windows_rtt_line a b c ++ trail)
  = Ok (with_rtt [a; b; c] o).
Proof.
  intros Hw Hi Ht Ha Hb Hc. unfold scan_value. rewrite Hw.
  rewrite (strip_padded indent _ trail 77 115)
    by (assumption || reflexivity || apply windows_rtt_line_last).
  rewrite (lstrip_padded indent _ trail 77) by (assumption || reflexivity).
  replace (startswith (lit "Minimum") _) with true by reflexivity.
  rewrite windows_rtt_of_line by assumption. reflexivity.
Qed.

Lemma scan_value_keeps_rtt (o o' : PingResult) (line : str) :
  is_rtt_line env line = false ->
  scan_value env o line = Ok o' -> rtt o' = rtt o.
Proof.
  unfold is_rtt_line, scan_value, mbind, result_bind.
  destruct (is_windows env); intros ->.
  - destruct (startswith (lit "Packets:") _).
    + destruct (windows_packets _); [|discriminate].
      intros [= <-]. reflexivity.
    + intros [= <-]. reflexivity.
  - destruct (contains (lit "packets transmitted,") _).
    + destruct (posix_packets _); [|discriminate].
      intros [= <-]. reflexivity.
    + intros [= <-]. reflexivity.
Qed.

Lemma scan_values_keep_rtt (lines : list str) (o o' : PingResult) :
  Forall (fun l => is_rtt_line env l = false) lines ->
  scan_values env lines o = Ok o' -> rtt o' = rtt o.
Proof.
  intros H. revert o. induction H as [|l lines Hl _ IH]; simpl; intros o.
  - intros [= <-]. reflexivity.
  - unfold mbind, result_bind.
    destruct (scan_value env o l) as [o1|] eqn:E; [|discriminate].
    intros H'. rewrite (IH _ H'). eapply scan_value_keeps_rtt; eauto.
Qed.

(** The times of a result are those its last such line sets. *)
Lemma scan_values_last_rtt (lines before after : list str) (line : str)
    (o o' : PingResult) :
  lines = before ++ line :: after ->
  Forall (fun l => is_rtt_line env l = false) after ->
  scan_values env lines o = Ok o' ->
  exists o1 o2, scan_value env o1 line = Ok o2 /\ rtt o' = rtt o2.
Proof.
  intros -> Hafter. rewrite scan_values_app. unfold mbind, result_bind.
  destruct (scan_values env before o) as [o1|]; [|discriminate]. simpl.
  unfold mbind, result_bind.
  destruct (scan_value env o1 line) as [o2|] eqn:E; [|discriminate].
  intros H. exists o1, o2. split; [exact E|].
  eapply scan_values_keep_rtt; eauto.
Qed.

(** X6: on Windows, when the command exits with zero and the last
    [Minimum] line of its output reads
    [Minimum = a ms, Maximum = b ms, Average = c ms], the result of the
    probe holds [rtt = [a, b, c]]: minimum, maximum, average. *)
Theorem windows_rtt_read (self : Pinger) (t : str) (h h' : heap) (r : ref)
    (o : PingResult) (process : CompletedProcess) (out err line : str)
    (a b c : Z) :
  is_windows env = true ->
  popen env (_ping_cmd env self ++ lit " " ++ t) = Ok process ->
  decode_utf8 (stdout process) = Ok out ->
  decode_utf8 (stderr process) = Ok err ->
  returncode process = 0 ->
  last_rtt_line env out line ->
  counter a -> counter b -> counter c ->
  reads line (windows_rtt_line a b c) ->
  _ping_it env self t h = (h', Ok r) -> h' !! r = Some o ->
  rtt o = [a; b; c] /\ rttMin o = a /\ rttMax o = b /\ rttAvg o = c.
Proof.
  intros Hw Hp Ho He Hrc (before & after & Hlines & _ & Hafter)
    Ha Hb Hc (indent & trail & Hi & Ht & ->) Hrun Hobj.
  apply (_ping_it_value env self t h h' r o Hrun) in Hobj as (Hv & _ & _).
  rewrite (probe_success env self t process out err Hp Ho He Hrc) in Hv.
  destruct (scan_values_last_rtt _ _ _ _ _ _ Hlines Hafter Hv)
    as (o1 & o2 & Hline & Hr).
  rewrite scan_value_windows_rtt in Hline by assumption.
  injection Hline as <-.
  unfold rttMin, rttMax, rttAvg. rewrite Hr. auto.
Qed.

End RttLineFacts.

(** The Windows sample: the times are those of its [Minimum] line. *)
Lemma windows_rtt_read_reply :
  exists o,
    _ping_it (windows windows_reply) (started (windows windows_reply) ["h"%string])
      (lit "h") [PingResult_zero]
    = ([PingResult_zero; o], Ok 1%nat)
    /\ rtt o = [1; 3; 2] /\ rttMin o = 1 /\ rttMax o = 3 /\ rttAvg o = 2.
Proof.
  pose (env := windows windows_reply).
  pose (o := {| packets := [4; 4; 0]; rtt := [1; 3; 2]; error := [] |}).
  assert (Hrun : _ping_it env (started env ["h"%string]) (lit "h")
                   [PingResult_zero] = ([PingResult_zero; o], Ok 1%nat))
    by (vm_compute; reflexivity).
  assert (Hdec : decode_utf8 (match windows_reply with
                                  | Ok p => stdout p
                                  | Raise _ => []
                                  end) = Ok (stdout_text windows_reply))
    by (vm_compute; reflexivity).
  exists o. split; [exact Hrun|].
  apply (windows_rtt_read env (started env ["h"%string]) (lit "h")
           [PingResult_zero] [PingResult_zero; o] 1%nat o
           {| returncode := 0;
              stdout := match windows_reply with
                        | Ok p => stdout p
                        | Raise _ => []
                        end;
              stderr := [] |}
           (stdout_text windows_reply) [] (stdout_line windows_reply 10)
           1 3 2 eq_refl eq_refl Hdec eq_refl eq_refl);
    try (apply small_counter; lia); try exact Hrun; try reflexivity.
  - exists (take 10 (split 10 (stdout_text windows_reply))),
      (drop 11 (split 10 (stdout_text windows_reply))).
    split; [vm_compute; reflexivity|].
    split; [vm_compute; reflexivity|].
    vm_compute. repeat constructor.
  - exists (lit "    "), [13]. repeat split.
Defined.

(** *** The POSIX line *)

Lemma milliseconds_no_sep (sep a f : Z) :
  0 <= a -> 0 <= f < 1000 -> is_digit sep = false -> sep <> 46 ->
  no_sep sep (milliseconds a f) = true.
Proof.
  intros Ha Hf Hs Hdot.
  destruct (milliseconds_shape a f Ha Hf) as (c & w & _ & _ & Hd & _ & ->).
  destruct (digit_thousandths f Hf) as (Hfd & _).
  rewrite no_sep_app.
  change (no_sep sep (46 :: ?s)) with (negb (46 =? sep) && no_sep sep s).
  rewrite !no_sep_digits by assumption.
  replace (46 =? sep) with false by (symmetry; apply Z.eqb_neq; congruence).
  reflexivity.
Qed.

Lemma posix_rtt_line_join (vmin vavg vmax mdev rest : str) :
  posix_rtt_line vmin vavg vmax mdev rest
  = fold_right (fun x acc => x ++ 32 :: acc) rest
      [lit "rtt"; lit "min/avg/max/mdev"; lit "=";
       join 47 [vmin; vavg; vmax; mdev]].
Proof.
  unfold posix_rtt_line. cbn [join fold_right].
  repeat rewrite <- ?app_assoc, <- ?app_comm_cons. reflexivity.
Qed.

Lemma index_split_fields (sep : Z) (fields : list str) (rest : str) (k : nat)
    (f : str) :
  forallb (no_sep sep) fields = true -> fields !! k = Some f ->
  index (split sep (fold_right (fun x acc => x ++ sep :: acc) rest fields)) k
  = Ok f.
Proof.
  revert k. induction fields as [|x fields IH]; intros k Hf Hk;
    [discriminate|].
  cbn [forallb] in Hf. apply andb_prop in Hf as [Hx Hfs].
  cbn [fold_right]. rewrite split_field by exact Hx.
  destruct k as [|k].
  - injection Hk as ->. reflexivity.
  - specialize (IH k Hfs Hk). unfold index in *. exact IH.
Qed.

Lemma posix_rtt_of_line (a fa b fb c fc : Z) (mdev rest : str) :
  0 <= a < 2 ^ 40 -> 0 <= b < 2 ^ 40 -> 0 <= c < 2 ^ 40 ->
  0 <= fa < 1000 -> 0 <= fb < 1000 -> 0 <= fc < 1000 ->
  no_sep 32 mdev = true ->
  @posix_rtt Binary64
    (posix_rtt_line (milliseconds a fa) (milliseconds b fb)
       (milliseconds c fc) mdev rest)
  = Ok [a; c; b].
Proof.
  intros Ha Hb Hc Hfa Hfb Hfc Hm. unfold posix_rtt.
  set (X := join 47 [milliseconds a fa; milliseconds b fb;
                     milliseconds c fc; mdev]).
  assert (HX : no_sep 32 X = true).
  { subst X. cbn [join].
    rewrite !no_sep_app.
    change (no_sep 32 (47 :: ?s)) with (no_sep 32 s).
    rewrite !no_sep_app.
    change (no_sep 32 (47 :: ?s)) with (no_sep 32 s).
    rewrite !no_sep_app.
    change (no_sep 32 (47 :: ?s)) with (no_sep 32 s).
    rewrite !milliseconds_no_sep by (lia || reflexivity || discriminate).
    rewrite Hm. reflexivity. }
  rewrite posix_rtt_line_join. fold X.
  rewrite (index_split_fields 32 _ rest 3 X)
    by (cbn [forallb]; rewrite ?HX; reflexivity).
  unfold mbind, result_bind.
  assert (Hsplit : split 47 X
                   = milliseconds a fa :: milliseconds b fb
                     :: milliseconds c fc :: split 47 mdev).
  { subst X. cbn [join].
    rewrite !split_field
      by (apply milliseconds_no_sep; lia || reflexivity || discriminate).
    reflexivity. }
  rewrite Hsplit. cbn [index lookup list_lookup].
  rewrite !int_float_milliseconds by assumption. reflexivity.
Qed.

Section PosixRtt.
Context (env : Env).

Lemma scan_value_posix_rtt (o : PingResult) (indent : str)
    (a fa b fb c fc : Z) (mdev rest : str) :
  is_windows env = false -> blank indent ->
  0 <= a < 2 ^ 40 -> 0 <= b < 2 ^ 40 -> 0 <= c < 2 ^ 40 ->
  0 <= fa < 1000 -> 0 <= fb < 1000 -> 0 <= fc < 1000 ->
  no_sep 32 mdev = true ->
  @scan_value Binary64 env o
    (indent ++ posix_rtt_line (milliseconds a fa) (milliseconds b fb)
                 (milliseconds c fc) mdev rest)
  = Ok (with_rtt [a; c; b] o).
Proof.
  intros Hw Hi Ha Hb Hc Hfa Hfb Hfc Hm. unfold scan_value. rewrite Hw.
  rewrite <- (app_nil_r (posix_rtt_line _ _ _ _ _)).
  rewrite (lstrip_padded indent _ [] 114) by (assumption || reflexivity).
  rewrite app_nil_r.
  replace (contains (lit "rtt min") _) with true by reflexivity.
  rewrite posix_rtt_of_line by assumption. reflexivity.
Qed.

(** X7: outside Windows, when the command exits with zero and the last
    [rtt min] line of its output reads
    [rtt min/avg/max/mdev = a.ddd/b.ddd/c.ddd/... ], the result of the probe
    holds the whole milliseconds [rtt = [a, c, b]], minimum, maximum,
    average: the thousandths are cut off, not rounded, so that a time below
    one millisecond is stored as 0. *)
Theorem posix_rtt_truncated (self : Pinger) (t : str) (h h' : heap) (r : ref)
    (o : PingResult) (process : CompletedProcess) (out err : str)
    (indent mdev rest : str) (a fa b fb c fc : Z) :
  is_windows env = false ->
  popen env (_ping_cmd env self ++ lit " " ++ t) = Ok process ->
  decode_utf8 (stdout process) = Ok out ->
  decode_utf8 (stderr process) = Ok err ->
  returncode process = 0 ->
  last_rtt_line env out
    (indent ++ posix_rtt_line (milliseconds a fa) (milliseconds b fb)
                 (milliseconds c fc) mdev rest) ->
  blank indent -> no_sep 32 mdev = true ->
  0 <= a < 2 ^ 40 -> 0 <= b < 2 ^ 40 -> 0 <= c < 2 ^ 40 ->
  0 <= fa < 1000 -> 0 <= fb < 1000 -> 0 <= fc < 1000 ->
  @_ping_it Binary64 env self t h = (h', Ok r) -> h' !! r = Some o ->
  rtt o = [a; c; b] /\ rttMin o = a /\ rttMax o = c /\ rttAvg o = b.
Proof.
  intros Hw Hp Ho He Hrc (before & after & Hlines & _ & Hafter)
    Hi Hm Ha Hb Hc Hfa Hfb Hfc Hrun Hobj.
  apply (_ping_it_value env self t h h' r o Hrun) in Hobj as (Hv & _ & _).
  rewrite (probe_success env self t process out err Hp Ho He Hrc) in Hv.
  destruct (scan_values_last_rtt env _ _ _ _ _ _ Hlines Hafter Hv)
    as (o1 & o2 & Hline & Hr).
  rewrite scan_value_posix_rtt in Hline by assumption.
  injection Hline as <-.
  unfold rttMin, rttMax, rttAvg. rewrite Hr. auto.
Qed.

End PosixRtt.

(** The Linux sample: 12.412, 22.105 and 31.798 milliseconds are stored as
    12, 22 and 31. *)
Lemma posix_rtt_truncated_linux_half :
  exists o,
    _ping_it (posix linux_half) (started (posix linux_half) ["h"%string])
      (lit "h") [PingResult_zero]
    = ([PingResult_zero; o], Ok 1%nat)
    /\ rtt o = [12; 31; 22]
    /\ rttMin o = 12 /\ rttMax o = 31 /\ rttAvg o = 22.
Proof.
  pose (env := posix linux_half).
  pose (o := {| packets := [4; 2; 50]; rtt := [12; 31; 22]; error := [] |}).
  assert (Hrun : _ping_it env (started env ["h"%string]) (lit "h")
                   [PingResult_zero] = ([PingResult_zero; o], Ok 1%nat))
    by (vm_compute; reflexivity).
  assert (Hdec : decode_utf8 (match linux_half with
                                  | Ok p => stdout p
                                  | Raise _ => []
                                  end) = Ok (stdout_text linux_half))
    by (vm_compute; reflexivity).
  exists o. split; [exact Hrun|].
  apply (posix_rtt_truncated env (started env ["h"%string]) (lit "h")
           [PingResult_zero] [PingResult_zero; o] 1%nat o
           {| returncode := 0;
              stdout := match linux_half with
                        | Ok p => stdout p
                        | Raise _ => []
                        end;
              stderr := [] |}
           (stdout_text linux_half) [] [] (lit "9.693") (lit "ms")
           12 412 22 105 31 798 eq_refl eq_refl Hdec eq_refl eq_refl);
    try exact Hrun; try reflexivity; try lia.
  exists (take 6 (split 10 (stdout_text linux_half))),
    (drop 7 (split 10 (stdout_text linux_half))).
  split; [vm_compute; reflexivity|].
  split; [vm_compute; reflexivity|].
  vm_compute. repeat constructor.
Defined.

(** ** Output without a summary *)

Section NoSummary.
Context {F : PyFloat} (env : Env).

Lemma scan_value_other (o : PingResult) (line : str) :
  is_rtt_line env line = false -> is_packets_line env line = false ->
  scan_value env o line = Ok o.
Proof.
  unfold is_rtt_line, is_packets_line, scan_value.
  destruct (is_windows env); intros ->; simpl; intros ->; reflexivity.
Qed.

Lemma scan_values_other (lines : list str) (o : PingResult) :
  Forall (fun l => is_rtt_line env l = false
                   /\ is_packets_line env l = false) lines ->
  scan_values env lines o = Ok o.
Proof.
  induction 1 as [|l lines [Hr Hp] _ IH]; simpl; [reflexivity|].
  rewrite scan_value_other by assumption. exact IH.
Qed.

(** X8: when the command exits with zero and no line of its output
    carries one of the markers the parser looks for ([Minimum] and
    [Packets:] at the start of a line on Windows, [rtt min] and
    [packets transmitted,] elsewhere), the probe returns the result of a
    host that was never probed: all counters and times 0 and an empty
    error message, whatever else the output says. *)
Theorem unrecognised_output (self : Pinger) (t : str) (h : heap)
    (process : CompletedProcess) (out err : str) :
  popen env (_ping_cmd env self ++ lit " " ++ t) = Ok process ->
  decode_utf8 (stdout process) = Ok out ->
  decode_utf8 (stderr process) = Ok err ->
  returncode process = 0 ->
  Forall (fun l => is_rtt_line env l = false
                   /\ is_packets_line env l = false) (split 10 out) ->
  _ping_it env self t h = (h ++ [PingResult_zero], Ok (length h)).
Proof.
  intros Hp Ho He Hrc Hlines. apply _ping_it_returns.
  rewrite (probe_success env self t process out err Hp Ho He Hrc).
  apply scan_values_other, Hlines.
Qed.

End NoSummary.

(** Windows in Italian: the summary reads [Pacchetti:] and [Minimo]. *)
Lemma unrecognised_output_italian :
  _ping_it (windows windows_reply_italian)
    (started (windows windows_reply_italian) ["h"%string]) (lit "h")
    [PingResult_zero]
  = ([PingResult_zero] ++ [PingResult_zero], Ok (length [PingResult_zero])).
Proof.
  pose (env := windows windows_reply_italian).
  apply (unrecognised_output env (started env ["h"%string]) (lit "h")
           [PingResult_zero]
           {| returncode := 0;
              stdout := match windows_reply_italian with
                        | Ok p => stdout p
                        | Raise _ => []
                        end;
              stderr := [] |}
           (stdout_text windows_reply_italian) []);
    try reflexivity; try (vm_compute; reflexivity).
  match goal with
  | |- Forall ?P (split 10 ?s) =>
      let l := eval vm_compute in (split 10 s) in change (Forall P l)
  end.
  repeat (constructor; [split; vm_compute; reflexivity|]). constructor.
Defined.

(** ** The loss field of the POSIX summary *)

Lemma py_int_raises (s : str) (e : exn) : py_int s = Raise e -> e = ValueError.
Proof.
  unfold py_int.
  destruct (match int_strip s with
            | 45 :: r => (true, r)
            | 43 :: r => (false, r)
            | _ => (false, int_strip s)
            end) as [neg body].
  destruct (digits body) as [[v n]|]; [|intros [= <-]; reflexivity].
  destruct (_ <? _)%nat; [intros [= <-]; reflexivity | discriminate].
Qed.

Section LossField.
Context {F : PyFloat} (env : Env).

(** Elsewhere, the third counter of a line
    [n packets transmitted, r received, field ...] is [int(field[:-1])]. *)
Lemma scan_value_posix_loss (o : PingResult) (indent : str) (n r : Z)
    (field rest : str) :
  is_windows env = false -> blank indent -> counter n -> counter r ->
  no_sep 32 field = true ->
  contains (lit "rtt min") (field ++ 32 :: rest) = false ->
  scan_value env o (indent ++ posix_packets_line n r (field ++ 32 :: rest))
  = v ← py_int (drop_last 1 field); Ok (with_packets [n; r; v] o).
Proof.
  intros Hw Hi Hn Hr Hf Hrest. unfold scan_value. rewrite Hw.
  rewrite lstrip_posix_packets_line by assumption.
  rewrite posix_packets_line_rtt, Hrest by assumption.
  rewrite posix_packets_line_marker by assumption.
  rewrite posix_packets_line_fields by assumption.
  rewrite split_field by exact Hf.
  unfold posix_packets, index, mbind, result_bind.
  cbn -[str_of_int lit py_int drop_last split].
  rewrite !counter_int by assumption.
  destruct (py_int (drop_last 1 field)); reflexivity.
Qed.

(** X9: outside Windows, when the command exits with zero and the first
    summary line of its output reads
    [n packets transmitted, r received, field ...], the third counter is
    [int(field[:-1])]: for [50%] the percentage 50, not a number of
    packets.  When [field[:-1]] is not an integer, as for [33.3333%] or
    [+1 duplicates], [_ping_it] raises [ValueError]. *)
Theorem posix_loss_field (self : Pinger) (t : str) (h : heap)
    (process : CompletedProcess) (out err : str)
    (before after : list str) (indent field rest : str) (n r : Z) :
  is_windows env = false ->
  popen env (_ping_cmd env self ++ lit " " ++ t) = Ok process ->
  decode_utf8 (stdout process) = Ok out ->
  decode_utf8 (stderr process) = Ok err ->
  returncode process = 0 ->
  split 10 out
  = before ++ (indent ++ posix_packets_line n r (field ++ 32 :: rest))
              :: after ->
  Forall (fun l => is_rtt_line env l = false
                   /\ is_packets_line env l = false) before ->
  blank indent -> counter n -> counter r -> no_sep 32 field = true ->
  contains (lit "rtt min") (field ++ 32 :: rest) = false ->
  (forall e, py_int (drop_last 1 field) = Raise e ->
     exists o, _ping_it env self t h = (h ++ [o], Raise ValueError))
  /\ (forall v h' ref o,
        py_int (drop_last 1 field) = Ok v ->
        Forall (fun l => is_packets_line env l = false) after ->
        _ping_it env self t h = (h', Ok ref) -> h' !! ref = Some o ->
        packets o = [n; r; v]).
Proof.
  intros Hw Hp Ho He Hrc Hlines Hbefore Hi Hn Hr Hf Hrest.
  pose proof (probe_success env self t process out err Hp Ho He Hrc) as Hv.
  rewrite Hlines, scan_values_app in Hv.
  rewrite (scan_values_other env before _ Hbefore) in Hv.
  unfold mbind at 1, result_bind at 1 in Hv. cbn [scan_values] in Hv.
  rewrite scan_value_posix_loss in Hv by assumption.
  split.
  - intros e Hfield. rewrite Hfield in Hv.
    rewrite (py_int_raises _ _ Hfield) in Hv.
    apply _ping_it_raises. exact Hv.
  - intros v h' ref o Hfield Hafter Hrun Hobj. rewrite Hfield in Hv.
    apply (_ping_it_value env self t h h' ref o Hrun) in Hobj as (Hpr & _ & _).
    rewrite Hv in Hpr. unfold mbind, result_bind in Hpr.
    apply (scan_values_keep_packets env after _ _ Hafter) in Hpr.
    exact Hpr.
Qed.

End LossField.

(** Two answers to three requests: [33.3333% packet loss]. *)
Lemma posix_loss_field_third :
  exists o,
    _ping_it (posix linux_third) (started (posix linux_third) ["h"%string])
      (lit "h") [PingResult_zero]
    = ([PingResult_zero] ++ [o], Raise ValueError).
Proof.
  pose (env := posix linux_third).
  destruct (posix_loss_field env (started env ["h"%string]) (lit "h")
              [PingResult_zero]
              {| returncode := 0;
                 stdout := match linux_third with
                           | Ok p => stdout p
                           | Raise _ => []
                           end;
                 stderr := [] |}
              (stdout_text linux_third) []
              (take 5 (split 10 (stdout_text linux_third)))
              (drop 6 (split 10 (stdout_text linux_third)))
              [] (lit "33.3333%") (lit "packet loss, time 2003ms") 3 2)
    as [H _]; try reflexivity; try (vm_compute; reflexivity);
    try (apply small_counter; lia).
  - match goal with
    | |- Forall ?P ?lines =>
        let l := eval vm_compute in lines in change (Forall P l)
    end.
    repeat (constructor; [split; vm_compute; reflexivity|]). constructor.
  - apply (H ValueError). vm_compute. reflexivity.
Defined.

(** ** The elapsed time *)

Lemma format_total_seconds (d : Z) :
  0 <= d < 2 ^ 53 ->
  exists n,
    format_1f (total_seconds d)
    = str_of_nonneg (n / 10) ++ lit "." ++ str_of_nonneg (n mod 10)
    /\ 0 <= n
    /\ - 50000 <= 100000 * n - d <= 50000.
Proof.
  intros Hd. unfold total_seconds.
  destruct (Z.eqb_spec d 0) as [->|Hnz].
  - exists 0. split; [reflexivity | lia].
  - destruct (Z.ltb_spec d 0) as [Hneg|_]; [lia|].
    destruct (nearest_binary64_scaled d (10 ^ 6)) as (s & Hs & ->);
      [lia | vm_compute; split; reflexivity |].
    change (Z.log2 (10 ^ 6)) with 19 in Hs.
    assert (Hld : 0 <= Z.log2 d < 53).
    { split; [apply Z.log2_nonneg|]. apply Z.log2_lt_pow2; lia. }
    assert (Hs19 : 19 <= s) by lia.
    assert (HS : 2 ^ 19 <= 2 ^ s) by (apply Z.pow_le_mono_r; lia).
    change (2 ^ 19) with 524288 in HS.
    change (10 ^ 6) with 1000000.
    set (S := 2 ^ s) in *.
    pose proof (round_half_even_spec (d * S) 1000000 ltac:(nia) ltac:(lia))
      as Hnum.
    pose proof (round_half_even_range (d * S) 1000000 ltac:(nia) ltac:(lia))
      as Hnum0.
    set (num := round_half_even (d * S) 1000000) in *.
    unfold format_1f. rewrite Z2N.id by lia. fold S.
    destruct (Z.ltb_spec num 0) as [Hlt|_]; [lia|].
    rewrite Z.abs_eq by lia.
    pose proof (round_half_even_spec (num * 10) S ltac:(lia) ltac:(lia))
      as Hn.
    pose proof (round_half_even_range (num * 10) S ltac:(lia) ltac:(lia))
      as Hn0.
    set (n := round_half_even (num * 10) S) in *.
    exists n. split; [reflexivity|]. split; [lia|].
    assert (Hupper : 20 * (S * (100000 * n - d)) <= S * 1000000 + 10000000)
      by nia.
    assert (Hlower : - (S * 1000000 + 10000000) <= 20 * (S * (100000 * n - d)))
      by nia.
    split.
    + destruct (Z_le_gt_dec (- 50000) (100000 * n - d)) as [|Hbad];
        [assumption|].
      assert (S * (100000 * n - d) <= S * (- 50001)) by nia.
      nia.
    + destruct (Z_le_gt_dec (100000 * n - d) 50000) as [|Hbad];
        [assumption|].
      assert (S * 50001 <= S * (100000 * n - d)) by nia.
      nia.
Qed.

Section Elapsed.
Context {F : PyFloat} (env : Env).

Lemma step_times (i : nat) (m m' : pool) :
  step env i m = Some m' ->
  _start_time (pinger m') = _start_time (pinger m)
  /\ _end_time (pinger m') = _end_time (pinger m).
Proof.
  unfold step. destruct (workers m !! i) as [[|t|t r]|]; [| | |discriminate].
  - destruct (queue m); [discriminate|]. intros [= <-]. auto.
  - destruct (_ping_it env (pinger m) t (store m)) as [h [r|e]];
      intros [= <-]; auto.
  - intros [= <-]. auto.
Qed.

Lemma steps_times (m m' : pool) :
  steps env m m' ->
  _start_time (pinger m') = _start_time (pinger m)
  /\ _end_time (pinger m') = _end_time (pinger m).
Proof.
  induction 1 as [|m m1 m2 [i Hi] _ [IHs IHe]]; [auto|].
  destruct (step_times i m m1 Hi) as [Hs He]. split; congruence.
Qed.

(** X10: after a run of [ping_targets] that completes between the clock
    readings [t0 <= t1] (in microseconds), [elapsed_seconds] is
    [<seconds>.<tenth> seconds], and the tenths it shows are within 0.05 s
    of the time between the two readings (for a run shorter than [2^53]
    microseconds, some 285 years). *)
Theorem elapsed_seconds_after_run (self : Pinger) (h h' : heap) (t0 t1 : Z)
    (p' : Pinger) :
  ping_targets env self h t0 t1 (Ok tt) p' h' ->
  0 <= t1 - t0 < 2 ^ 53 ->
  exists n,
    elapsed_seconds p'
    = str_of_nonneg (n / 10) ++ lit "." ++ str_of_nonneg (n mod 10)
      ++ lit " seconds"
    /\ 0 <= n
    /\ - 50000 <= 100000 * n - (t1 - t0) <= 50000.
Proof.
  intros Hrun Hd.
  inversion Hrun as [|m Hw Hsteps Hterm]; subst.
  destruct (steps_times _ _ Hsteps) as [Hs _]. simpl in Hs.
  destruct (format_total_seconds (t1 - t0) Hd) as (n & Hfmt & Hn & Hb).
  exists n. split; [|split; assumption].
  unfold elapsed_seconds. simpl. rewrite Hs, Hfmt.
  rewrite <- !app_assoc. reflexivity.
Qed.

End Elapsed.

(** The sample network, between readings 3.26 s apart. *)
Lemma elapsed_seconds_after_run_lan :
  exists p' h' n,
    ping_targets lan (started lan lan_targets) [PingResult_zero] 0 3260000
      (Ok tt) p' h'
    /\ elapsed_seconds p'
       = str_of_nonneg (n / 10) ++ lit "." ++ str_of_nonneg (n mod 10)
         ++ lit " seconds"
    /\ 0 <= n
    /\ - 50000 <= 100000 * n - (3260000 - 0) <= 50000.
Proof.
  destruct (ping_targets_completes lan (map lit lan_targets) []
              [PingResult_zero] (started lan lan_targets) 0 3260000
              lan_targets_nonempty (fresh_pinger_started lan lan_targets))
    as (p' & h' & Hrun).
  destruct (elapsed_seconds_after_run lan (started lan lan_targets)
              [PingResult_zero] h' 0 3260000 p' Hrun)
    as (n & H); [vm_compute; split; congruence|].
  exists p', h', n. split; [exact Hrun | exact H].
Defined.

(** ** The columns of [output_text] *)

Lemma ljust_length (n : nat) (s : str) : length (ljust n s) = Nat.max n (length s).
Proof. unfold ljust. rewrite length_app, length_replicate. lia. Qed.

Lemma rjust_length (n : nat) (s : str) : length (rjust n s) = Nat.max n (length s).
Proof. unfold rjust. rewrite length_app, length_replicate. lia. Qed.

Lemma str_of_int_width (v : Z) :
  - 999 <= v <= 9999 -> (length (str_of_int v) <= 4)%nat.
Proof.
  intros Hv. unfold str_of_int. destruct (Z.ltb_spec v 0).
  - cbn [length]. pose proof (str_of_nonneg_length (- v) 2) as Hl.
    change (10 ^ Z.of_nat 3) with 1000 in Hl. specialize (Hl ltac:(lia)). lia.
  - apply (str_of_nonneg_length v 3).
    change (10 ^ Z.of_nat 4) with 10000. lia.
Qed.

Lemma nth_fits (l : list Z) (k : nat) :
  Forall (fun v => - 999 <= v <= 9999) l -> - 999 <= nth k l 0 <= 9999.
Proof.
  intros H. destruct (nth_in_or_default k l 0) as [Hin | ->]; [|lia].
  rewrite Forall_forall in H. apply H. apply list_elem_of_In, Hin.
Qed.

Lemma rjust_cell (l : list Z) (k : nat) :
  Forall (fun v => - 999 <= v <= 9999) l ->
  length (rjust 4 (str_of_int (nth k l 0))) = 4%nat.
Proof.
  intros H. rewrite rjust_length.
  pose proof (str_of_int_width _ (nth_fits l k H)). lia.
Qed.

Lemma text_row_cells (source : str) (e : str * PingResult) :
  (length source <= 15)%nat -> (length (fst e) <= 20)%nat ->
  Forall (fun v => - 999 <= v <= 9999) (packets (snd e)) ->
  Forall (fun v => - 999 <= v <= 9999) (rtt (snd e)) ->
  exists pad cells,
    text_row source e = (source ++ pad) ++ (fst e ++ cells) ++ error (snd e)
    /\ length (source ++ pad) = 16%nat
    /\ length (fst e ++ cells) = 54%nat.
Proof.
  destruct e as [target o]. simpl fst; simpl snd. intros Hs Ht Hp Hr.
  unfold text_row, packetsSent, packetsReceived, packetsLost,
    rttMin, rttMax, rttAvg.
  exists (replicate (15 - length source) 32 ++ lit " "),
    (replicate (20 - length target) 32 ++ lit "  "
     ++ rjust 4 (str_of_int (nth 0 (packets o) 0)) ++ lit " "
     ++ rjust 4 (str_of_int (nth 1 (packets o) 0)) ++ lit " "
     ++ rjust 4 (str_of_int (nth 2 (packets o) 0)) ++ lit "  "
     ++ rjust 4 (str_of_int (nth 0 (rtt o) 0)) ++ lit " "
     ++ rjust 4 (str_of_int (nth 1 (rtt o) 0)) ++ lit " "
     ++ rjust 4 (str_of_int (nth 2 (rtt o) 0)) ++ lit "  ").
  split; [|split].
  - unfold ljust. rewrite <- !app_assoc. reflexivity.
  - rewrite !length_app, length_replicate.
    change (length (lit " ")) with 1%nat. lia.
  - rewrite !length_app, length_replicate, !rjust_cell by assumption.
    change (length (lit " ")) with 1%nat.
    change (length (lit "  ")) with 2%nat. lia.
Qed.

(** X11: when the source host has at most 15 characters, every target at
    most 20, and every number of a result is between -999 and 9999, the
    rows of [output_text] are aligned: the source starts the row, the
    target stands at column 16 and the error message at column 70, the
    column of [Error Msg] in the header. *)
Theorem output_text_columns (self : Pinger) (h : heap) :
  (length (_source_host self) <= 15)%nat ->
  Forall (fun e => (length (fst e) <= 20)%nat
                   /\ Forall (fun v => - 999 <= v <= 9999)
                        (packets (snd e) ++ rtt (snd e)))
    (items self h) ->
  drop 70 (nth 1 (output_text self h) []) = lit "Error Msg"
  /\ Forall2
       (fun row e =>
          exists pad cells,
            row = (_source_host self ++ pad) ++ (fst e ++ cells)
                  ++ error (snd e)
            /\ length (_source_host self ++ pad) = 16%nat
            /\ length (fst e ++ cells) = 54%nat)
       (drop 3 (output_text self h)) (items self h).
Proof.
  intros Hs Hall. split; [reflexivity|].
  unfold output_text. simpl drop.
  induction Hall as [|e es [Ht Hv] _ IH]; simpl; constructor; [|exact IH].
  apply Forall_app in Hv as [Hp Hr].
  apply text_row_cells; assumption.
Qed.

Lemma output_text_columns_lan :
  Forall2
    (fun row e =>
       exists pad cells,
         row = (lit "probe01" ++ pad) ++ (fst e ++ cells) ++ error (snd e)
         /\ length (lit "probe01" ++ pad) = 16%nat
         /\ length (fst e ++ cells) = 54%nat)
    (drop 3 (output_text (started lan lan_targets) [PingResult_zero]))
    (items (started lan lan_targets) [PingResult_zero]).
Proof.
  apply (output_text_columns (started lan lan_targets) [PingResult_zero]).
  - vm_compute. lia.
  - assert (Hz : Forall (fun v => - 999 <= v <= 9999)
                   (packets PingResult_zero ++ rtt PingResult_zero))
      by (repeat (constructor; [lia|]); constructor).
    unfold started, lan_targets, items, results; simpl.
    repeat (constructor; [split; [simpl; lia | exact Hz]|]).
    constructor.
Defined.

(** ** The fields of [output_csv] *)

Lemma split_length (sep : Z) (s : str) :
  length (split sep s) = S (count_char sep s).
Proof.
  unfold count_char. induction s as [|c s IH]; [reflexivity|].
  cbn [split]. destruct (Z.eqb_spec c sep) as [->|Hne].
  - rewrite count_occ_cons_eq by reflexivity. cbn [length].
    rewrite IH. reflexivity.
  - rewrite count_occ_cons_neq by exact Hne.
    destruct (split sep s) as [|f fs]; [discriminate|]. exact IH.
Qed.

Lemma count_char_app (c : Z) (a b : str) :
  count_char c (a ++ b) = (count_char c a + count_char c b)%nat.
Proof. apply count_occ_app. Qed.

Lemma count_char_no_sep (c : Z) (s : str) :
  no_sep c s = true -> count_char c s = 0%nat.
Proof.
  unfold count_char, no_sep. induction s as [|x s IH]; [reflexivity|].
  cbn [forallb]. intros H. apply andb_prop in H as [Hx Hs].
  apply negb_true_iff, Z.eqb_neq in Hx.
  rewrite count_occ_cons_neq by exact Hx. auto.
Qed.

Lemma str_of_int_no_sep (sep n : Z) :
  is_digit sep = false -> sep <> 45 -> no_sep sep (str_of_int n) = true.
Proof.
  intros Hd Hm. unfold str_of_int. destruct (Z.ltb_spec n 0).
  - change (no_sep sep (45 :: ?s)) with (negb (45 =? sep) && no_sep sep s).
    apply andb_true_intro. split.
    + apply negb_true_iff, Z.eqb_neq. congruence.
    + apply no_sep_digits; [exact Hd|]. apply str_of_nonneg_spec. lia.
  - apply no_sep_digits; [exact Hd|]. apply str_of_nonneg_spec. lia.
Qed.

Lemma csv_row_join (timestamp source : str) (e : str * PingResult) :
  csv_row timestamp source e
  = join 44 [timestamp; source; fst e;
             32 :: str_of_int (packetsSent (snd e));
             str_of_int (packetsReceived (snd e));
             str_of_int (packetsLost (snd e));
             str_of_int (rttMin (snd e));
             str_of_int (rttMax (snd e));
             str_of_int (rttAvg (snd e));
             error (snd e)].
Proof.
  destruct e as [target o]. reflexivity.
Qed.

(** X12: [output_csv] writes the fields of a row without quoting: split at
    the commas, a row has the ten fields of the header and one more for
    every comma in the timestamp, the source host, the target and the error
    message. *)
Theorem csv_row_field_count (timestamp source : str) (e : str * PingResult) :
  length (split 44 (csv_row timestamp source e))
  = (length (split 44 (lit "timestamp,source,target,pkt_sent,pkt_recv,pkt_lost,rtt_min,rtt_max,rtt_avg,error"))
     + count_char 44 timestamp + count_char 44 source
     + count_char 44 (fst e) + count_char 44 (error (snd e)))%nat.
Proof.
  destruct e as [target o]. rewrite split_length. unfold csv_row.
  rewrite !count_char_app.
  rewrite !(count_char_no_sep 44 (str_of_int _))
    by (apply str_of_int_no_sep; [reflexivity | discriminate]).
  cbn [fst snd]. change (count_char 44 (lit ",")) with 1%nat.
  change (count_char 44 (lit ", ")) with 1%nat.
  change (length (split 44 (lit _))) with 10%nat. lia.
Qed.

Lemma py_int_blank (s : str) : py_int (32 :: s) = py_int s.
Proof. reflexivity. Qed.

Lemma last_cons_ne {A} (a : A) (l : list A) : l <> [] -> last (a :: l) = last l.
Proof. destruct l; [congruence | reflexivity]. Qed.

Lemma pow_4300_pos : 0 < 10 ^ 4300.
Proof. apply Z.pow_pos_nonneg; [reflexivity | discriminate]. Qed.

Lemma printable_int_0 : printable_int 0.
Proof. split; [apply Z.opp_neg_pos|]; apply pow_4300_pos. Qed.

Lemma printable_int_opp (n : Z) :
  printable_int n -> n < 0 -> 0 <= - n < 10 ^ Z.of_nat (S 4299).
Proof.
  intros [Hlo _] Hneg. split.
  - apply Z.opp_nonneg_nonpos, Z.lt_le_incl, Hneg.
  - apply Z.opp_lt_mono in Hlo. rewrite Z.opp_involutive in Hlo. exact Hlo.
Qed.

(** [int] reads back what [str] printed, with its sign. *)
Lemma py_int_str_of_int (n : Z) :
  printable_int n -> py_int (str_of_int n) = Ok n.
Proof.
  intros Hn. unfold str_of_int. destruct (Z.ltb_spec n 0) as [Hneg|Hpos].
  - pose proof (printable_int_opp n Hn Hneg) as Hb. clear Hn.
    destruct (str_of_nonneg_spec (- n)) as (Hd & Hne & Hv); [apply Hb|].
    pose proof (str_of_nonneg_length (- n) 4299 Hb) as Hl. clear Hb.
    unfold py_int.
    replace (int_strip (45 :: str_of_nonneg (- n)))
      with (45 :: str_of_nonneg (- n)).
    + rewrite digits_all by assumption. rewrite Hv.
      destruct (Nat.ltb_spec int_max_str_digits (length (str_of_nonneg (- n))))
        as [Hlong|_].
      * unfold int_max_str_digits in Hlong. lia.
      * f_equal. apply Z.opp_involutive.
    + symmetry. apply strip_with_ends; intros c Hc.
      * injection Hc as <-. reflexivity.
      * rewrite last_cons_ne in Hc by exact Hne.
        apply digit_not_int_space. eapply last_forallb; eauto.
  - apply py_int_str_of_nonneg. split; [exact Hpos | apply Hn].
Qed.

Lemma printable_int_nth (l : list Z) (k : nat) :
  Forall printable_int l -> printable_int (nth k l 0).
Proof.
  intros Hl. destruct (nth_in_or_default k l 0) as [Hin | ->].
  - rewrite Forall_forall in Hl. apply Hl, list_elem_of_In, Hin.
  - apply printable_int_0.
Qed.

(** X13: when the timestamp, the source host, the target and the error
    message hold no comma, splitting a row of [output_csv] at the commas
    gives back its ten fields; the fourth starts with the blank the code
    writes after the third comma, and [int] reads the six numbers back from
    their fields, that blank included. *)
Theorem csv_row_fields_back (timestamp source : str) (e : str * PingResult) :
  no_sep 44 timestamp = true -> no_sep 44 source = true ->
  no_sep 44 (fst e) = true -> no_sep 44 (error (snd e)) = true ->
  Forall printable_int (packets (snd e) ++ rtt (snd e)) ->
  exists sent received lost vmin vmax vavg,
    split 44 (csv_row timestamp source e)
    = [timestamp; source; fst e; 32 :: sent; received; lost;
       vmin; vmax; vavg; error (snd e)]
    /\ py_int (32 :: sent) = Ok (packetsSent (snd e))
    /\ py_int received = Ok (packetsReceived (snd e))
    /\ py_int lost = Ok (packetsLost (snd e))
    /\ py_int vmin = Ok (rttMin (snd e))
    /\ py_int vmax = Ok (rttMax (snd e))
    /\ py_int vavg = Ok (rttAvg (snd e)).
Proof.
  intros Hts Hsrc Ht Herr Hnum.
  apply Forall_app in Hnum as [Hp Hr].
  do 6 eexists. split.
  - rewrite csv_row_join. apply split_join; [discriminate|].
    cbn [forallb]. rewrite Hts, Hsrc, Ht, Herr.
    change (no_sep 44 (32 :: ?s)) with (no_sep 44 s).
    rewrite !str_of_int_no_sep by (reflexivity || discriminate).
    reflexivity.
  - rewrite py_int_blank.
    unfold packetsSent, packetsReceived, packetsLost, rttMin, rttMax, rttAvg.
    repeat split; apply py_int_str_of_int, printable_int_nth; assumption.
Qed.

Lemma small_printable_int (n : Z) : 0 <= n < 1000000 -> printable_int n.
Proof.
  intros Hn. destruct (small_counter n Hn) as [_ Hhi]. split; [|exact Hhi].
  apply Z.lt_le_trans with (m := 0); [|apply Hn].
  apply Z.opp_neg_pos, pow_4300_pos.
Qed.

Lemma csv_row_fields_back_no_answer :
  exists sent received lost vmin vmax vavg,
    split 44 (csv_row (lit "01/02/2024 03:04:05") (lit "probe01")
                (lit "10.0.0.9", no_answer))
    = [lit "01/02/2024 03:04:05"; lit "probe01"; lit "10.0.0.9"; 32 :: sent;
       received; lost; vmin; vmax; vavg; lit "(1) offline?"]
    /\ py_int (32 :: sent) = Ok 0
    /\ py_int received = Ok 0
    /\ py_int lost = Ok 0
    /\ py_int vmin = Ok 0
    /\ py_int vmax = Ok 0
    /\ py_int vavg = Ok 0.
Proof.
  apply (csv_row_fields_back (lit "01/02/2024 03:04:05") (lit "probe01")
           (lit "10.0.0.9", no_answer)); try reflexivity.
  repeat (constructor; [apply small_printable_int; lia|]). constructor.
Defined.

(** ** The JSON rendering *)

Lemma json_nested_ind (P : json -> Prop) :
  (forall n, P (JInt n)) -> (forall s, P (JStr s)) ->
  (forall d, Forall (fun kv => P (snd kv)) d -> P (JDict d)) ->
  forall v, P v.
Proof.
  intros HInt HStr HDict. fix IH 1. intros [n|s|d].
  - apply HInt.
  - apply HStr.
  - apply HDict. induction d as [|kv d IHd]; constructor.
    + apply IH.
    + exact IHd.
Qed.

Lemma hex_digit_printable (n : Z) :
  0 <= n < 16 -> printable (hex_digit n) = true.
Proof.
  intros Hn. unfold hex_digit, printable.
  destruct (Z.ltb_spec n 10); apply andb_true_intro; split; apply Z.leb_le; lia.
Qed.

Lemma u_escape_printable (n : Z) : forallb printable (u_escape n) = true.
Proof.
  unfold u_escape. cbn [forallb].
  rewrite !hex_digit_printable by (apply Z.mod_pos_bound; lia).
  reflexivity.
Qed.

Lemma escape_char_printable (c : Z) : forallb printable (escape_char c) = true.
Proof.
  unfold escape_char.
  repeat match goal with
  | |- context [if ?b then _ else _] => destruct b eqn:?; try reflexivity
  end.
  - cbn [forallb]. unfold printable. rewrite andb_true_r. assumption.
  - apply u_escape_printable.
  - rewrite forallb_app, !u_escape_printable. reflexivity.
Qed.

Lemma encode_basestring_ascii_printable (s : str) :
  forallb printable (encode_basestring_ascii s) = true.
Proof.
  unfold encode_basestring_ascii. rewrite !forallb_app.
  replace (forallb printable (flat_map escape_char s)) with true;
    [reflexivity|].
  symmetry. induction s as [|c s IH]; [reflexivity|].
  cbn [flat_map]. rewrite forallb_app, escape_char_printable, IH. reflexivity.
Qed.

Lemma is_digit_printable (s : str) :
  forallb is_digit s = true -> forallb printable s = true.
Proof.
  rewrite !forallb_forall. intros H c Hc. specialize (H c Hc).
  apply is_digit_range in H. unfold printable.
  apply andb_true_intro; split; apply Z.leb_le; lia.
Qed.

Lemma str_of_int_printable (n : Z) : forallb printable (str_of_int n) = true.
Proof.
  unfold str_of_int. destruct (Z.ltb_spec n 0).
  - cbn [forallb]. rewrite is_digit_printable; [reflexivity|].
    apply str_of_nonneg_spec. lia.
  - apply is_digit_printable, str_of_nonneg_spec. lia.
Qed.

Lemma join_with_printable (sep : str) (parts : list str) :
  forallb printable sep = true ->
  Forall (fun p => forallb printable p = true) parts ->
  forallb printable (join_with sep parts) = true.
Proof.
  intros Hsep. induction 1 as [|p parts Hp Hall IH]; [reflexivity|].
  destruct parts as [|q parts]; [exact Hp|].
  change (join_with sep (p :: q :: parts))
    with (p ++ sep ++ join_with sep (q :: parts)).
  rewrite !forallb_app, Hp, Hsep, IH. reflexivity.
Qed.

Lemma dumps_printable (v : json) : forallb printable (dumps v) = true.
Proof.
  induction v as [n|s|d IH] using json_nested_ind.
  - apply str_of_int_printable.
  - apply encode_basestring_ascii_printable.
  - cbn [dumps]. rewrite !forallb_app.
    rewrite join_with_printable; [reflexivity | reflexivity |].
    induction IH as [|kv d Hkv _ IHd]; constructor; [|exact IHd].
    rewrite !forallb_app, encode_basestring_ascii_printable, Hkv. reflexivity.
Qed.

(** X14: whatever the targets and the error messages hold, the text
    [output_json] prints in the compact format is made of the characters
    [' '..'~'] only: every other character of a string is escaped, so the
    document is pure ASCII and stands on one line. *)
Theorem output_json_one_line (self : Pinger) (h : heap) (s : str) :
  output_json self h (lit "json") = Ok s ->
  forallb printable s = true /\ count_char 10 s = 0%nat.
Proof.
  unfold output_json, mbind, result_bind.
  destruct (Pinger_to_dict self h) as [v|e]; [|discriminate].
  rewrite bool_decide_eq_true_2 by reflexivity. intros [= <-].
  pose proof (dumps_printable v) as H. split; [exact H|].
  apply count_char_no_sep. unfold no_sep.
  rewrite forallb_forall in *. intros c Hc. specialize (H c Hc).
  unfold printable in H. apply andb_prop in H as [H _].
  apply Z.leb_le in H. apply negb_true_iff, Z.eqb_neq. lia.
Qed.

(** A name that does not resolve: the message holds the letter U+00F6, and
    the document writes it as a [\u] escape. *)
Lemma output_json_one_line_unknown_host :
  exists m s,
    exec (posix linux_unknown_host) [0; 0; 0]%nat
      (init_pool 1 (started (posix linux_unknown_host) ["h"%string])
         [PingResult_zero])
    = Some m
    /\ output_json (pinger m) (store m) (lit "json") = Ok s
    /\ contains (lit "h\u00f6st.example") s = true
    /\ forallb printable s = true /\ count_char 10 s = 0%nat.
Proof.
  eexists. eexists. split; [vm_compute; reflexivity|].
  split; [vm_compute; reflexivity|].
  split; [vm_compute; reflexivity|].
  match goal with
  | |- forallb printable ?s = true /\ _ =>
      apply (output_json_one_line
               {| _source_host := [];
                  _target_dict := [(lit "h", 1%nat)];
                  _num_requests := 4; _request_timeout := 2;
                  _start_time := None; _end_time := None |}
               [PingResult_zero;
                {| packets := [0; 0; 0]; rtt := [0; 0; 0];
                   error := lit "ping: h" ++ [246]
                            ++ lit "st.example: Name or service not known" |}]
               s)
  end.
  vm_compute. reflexivity.
Defined.

(** *** Every result has three counters and three times *)

Section WellFormed.
Context {F : PyFloat} (env : Env).

Lemma windows_rtt_length (l : list str) (v : list Z) :
  windows_rtt l = Ok v -> length v = 3%nat.
Proof. unfold windows_rtt. three_values. Qed.

Lemma windows_packets_length (l : list str) (v : list Z) :
  windows_packets l = Ok v -> length v = 3%nat.
Proof. unfold windows_packets. three_values. Qed.

Lemma posix_rtt_length (token : str) (v : list Z) :
  posix_rtt token = Ok v -> length v = 3%nat.
Proof. unfold posix_rtt, int_float. three_values. Qed.

Lemma posix_packets_length (l : list str) (v : list Z) :
  posix_packets l = Ok v -> length v = 3%nat.
Proof. unfold posix_packets. three_values. Qed.

Lemma scan_value_well_formed (o o' : PingResult) (line : str) :
  well_formed o -> scan_value env o line = Ok o' -> well_formed o'.
Proof.
  intros [Hp Hr]. unfold scan_value, mbind, result_bind, mret, result_ret.
  repeat match goal with
  | |- context [if ?b then _ else _] => destruct b
  end;
  try (intros [= <-]; split; assumption).
  - destruct (windows_rtt _) as [v|] eqn:E; [|discriminate].
    intros [= <-]. split; [exact Hp | eapply windows_rtt_length, E].
  - destruct (windows_packets _) as [v|] eqn:E; [|discriminate].
    intros [= <-]. split; [eapply windows_packets_length, E | exact Hr].
  - destruct (posix_rtt _) as [v|] eqn:E; [|discriminate].
    intros [= <-]. split; [exact Hp | eapply posix_rtt_length, E].
  - destruct (posix_packets _) as [v|] eqn:E; [|discriminate].
    intros [= <-]. split; [eapply posix_packets_length, E | exact Hr].
Qed.

Lemma scan_values_well_formed (lines : list str) (o o' : PingResult) :
  well_formed o -> scan_values env lines o = Ok o' -> well_formed o'.
Proof.
  revert o. induction lines as [|l lines IH]; simpl; intros o Ho.
  - intros [= <-]. exact Ho.
  - unfold mbind, result_bind.
    destruct (scan_value env o l) as [o1|] eqn:E; [|discriminate].
    apply IH. eapply scan_value_well_formed; eauto.
Qed.

Lemma probe_well_formed (self : Pinger) (t : str) (o : PingResult) :
  probe env self t = Ok o -> well_formed o.
Proof.
  unfold probe, mbind, result_bind.
  destruct (popen env _) as [process|]; [|discriminate].
  destruct (decode_utf8 (stdout process)); [|discriminate].
  destruct (decode_utf8 (stderr process)); [|discriminate].
  destruct (negb (returncode process =? 0)).
  - intros [= <-]. unfold failure_value.
    destruct (0 <? length _)%nat; split; reflexivity.
  - apply scan_values_well_formed. split; reflexivity.
Qed.

Lemma expected_well_formed (self : Pinger) (k : str) :
  well_formed (expected env self k).
Proof.
  unfold expected. destruct (probe env self k) as [o|] eqn:E.
  - eapply probe_well_formed, E.
  - split; reflexivity.
Qed.

End WellFormed.

Lemma PingResult_to_dict_well_formed (o : PingResult) :
  well_formed o -> PingResult_to_dict o = Ok (result_json o).
Proof.
  intros [Hp Hr]. destruct o as [pk rt er]. simpl in Hp, Hr.
  destruct pk as [|a [|b [|c [|]]]]; try discriminate.
  destruct rt as [|x [|y [|z [|]]]]; try discriminate.
  reflexivity.
Qed.

(** ** Runs from any configuration *)

Section RunFrom.
Context {F : PyFloat} (env : Env).

(** What a run leaves after the constructor and any assignments: the
    pairs hold the values of the probes under the configuration of the
    run. *)
Lemma run_from (targets : list str) (h h' : heap) (q p' : Pinger)
    (t0 t1 : Z) (res : result unit) :
  _target_dict q = dict_fromkeys targets (length h) ->
  ping_targets env q (h ++ [PingResult_zero]) t0 t1 res p' h' ->
  (targets = [] /\ res = Raise ValueError)
  \/ (targets <> [] /\ res = Ok tt
      /\ items p' h'
         = map (fun k => (k, expected env q k)) (dict_keys (_target_dict q))
      /\ _source_host p' = _source_host q).
Proof.
  intros Hd Hrun.
  inversion Hrun as [Hw|m Hw Hsteps Hterm]; subst.
  - left. split; [|reflexivity].
    destruct targets as [|t ts]; [reflexivity|].
    pose proof (fresh_has_worker (t :: ts) q (length h) ltac:(discriminate) Hd).
    lia.
  - right.
    assert (Hne : targets <> []).
    { intros ->. unfold num_workers in Hw. rewrite Hd in Hw.
      simpl in Hw. unfold DEFAULTS.MAX_THREADS in Hw. lia. }
    split; [exact Hne|]. split; [reflexivity|].
    assert (Inv : pool_inv env (with_start_time (Some t0) q) (length h) m)
      by (eapply run_inv; [exact Hd | exact Hsteps]).
    destruct (pool_result env (with_start_time (Some t0) q) (length h) m)
      as [Hk Hi]; [|exact Inv|exact Hterm|].
    + simpl. rewrite Hd. apply dict_fromkeys_spec.
    + split; [exact Hi|].
      simpl. rewrite (inv_config _ _ _ _ Inv). reflexivity.
Qed.

Lemma run_exists (targets : list str) (h : heap) (q : Pinger) (t0 t1 : Z) :
  _target_dict q = dict_fromkeys targets (length h) ->
  exists res p' h',
    ping_targets env q (h ++ [PingResult_zero]) t0 t1 res p' h'.
Proof.
  intros Hd. destruct targets as [|t ts].
  - exists (Raise ValueError), (with_start_time (Some t0) q),
      (h ++ [PingResult_zero]).
    apply ping_targets_no_worker. unfold num_workers. rewrite Hd. simpl.
    unfold DEFAULTS.MAX_THREADS. lia.
  - pose proof (fresh_has_worker (t :: ts) q (length h) ltac:(discriminate) Hd)
      as Hw.
    destruct (pool_completes env
                (init_pool (Z.to_nat (num_workers q))
                   (with_start_time (Some t0) q) (h ++ [PingResult_zero])))
      as (m & Hsteps & Hterm).
    + simpl. rewrite length_replicate. lia.
    + exists (Ok tt), (with_end_time (Some t1) (pinger m)), (store m).
      apply ping_targets_done; assumption.
Qed.

End RunFrom.

(** ** [to_dict] after a run *)

Lemma json_set_fresh (k : str) (v : json) (d : list (str * json)) :
  k ∉ map fst d -> json_set k v d = d ++ [(k, v)].
Proof.
  induction d as [|[k' v'] d IH]; intros Hk; [reflexivity|].
  cbn [json_set]. cbn [map fst] in Hk.
  apply not_elem_of_cons in Hk as [Hne Hk].
  rewrite bool_decide_eq_false_2 by congruence.
  rewrite IH by exact Hk. reflexivity.
Qed.

Lemma to_dict_from_fresh (entries : list (str * PingResult))
    (acc : list (str * json)) :
  NoDup (map fst acc ++ map fst entries) ->
  Forall (fun e => well_formed (snd e)) entries ->
  to_dict_from entries acc
  = Ok (acc ++ map (fun e => (fst e, result_json (snd e))) entries).
Proof.
  revert acc. induction entries as [|[host entry] entries IH];
    intros acc Hnd Hwf.
  - simpl. rewrite app_nil_r. reflexivity.
  - apply Forall_cons in Hwf as [Hentry Hwf].
    cbn [to_dict_from]. rewrite PingResult_to_dict_well_formed by exact Hentry.
    unfold mbind, result_bind.
    cbn [map fst] in Hnd.
    assert (Hfresh : host ∉ map fst acc).
    { apply NoDup_app in Hnd as (_ & Hdis & _). intros Hin.
      apply (Hdis host Hin). left. }
    rewrite json_set_fresh by exact Hfresh.
    rewrite IH; [|rewrite map_app; cbn [map fst];
                   rewrite <- app_assoc; exact Hnd|exact Hwf].
    rewrite <- app_assoc. reflexivity.
Qed.

Section ToDict.
Context {F : PyFloat} (env : Env).



End ToDict.


(** ** The host file *)

Lemma drop_while_suffix (p : Z -> bool) (s : str) :
  exists a, s = a ++ drop_while p s.
Proof.
  induction s as [|c s [a IH]]; [exists []; reflexivity|].
  simpl. destruct (p c).
  - exists (c :: a). simpl. f_equal. exact IH.
  - exists []. reflexivity.
Qed.

Lemma drop_while_head_false (p : Z -> bool) (s : str) (c : Z) :
  head (drop_while p s) = Some c -> p c = false.
Proof.
  induction s as [|x s IH]; simpl; [discriminate|].
  destruct (p x) eqn:E; [exact IH|]. simpl. intros [= <-]. exact E.
Qed.

Lemma strip_infix (s : str) : exists a b, s = a ++ strip s ++ b.
Proof.
  unfold strip, rstrip, lstrip.
  destruct (drop_while_suffix isspace s) as [a Ha].
  destruct (drop_while_suffix isspace (rev (drop_while isspace s))) as [b Hb].
  exists a, (rev b). rewrite <- rev_app_distr, <- Hb, rev_involutive.
  exact Ha.
Qed.

Lemma strip_forallb (p : Z -> bool) (s : str) :
  forallb p s = true -> forallb p (strip s) = true.
Proof.
  destruct (strip_infix s) as (a & b & Hs). intros H.
  rewrite Hs, !forallb_app in H.
  apply andb_prop in H as [_ H]. apply andb_prop in H as [H _]. exact H.
Qed.

Lemma rstrip_prefix (s : str) : exists b, s = rstrip s ++ b.
Proof.
  unfold rstrip.
  destruct (drop_while_suffix isspace (rev s)) as [b Hb].
  exists (rev b). rewrite <- rev_app_distr, <- Hb, rev_involutive.
  reflexivity.
Qed.

Lemma strip_head (s : str) (c : Z) :
  head (strip s) = Some c -> isspace c = false.
Proof.
  unfold strip. destruct (rstrip_prefix (lstrip s)) as [b Hb].
  intros H. apply (drop_while_head_false isspace s c).
  fold (lstrip s). rewrite Hb.
  destruct (rstrip (lstrip s)); [discriminate | exact H].
Qed.

Lemma last_rev_head (s : str) : last (rev s) = head s.
Proof. destruct s as [|c s]; [reflexivity|]. simpl. apply last_snoc. Qed.

Lemma strip_last (s : str) (c : Z) :
  last (strip s) = Some c -> isspace c = false.
Proof.
  unfold strip, rstrip. intros H.
  apply (drop_while_head_false isspace (rev (lstrip s)) c).
  rewrite <- H, last_rev_head. reflexivity.
Qed.

Lemma strip_strip (s : str) : strip (strip s) = strip s.
Proof.
  apply (strip_with_ends isspace (strip s)).
  - apply strip_head.
  - apply strip_last.
Qed.

Lemma splitlines_from_lines (s cur : str) :
  forallb (fun c => negb (is_linebreak c)) cur = true ->
  Forall (fun l => forallb (fun c => negb (is_linebreak c)) l = true)
    (splitlines_from cur s).
Proof.
  remember (length s) as n eqn:Hn. revert s cur Hn.
  induction n as [n IH] using lt_wf_ind. intros s cur -> Hcur.
  assert (Hrev : forallb (fun c => negb (is_linebreak c)) (rev cur) = true).
  { rewrite forallb_forall in *. intros c Hc. apply Hcur, in_rev, Hc. }
  destruct s as [|c s]; cbn [splitlines_from].
  - destruct cur; constructor; [exact Hrev | constructor].
  - destruct (is_linebreak c) eqn:Hc.
    + constructor; [exact Hrev|].
      destruct s as [|d s0]; [constructor|].
      destruct ((c =? 13) && (d =? 10)).
      * apply (IH (length s0)); simpl; auto.
      * apply (IH (length (d :: s0))); simpl; auto.
    + apply (IH (length s)); simpl; auto. rewrite Hc. exact Hcur.
Qed.

Lemma host_lines_elem (lines : list str) (h : str) :
  h ∈ host_lines lines ->
  exists x, x ∈ lines /\ h = strip x /\ strip x <> []
            /\ startswith (lit "#") (strip x) = false.
Proof.
  unfold host_lines. intros H.
  apply list_elem_of_fmap in H as (x & -> & Hx).
  apply list_elem_of_In, filter_In in Hx as [Hx Hc].
  apply andb_prop in Hc as [Hlen Hhash].
  exists x. split; [apply list_elem_of_In, Hx|]. split; [reflexivity|].
  split.
  - apply Nat.ltb_lt in Hlen. destruct (strip x); [simpl in Hlen; lia|].
    discriminate.
  - apply negb_true_iff, Hhash.
Qed.

(** X16: every host [main] loads from a host file is clean: it is not
    empty, has no blank at either end, does not start with [#], and holds
    no line break. *)
Theorem loaded_hosts_clean (content : bytes) (hosts : list str) :
  load_hosts content = Ok hosts -> Forall clean_host hosts.
Proof.
  unfold load_hosts, read_text, mbind, result_bind, fmap, result_fmap.
  destruct (decode_utf8 content) as [text|e]; [|discriminate].
  intros [= <-]. apply Forall_forall. intros h Hh.
  apply host_lines_elem in Hh as (x & Hx & -> & Hne & Hhash).
  pose proof (splitlines_from_lines (universal_newlines text) [] eq_refl)
    as Hlines.
  rewrite Forall_forall in Hlines. specialize (Hlines x Hx).
  repeat split.
  - exact Hne.
  - apply strip_strip.
  - exact Hhash.
  - apply strip_forallb, Hlines.
Qed.

Lemma loaded_hosts_clean_host_file :
  Forall clean_host [lit "192.168.1.7"; lit "10.0.0.9"].
Proof.
  apply (loaded_hosts_clean host_file). vm_compute. reflexivity.
Defined.

Lemma splitlines_from_line (h rest cur : str) :
  forallb (fun c => negb (is_linebreak c)) h = true ->
  splitlines_from cur (h ++ rest) = splitlines_from (rev h ++ cur) rest.
Proof.
  revert cur. induction h as [|c h IH]; intros cur Hh; [reflexivity|].
  cbn [forallb] in Hh. apply andb_prop in Hh as [Hc Hh].
  apply negb_true_iff in Hc. cbn [app splitlines_from]. rewrite Hc.
  rewrite (IH _ Hh). cbn [rev]. rewrite <- app_assoc. reflexivity.
Qed.

Lemma splitlines_newline (h rest : str) :
  forallb (fun c => negb (is_linebreak c)) h = true ->
  splitlines (h ++ 10 :: rest) = h :: splitlines rest.
Proof.
  intros Hh. unfold splitlines. rewrite splitlines_from_line by exact Hh.
  rewrite app_nil_r. cbn [splitlines_from].
  replace (is_linebreak 10) with true by reflexivity.
  rewrite rev_involutive. destruct rest; reflexivity.
Qed.

Lemma splitlines_last (h : str) :
  h <> [] -> forallb (fun c => negb (is_linebreak c)) h = true ->
  splitlines h = [h].
Proof.
  intros Hne Hh. unfold splitlines.
  rewrite <- (app_nil_r h) at 1. rewrite splitlines_from_line by exact Hh.
  rewrite app_nil_r. cbn [splitlines_from].
  destruct (rev h) eqn:E.
  - apply (f_equal (@rev Z)) in E. rewrite rev_involutive in E. contradiction.
  - rewrite <- E, rev_involutive. reflexivity.
Qed.

Lemma splitlines_ended (hosts : list str) :
  Forall (fun h => forallb (fun c => negb (is_linebreak c)) h = true) hosts ->
  splitlines (concat (map (fun h => h ++ [10]) hosts)) = hosts.
Proof.
  induction 1 as [|h hosts Hh _ IH]; [reflexivity|].
  cbn [map concat]. rewrite <- app_assoc. cbn [app].
  rewrite splitlines_newline by exact Hh. rewrite IH. reflexivity.
Qed.

Lemma splitlines_join (hosts : list str) :
  Forall (fun h => h <> []
                   /\ forallb (fun c => negb (is_linebreak c)) h = true)
    hosts ->
  splitlines (join 10 hosts) = hosts.
Proof.
  induction 1 as [|h hosts [Hne Hh] Hall IH]; [reflexivity|].
  destruct hosts as [|g hosts].
  - apply splitlines_last; assumption.
  - change (join 10 (h :: g :: hosts)) with (h ++ 10 :: join 10 (g :: hosts)).
    rewrite splitlines_newline by exact Hh. rewrite IH. reflexivity.
Qed.

Lemma universal_newlines_id (s : str) :
  no_sep 13 s = true -> universal_newlines s = s.
Proof.
  induction s as [|c s IH]; [reflexivity|].
  cbn [no_sep forallb]. intros H. apply andb_prop in H as [Hc Hs].
  apply negb_true_iff in Hc. cbn [universal_newlines]. rewrite Hc.
  f_equal. apply IH, Hs.
Qed.

Lemma no_linebreak_no_cr (s : str) :
  forallb (fun c => negb (is_linebreak c)) s = true -> no_sep 13 s = true.
Proof.
  unfold no_sep. rewrite !forallb_forall. intros H c Hc.
  specialize (H c Hc). apply negb_true_iff in H. apply negb_true_iff.
  destruct (Z.eqb_spec c 13) as [->|]; [discriminate | reflexivity].
Qed.

Lemma host_lines_clean (hosts : list str) :
  Forall clean_host hosts -> host_lines hosts = hosts.
Proof.
  unfold host_lines.
  induction 1 as [|h hosts (Hne & Hs & Hhash & _) _ IH]; [reflexivity|].
  cbn [List.filter]. rewrite Hs, Hhash.
  destruct h as [|c h]; [congruence|]. cbn [length Nat.ltb Nat.leb andb negb].
  cbn [map]. rewrite Hs. f_equal. exact IH.
Qed.

(** X17: a host file that decodes to clean hosts, one per line, each line
    ended by a newline or the lines joined by newlines, loads as these
    hosts, in the order of the file. *)
Theorem host_file_loads (content : bytes) (text : str) (hosts : list str) :
  decode_utf8 content = Ok text ->
  Forall clean_host hosts ->
  text = join 10 hosts \/ text = concat (map (fun h => h ++ [10]) hosts) ->
  load_hosts content = Ok hosts.
Proof.
  intros Hdec Hclean Htext.
  assert (Hlb : Forall (fun h => forallb (fun c => negb (is_linebreak c)) h
                                 = true) hosts).
  { eapply Forall_impl; [exact Hclean|]. intros h (_ & _ & _ & H). exact H. }
  assert (Hne : Forall (fun h => h <> []
                   /\ forallb (fun c => negb (is_linebreak c)) h = true)
                  hosts).
  { eapply Forall_impl; [exact Hclean|]. intros h (H1 & _ & _ & H). auto. }
  assert (Hcr : no_sep 13 text = true).
  { destruct Htext as [-> | ->].
    - clear -Hlb. induction Hlb as [|h hosts Hh Hall IH]; [reflexivity|].
      destruct hosts as [|g hosts]; [apply no_linebreak_no_cr, Hh|].
      change (join 10 (h :: g :: hosts))
        with (h ++ 10 :: join 10 (g :: hosts)).
      rewrite no_sep_app. rewrite (no_linebreak_no_cr h Hh).
      change (no_sep 13 (10 :: ?s)) with (no_sep 13 s). exact IH.
    - clear -Hlb. induction Hlb as [|h hosts Hh Hall IH]; [reflexivity|].
      cbn [map concat]. rewrite !no_sep_app, (no_linebreak_no_cr h Hh), IH.
      reflexivity. }
  unfold load_hosts, read_text. rewrite Hdec.
  unfold fmap, result_fmap, mbind, result_bind, mret, result_ret.
  rewrite universal_newlines_id by exact Hcr. f_equal.
  destruct Htext as [-> | ->].
  - rewrite splitlines_join by exact Hne. apply host_lines_clean, Hclean.
  - rewrite splitlines_ended by exact Hlb. apply host_lines_clean, Hclean.
Qed.

Lemma host_file_loads_two :
  load_hosts (text lf ["192.168.1.7"; "10.0.0.9"]%string)
  = Ok [lit "192.168.1.7"; lit "10.0.0.9"].
Proof.
  apply (host_file_loads _
           (concat (map (fun h => h ++ [10])
                      [lit "192.168.1.7"; lit "10.0.0.9"]))).
  - vm_compute. reflexivity.
  - repeat (constructor;
            [repeat split; [discriminate | vm_compute; reflexivity ..]|]).
    constructor.
  - right. reflexivity.
Defined.

(** ** Text on [stdout] *)

Section StdoutFacts.
Context (encodable : Z -> bool).

Lemma can_print_app (s : str) :
  can_print encodable s = forallb encodable (s ++ [10]).
Proof.
  unfold can_print. rewrite forallb_app. simpl. rewrite andb_true_r.
  reflexivity.
Qed.

Lemma print_ok (s out : str) :
  can_print encodable s = true ->
  print encodable s out = (out ++ s ++ [10], Ok tt).
Proof.
  unfold can_print, print, write. intros H.
  apply andb_prop in H as [-> Hnl]. simpl. rewrite Hnl, <- app_assoc.
  reflexivity.
Qed.

Lemma print_raises (s out : str) :
  can_print encodable s = false ->
  print encodable s out
  = (out ++ partial_line encodable s, Raise UnicodeEncodeError).
Proof.
  unfold can_print, print, write, partial_line.
  destruct (forallb encodable s); simpl.
  - intros ->. reflexivity.
  - intros _. rewrite app_nil_r. reflexivity.
Qed.

Lemma print_lines_one (s out : str) :
  print_lines encodable [s] out = print encodable s out.
Proof.
  simpl. destruct (print encodable s out) as [out' [[]|e]]; reflexivity.
Qed.




Lemma abort_msg_ok (usage msg : str) :
  forallb encodable usage = true -> can_print encodable msg = true ->
  abort_msg encodable usage msg [] = (usage ++ msg ++ [10], Ok tt).
Proof.
  intros Hu Hm. unfold abort_msg, write. rewrite Hu. simpl.
  apply (print_ok msg usage Hm).
Qed.

Lemma abort_msg_no_usage (usage msg : str) :
  forallb encodable usage = false ->
  abort_msg encodable usage msg [] = ([], Raise UnicodeEncodeError).
Proof. intros Hu. unfold abort_msg, write. rewrite Hu. reflexivity. Qed.

Lemma abort_msg_no_message (usage msg : str) :
  forallb encodable usage = true -> can_print encodable msg = false ->
  abort_msg encodable usage msg []
  = (usage ++ partial_line encodable msg, Raise UnicodeEncodeError).
Proof.
  intros Hu Hm. unfold abort_msg, write. rewrite Hu. simpl.
  apply (print_raises msg usage Hm).
Qed.

(** [abort_msg] returns exactly when [stdout] can encode the usage and
    the message. *)
Lemma abort_msg_returns (usage msg out : str) (r : result unit) :
  abort_msg encodable usage msg [] = (out, r) ->
  (r = Ok tt
   <-> forallb encodable usage = true /\ can_print encodable msg = true)
  /\ (r = Ok tt \/ r = Raise UnicodeEncodeError).
Proof.
  destruct (forallb encodable usage) eqn:Hu.
  - destruct (can_print encodable msg) eqn:Hm.
    + rewrite (abort_msg_ok usage msg Hu Hm). intros [= _ <-].
      split; [tauto | auto].
    + rewrite (abort_msg_no_message usage msg Hu Hm). intros [= _ <-].
      split; [|auto]. split; [discriminate | intros [_ [=]]].
  - rewrite (abort_msg_no_usage usage msg Hu). intros [= _ <-].
    split; [|auto]. split; [discriminate | intros [[=] _]].
Qed.

End StdoutFacts.


Lemma forallb_any (s : str) : forallb (fun _ : Z => true) s = true.
Proof. induction s; simpl; auto. Qed.

(** ** [main] *)

Lemma render_report (encodable : Z -> bool) (timestamp format : str)
    (p : Pinger) (h : heap) (out : str) :
  render encodable timestamp format p h out
  = match report format timestamp (_source_host p) (items p h) with
    | Ok lines => print_lines encodable lines out
    | Raise e => (out, Raise e)
    end.
Proof.
  unfold render, report, output_json, Pinger_to_dict, output_csv, output_text.
  destruct (contains (lit "json") format); [|destruct (bool_decide _); reflexivity].
  unfold mbind, result_bind, fmap, result_fmap, mret, result_ret.
  destruct (to_dict_from (items p h) []); [|reflexivity].
  destruct (bool_decide (format = lit "json"));
    rewrite print_lines_one; reflexivity.
Qed.

Section MainFacts.
Context {F : PyFloat} (env : Env) (encodable : Z -> bool).
Context (exists_file : str -> bool) (read_file : str -> result bytes).
Context (usage timestamp : str) (t0 t1 : Z).

Lemma configured_dict (a : args.t) (host_list : list str) :
  _target_dict (configured env a host_list) = dict_fromkeys host_list 0%nat
  /\ _source_host (configured env a host_list) = gethostname env.
Proof.
  unfold configured, set_request_timeout, set_num_requests.
  destruct (_ <? _), (_ || _); auto.
Qed.

Lemma Pinger_init_configured (a : args.t) (host_list : list str)
    (h1 : heap) (p : Pinger) :
  Pinger_init env (TargetList host_list) [] = (h1, Ok p) ->
  h1 = [PingResult_zero]
  /\ set_request_timeout env (set_num_requests p (args.count a)) (args.wait a)
     = configured env a host_list.
Proof.
  rewrite Pinger_init_spec. intros [= <- <-]. auto.
Qed.

Lemma report_rows (format : str) (a : args.t) (host_list : list str) :
  exists lines,
    report format timestamp (gethostname env) (rows_of env a host_list)
    = Ok lines.
Proof.
  unfold report. destruct (contains (lit "json") format).
  - unfold rows_of. rewrite to_dict_from_fresh.
    + eexists. reflexivity.
    + simpl. rewrite map_map. simpl. rewrite map_id.
      apply dict_fromkeys_spec.
    + apply Forall_forall. intros e He.
      apply list_elem_of_fmap in He as (k & -> & _).
      apply expected_well_formed.
  - destruct (bool_decide _); eexists; reflexivity.
Qed.

(** What a run leaves for the renderer, whatever the schedule. *)
Lemma session_run (a : args.t) (host_list : list str) (h1 : heap)
    (p p' : Pinger) (h' : heap) (r : result unit) (out : str) :
  Pinger_init env (TargetList host_list) [] = (h1, Ok p) ->
  ping_targets env
    (set_request_timeout env (set_num_requests p (args.count a))
       (args.wait a)) h1 t0 t1 r p' h' ->
  (host_list = [] /\ r = Raise ValueError)
  \/ (host_list <> [] /\ r = Ok tt
      /\ exists lines,
           report (args.output a) timestamp (gethostname env)
             (rows_of env a host_list) = Ok lines
           /\ render encodable timestamp (args.output a) p' h' out
              = print_lines encodable lines out).
Proof.
  intros Hinit Hrun.
  destruct (Pinger_init_configured a host_list h1 p Hinit) as [-> Hq].
  rewrite Hq in Hrun.
  destruct (configured_dict a host_list) as [Hd Hsrc].
  destruct (run_from env host_list [] h' (configured env a host_list) p'
              t0 t1 r Hd Hrun) as [[-> ->] | (Hne & -> & Hi & Hs')];
    [left; auto|].
  right. split; [exact Hne|]. split; [reflexivity|].
  destruct (report_rows (args.output a) a host_list) as [lines Hrep].
  exists lines. split; [exact Hrep|].
  rewrite render_report, Hi, Hs', Hsrc, Hd.
  unfold rows_of in Hrep. rewrite Hrep. reflexivity.
Qed.

(** From [Pinger(host_list)] on, every run ends the same way. *)
Lemma session_outcome (a : args.t) (host_list : list str) (res : result Z)
    (out : str) :
  session env encodable timestamp t0 t1 a host_list res out ->
  (host_list = [] /\ res = Raise ValueError /\ out = [])
  \/ (host_list <> []
      /\ exists lines r,
           report (args.output a) timestamp (gethostname env)
             (rows_of env a host_list) = Ok lines
           /\ print_lines encodable lines [] = (out, r)
           /\ res = (fun _ => 0) <$> r).
Proof.
  intros Hs.
  inversion Hs as [h1 p e p' h' Hinit Hrun
                  |h1 p p' h' out' r Hinit Hrun Hrender]; subst.
  - destruct (session_run a host_list h1 p p' h' (Raise e) [] Hinit Hrun)
      as [[-> [= <-]] | (_ & [=] & _)].
    left. auto.
  - destruct (session_run a host_list h1 p p' h' (Ok tt) [] Hinit Hrun)
      as [[_ [=]] | (Hne & _ & lines & Hrep & Hr)].
    right. split; [exact Hne|]. exists lines, r.
    split; [exact Hrep|]. split; [congruence | reflexivity].
Qed.

Lemma session_exists (a : args.t) (host_list : list str) :
  exists res out, session env encodable timestamp t0 t1 a host_list res out.
Proof.
  destruct (configured_dict a host_list) as [Hd Hsrc].
  destruct (run_exists env host_list [] (configured env a host_list) t0 t1 Hd)
    as (r & p' & h' & Hrun).
  pose proof (Pinger_init_spec env (TargetList host_list) []) as Hinit.
  destruct r as [[]|e].
  - destruct (render encodable timestamp (args.output a) p' h' [])
      as [out res] eqn:Hr.
    exists ((fun _ => 0) <$> res), out.
    eapply session_done; [exact Hinit | exact Hrun | exact Hr].
  - exists (Raise e), []. eapply session_raises; [exact Hinit | exact Hrun].
Qed.

End MainFacts.

Section MainTheorems.
Context {F : PyFloat} (env : Env) (encodable : Z -> bool).
Context (exists_file : str -> bool) (read_file : str -> result bytes).
Context (usage timestamp : str) (t0 t1 : Z).


Lemma main_runs (a : args.t) :
  exists res out,
    main env encodable exists_file read_file usage timestamp t0 t1 a res out.
Proof.
  destruct (args.host a) as [|t ts] eqn:Hh.
  - destruct (args.input a) as [f|] eqn:Hi.
    + destruct (exists_file f) eqn:Hx.
      * destruct (hosts_of_file read_file f) as [host_list|e] eqn:Hf.
        -- destruct (session_exists env encodable timestamp t0 t1 a host_list)
             as (res & out & Hs).
           exists res, out. eapply main_file; eauto.
        -- exists (Raise e), []. eapply main_file_raises; eauto.
      * destruct (abort_msg encodable usage (f ++ lit " file does NOT exist.")
                    []) as [out r] eqn:Ha.
        exists ((fun _ => - 2) <$> r), out. eapply main_no_file; eauto.
    + destruct (abort_msg encodable usage
                  (lit "Must supply either host(s) or --input arguments.") [])
        as [out r] eqn:Ha.
      exists ((fun _ => - 1) <$> r), out. apply main_no_argument; assumption.
  - destruct (session_exists env encodable timestamp t0 t1 a (args.host a))
      as (res & out & Hs).
    exists res, out. apply main_hosts; [congruence | exact Hs].
Qed.

(** What [main] does, by the case of its arguments. *)
Lemma main_cases (a : args.t) (res : result Z) (out : str) :
  main env encodable exists_file read_file usage timestamp t0 t1 a res out ->
  (args.host a = [] /\ args.input a = None
   /\ exists r,
        abort_msg encodable usage
          (lit "Must supply either host(s) or --input arguments.") []
        = (out, r)
        /\ res = (fun _ => - 1) <$> r)
  \/ (args.host a = []
      /\ exists f r,
           args.input a = Some f /\ exists_file f = false
           /\ abort_msg encodable usage (f ++ lit " file does NOT exist.") []
              = (out, r)
           /\ res = (fun _ => - 2) <$> r)
  \/ (args.host a = []
      /\ exists f e, args.input a = Some f /\ exists_file f = true
                     /\ hosts_of_file read_file f = Raise e
                     /\ res = Raise e /\ out = [])
  \/ (exists host_list,
        pings exists_file read_file a host_list
        /\ session env encodable timestamp t0 t1 a host_list res out).
Proof.
  intros Hm.
  inversion Hm as [? r Hh Hi Ha | ? ? Hne Hs | f ? r Hh Hi Hx Ha
                  | f e Hh Hi Hx Hf | f l ? ? Hh Hi Hx Hf Hs]; subst.
  - left. eauto.
  - right. right. right. exists (args.host a). split; [left; auto | exact Hs].
  - right. left. split; [exact Hh|]. exists f, r. auto.
  - right. right. left. split; [exact Hh|]. exists f, e. auto.
  - right. right. right. exists l. split; [|exact Hs].
    right. split; [exact Hh|]. exists f. auto.
Qed.

Lemma pings_unique (a : args.t) (l l' : list str) :
  pings exists_file read_file a l -> pings exists_file read_file a l' ->
  l' = l.
Proof.
  intros [[Hne ->] | (Hh & f & Hi & Hx & Hf)]
         [[Hne' ->] | (Hh' & f' & Hi' & Hx' & Hf')];
    try congruence.
Qed.



(** X20: when the command line names no host and the file of [--input]
    exists but holds no host (it is empty, or has blank lines and comments
    only), [main] raises [ValueError] in every run and prints nothing: the
    executor refuses a pool without threads. *)
Theorem main_no_host_in_file (a : args.t) (res : result Z) (out : str) :
  pings exists_file read_file a [] ->
  main env encodable exists_file read_file usage timestamp t0 t1 a res out ->
  res = Raise ValueError /\ out = [].
Proof.
  intros Hp Hm.
  destruct (main_cases a res out Hm)
    as [(Hh & Hi & _) | [(Hh & f & r & Hi & Hx & _)
       | [(Hh & f & e & Hi & Hx & Hf & _) | (l & Hp' & Hs)]]];
    try (destruct Hp as [[Hn Hl] | (_ & g & Hg & Hgx & Hgf)]; congruence).
  rewrite (pings_unique a [] l Hp Hp') in Hs.
  destruct (session_outcome env encodable timestamp t0 t1 a [] res out Hs)
    as [(_ & -> & ->) | (Hne & _)]; [auto | congruence].
Qed.

(** X21: the exit codes of [main].  It returns -1, after the usage and a
    message, exactly when the command line names no host and no file and
    [stdout] can encode the usage and the message; -2, after the usage and
    a message that names the file, exactly when the command line names no
    host and a file that does not exist and [stdout] can encode the usage
    and the message with the name.  In these two cases, when [stdout]
    cannot encode the usage [main] raises [UnicodeEncodeError] and prints
    nothing, and when it cannot encode the message [main] raises
    [UnicodeEncodeError] after the usage.  [main] returns no other code
    than these and 0. *)
Theorem main_exit_codes (a : args.t) (res : result Z) (out : str) :
  main env encodable exists_file read_file usage timestamp t0 t1 a res out ->
  (res = Ok (- 1)
   <-> args.host a = [] /\ args.input a = None
       /\ forallb encodable usage = true
       /\ can_print encodable
            (lit "Must supply either host(s) or --input arguments.") = true)
  /\ (res = Ok (- 1) ->
      out = usage ++ lit "Must supply either host(s) or --input arguments."
            ++ [10])
  /\ (res = Ok (- 2)
      <-> args.host a = []
          /\ exists f, args.input a = Some f /\ exists_file f = false
                       /\ forallb encodable usage = true
                       /\ can_print encodable
                            (f ++ lit " file does NOT exist.") = true)
  /\ (res = Ok (- 2) ->
      exists f, args.input a = Some f
                /\ out = usage ++ (f ++ lit " file does NOT exist.") ++ [10])
  /\ (forall msg,
        args.host a = [] ->
        (args.input a = None
         /\ msg = lit "Must supply either host(s) or --input arguments.")
        \/ (exists f, args.input a = Some f /\ exists_file f = false
                      /\ msg = f ++ lit " file does NOT exist.") ->
        (forallb encodable usage = false ->
         res = Raise UnicodeEncodeError /\ out = [])
        /\ (forallb encodable usage = true ->
            can_print encodable msg = false ->
            res = Raise UnicodeEncodeError
            /\ out = usage ++ partial_line encodable msg))
  /\ (forall code, res = Ok code -> code = 0 \/ code = - 1 \/ code = - 2).
Proof.
  intros Hm.
  assert (Habort : forall msg r (c : Z),
             abort_msg encodable usage msg [] = (out, r) ->
             res = (fun _ => c) <$> r ->
             (res = Ok c
              <-> forallb encodable usage = true
                  /\ can_print encodable msg = true)
             /\ (res = Ok c -> out = usage ++ msg ++ [10])
             /\ (forallb encodable usage = false ->
                 res = Raise UnicodeEncodeError /\ out = [])
             /\ (forallb encodable usage = true ->
                 can_print encodable msg = false ->
                 res = Raise UnicodeEncodeError
                 /\ out = usage ++ partial_line encodable msg)
             /\ (forall code, res = Ok code -> code = c)).
  { intros msg r c Ha ->.
    destruct (forallb encodable usage) eqn:Hu.
    - destruct (can_print encodable msg) eqn:Hmsg.
      + rewrite (abort_msg_ok encodable usage msg Hu Hmsg) in Ha.
        injection Ha as <- <-. simpl.
        repeat split; try discriminate; auto. intros code [= <-]. reflexivity.
      + rewrite (abort_msg_no_message encodable usage msg Hu Hmsg) in Ha.
        injection Ha as <- <-. simpl.
        repeat split; try discriminate; auto; intros [_ [=]].
    - rewrite (abort_msg_no_usage encodable usage msg Hu) in Ha.
      injection Ha as <- <-. simpl.
      repeat split; try discriminate; auto; intros [[=] _]. }
  destruct (main_cases a res out Hm)
    as [(Hh & Hi & r & Ha & Hres)
       | [(Hh & f & r & Hi & Hx & Ha & Hres)
         | [(Hh & f & e & Hi & Hx & Hf & -> & ->)
           | (l & Hp & Hs)]]].
  - destruct (Habort _ r (- 1) Ha Hres) as (Hiff & Hout & Hnu & Hnm & Hcode).
    split; [rewrite Hiff; tauto|]. split; [exact Hout|].
    split.
    { split.
      - intros E. apply Hcode in E. discriminate.
      - intros (_ & g & Hg & _). congruence. }
    split; [intros E; apply Hcode in E; discriminate|].
    split.
    { intros msg _ [[_ ->] | (g & Hg & _)]; [|congruence].
      split; assumption. }
    intros code E. apply Hcode in E. auto.
  - destruct (Habort _ r (- 2) Ha Hres) as (Hiff & Hout & Hnu & Hnm & Hcode).
    split.
    { split.
      - intros E. apply Hcode in E. discriminate.
      - intros (_ & Hn & _). congruence. }
    split; [intros E; apply Hcode in E; discriminate|].
    split.
    { rewrite Hiff. split.
      - intros [Hu Hc]. split; [exact Hh|]. exists f. auto.
      - intros (_ & g & Hg & _ & Hu & Hc).
        assert (g = f) by congruence. subst g. auto. }
    split; [intros E; exists f; split; [exact Hi | apply Hout, E]|].
    split.
    { intros msg _ [[Hn _] | (g & Hg & _ & ->)]; [congruence|].
      assert (g = f) by congruence. subst g. split; assumption. }
    intros code E. apply Hcode in E. auto.
  - split; [split; [discriminate | intros (_ & Hn & _); congruence]|].
    split; [discriminate|].
    split; [split; [discriminate | intros (_ & g & Hg & Hgx & _); congruence]|].
    split; [discriminate|].
    split; [|discriminate].
    intros msg _ [[Hn _] | (g & Hg & Hgx & _)]; congruence.
  - assert (Hnone : ~ (args.host a = [] /\ args.input a = None)).
    { intros [Hh Hi].
      destruct Hp as [[Hn _] | (_ & g & Hg & _)]; congruence. }
    assert (Hnofile : ~ (args.host a = []
                         /\ exists f, args.input a = Some f
                                      /\ exists_file f = false)).
    { intros (Hh & g & Hg & Hgx).
      destruct Hp as [[Hn _] | (_ & g' & Hg' & Hgx' & _)]; congruence. }
    assert (Hcodes : forall code, res = Ok code -> code = 0).
    { intros code E.
      destruct (session_outcome env encodable timestamp t0 t1 a l res out Hs)
        as [(_ & -> & _) | (_ & lines & r & _ & _ & ->)]; [discriminate|].
      destruct r; [injection E as <-; reflexivity | discriminate]. }
    split; [split; [intros E; apply Hcodes in E; discriminate | tauto]|].
    split; [intros E; apply Hcodes in E; discriminate|].
    split.
    { split; [intros E; apply Hcodes in E; discriminate|].
      intros (Hh & g & Hg & Hgx & _). exfalso. apply Hnofile. eauto. }
    split; [intros E; apply Hcodes in E; discriminate|].
    split.
    { intros msg Hh [[Hn _] | (g & Hg & Hgx & _)]; exfalso.
      - apply Hnone. auto.
      - apply Hnofile. eauto. }
    intros code E. apply Hcodes in E. auto.
Qed.

Lemma session_same (a a' : args.t) (host_list : list str) (res : result Z)
    (out : str) :
  args.output a' = args.output a -> args.count a' = args.count a ->
  args.wait a' = args.wait a ->
  session env encodable timestamp t0 t1 a host_list res out ->
  session env encodable timestamp t0 t1 a' host_list res out.
Proof.
  intros Ho Hc Hw Hs.
  inversion Hs as [h1 p e p' h' Hinit Hrun
                  |h1 p p' h' out' r Hinit Hrun Hrender]; subst;
    rewrite <- Hc, <- Hw in Hrun; try rewrite <- Ho in Hrender.
  - eapply session_raises; eauto.
  - eapply session_done; eauto.
Qed.

(** X22: when the command line names hosts, [--input] is ignored: with
    the same hosts, format, count and timeout, [main] ends the same way and
    prints the same text whatever file [--input] names and whatever the
    file system holds. *)
Theorem main_ignores_input (a a' : args.t) (exists_file' : str -> bool)
    (read_file' : str -> result bytes) (res : result Z) (out : str) :
  args.host a <> [] -> args.host a' = args.host a ->
  args.output a' = args.output a -> args.count a' = args.count a ->
  args.wait a' = args.wait a ->
  main env encodable exists_file read_file usage timestamp t0 t1 a res out ->
  main env encodable exists_file' read_file' usage timestamp t0 t1 a' res out.
Proof.
  intros Hne Hh Ho Hc Hw Hm.
  inversion Hm as [? ? Hn | ? ? _ Hs | | |]; subst; try congruence.
  apply main_hosts; [congruence|]. rewrite Hh.
  eapply session_same; eauto.
Qed.

End MainTheorems.


(** A host file with a comment and an empty line only. *)
Lemma main_no_host_in_file_comment :
  exists res out,
    main lan (fun _ => true) (fun _ => true)
      (fun _ => Ok (text lf ["# no host yet"; ""]%string))
      (lit "usage: pinger" ++ [10]) (lit "01/02/2024 03:04:05") 0 5
      (file_args "hosts.txt") res out
    /\ res = Raise ValueError /\ out = [].
Proof.
  destruct (main_runs lan (fun _ => true) (fun _ => true)
              (fun _ => Ok (text lf ["# no host yet"; ""]%string))
              (lit "usage: pinger" ++ [10]) (lit "01/02/2024 03:04:05") 0 5
              (file_args "hosts.txt")) as (res & out & Hm).
  exists res, out. split; [exact Hm|].
  apply (main_no_host_in_file lan (fun _ => true) (fun _ => true)
           (fun _ => Ok (text lf ["# no host yet"; ""]%string))
           (lit "usage: pinger" ++ [10]) (lit "01/02/2024 03:04:05") 0 5
           (file_args "hosts.txt") res out); [|exact Hm].
  right. split; [reflexivity|]. exists (lit "hosts.txt").
  repeat split.
Defined.

(** A file that does not exist: -2 after the usage and the message; and a
    file that does not exist whose name has a letter outside ASCII, on a
    [stdout] that encodes ASCII only: the usage, then
    [UnicodeEncodeError]. *)
Lemma main_exit_codes_no_file :
  (exists res out,
     main lan ascii (fun _ => false) (fun _ => Raise OSError)
       (lit "usage: pinger" ++ [10]) (lit "01/02/2024 03:04:05") 0 5
       (file_args "hosts.txt") res out
     /\ res = Ok (- 2)
     /\ out = lit "usage: pinger" ++ [10]
              ++ lit "hosts.txt file does NOT exist." ++ [10])
  /\ (exists res out,
        main lan ascii (fun _ => false) (fun _ => Raise OSError)
          (lit "usage: pinger" ++ [10]) (lit "01/02/2024 03:04:05") 0 5
          umlaut_file_args res out
        /\ res = Raise UnicodeEncodeError
        /\ out = lit "usage: pinger" ++ [10]).
Proof.
  split.
  - destruct (main_runs lan ascii (fun _ => false) (fun _ => Raise OSError)
                (lit "usage: pinger" ++ [10]) (lit "01/02/2024 03:04:05") 0 5
                (file_args "hosts.txt")) as (res & out & Hm).
    exists res, out. split; [exact Hm|].
    destruct (main_exit_codes lan ascii (fun _ => false)
                (fun _ => Raise OSError) (lit "usage: pinger" ++ [10])
                (lit "01/02/2024 03:04:05") 0 5
                (file_args "hosts.txt") res out Hm)
      as (_ & _ & [_ H2] & Hout & _).
    assert (Hres : res = Ok (- 2)).
    { apply H2. split; [reflexivity|]. exists (lit "hosts.txt").
      repeat split. }
    split; [exact Hres|].
    destruct (Hout Hres) as (f & [= <-] & ->). reflexivity.
  - destruct (main_runs lan ascii (fun _ => false) (fun _ => Raise OSError)
                (lit "usage: pinger" ++ [10]) (lit "01/02/2024 03:04:05") 0 5
                umlaut_file_args) as (res & out & Hm).
    exists res, out. split; [exact Hm|].
    destruct (main_exit_codes lan ascii (fun _ => false)
                (fun _ => Raise OSError) (lit "usage: pinger" ++ [10])
                (lit "01/02/2024 03:04:05") 0 5
                umlaut_file_args res out Hm)
      as (_ & _ & _ & _ & Hraise & _).
    destruct (Hraise (lit "h" ++ [246] ++ lit "sts.txt"
                      ++ lit " file does NOT exist.") eq_refl) as [_ H].
    { right. exists (lit "h" ++ [246] ++ lit "sts.txt"). repeat split. }
    destruct H as [-> ->]; [reflexivity | reflexivity |].
    split; reflexivity.
Defined.

(** The sample network, with and without a file named. *)
Lemma main_ignores_input_lab :
  exists res out,
    main lan (fun _ => true) (fun _ => false) (fun _ => Raise OSError)
      (lit "usage: pinger" ++ [10]) (lit "01/02/2024 03:04:05") 0 5
      (lab_args None) res out
    /\ main lan (fun _ => true) (fun _ => true) (fun _ => Ok host_file)
         (lit "usage: pinger" ++ [10]) (lit "01/02/2024 03:04:05") 0 5
         (lab_args (Some (lit "hosts.txt"))) res out.
Proof.
  destruct (main_runs lan (fun _ => true) (fun _ => false)
              (fun _ => Raise OSError) (lit "usage: pinger" ++ [10])
              (lit "01/02/2024 03:04:05") 0 5 (lab_args None))
    as (res & out & Hm).
  exists res, out. split; [exact Hm|].
  apply (main_ignores_input lan (fun _ => true) (fun _ => false)
           (fun _ => Raise OSError) (lit "usage: pinger" ++ [10])
           (lit "01/02/2024 03:04:05") 0 5
           (lab_args None) (lab_args (Some (lit "hosts.txt")))
           (fun _ => true) (fun _ => Ok host_file) res out);
    try reflexivity; [discriminate | exact Hm].
Defined.
